(** * Support-ticket analysis pipeline: call orchestration and response recovery

    A shallow embedding of [src/client.py], [src/cache.py], [src/models.py],
    [src/prompts.py] and [src/orchestrator.py].

    Conventions.
    - A Python [str] is a [string]; a character is a code point below 256.
      Text algorithms work on [list ascii] and convert at their boundary.
    - A Python [float] is a [spec_float], the IEEE 754 numbers of the
      standard library, at the precision of binary64.
    - A Python exception is a value of [exn]; fallible pure code returns
      [exn + A] with the exception on the left.
    - Coroutines are terms of the free monad [prog]: its events are the
      suspension points and side effects of the source (semaphore, request,
      sleep, cache files, clock, progress counter).  [run] interprets one
      coroutine sequentially; [step] interleaves the coroutines of a batch. *)

From Stdlib Require Import ZArith Ascii String List Lia Bool.
From Stdlib Require Import Decimal DecimalFacts DecimalZ.
From Stdlib Require Import Sorted SpecFloat.
From stdpp Require Import base option list gmap strings.

Local Open Scope Z_scope.
#[global] Set Warnings "-register-all".

(** ** Text helpers (Python [str] methods used by the source) *)

Abbreviation chars := (list ascii).

Definition chars_of (s : string) : chars := list_ascii_of_string s.
Definition str_of (l : chars) : string := string_of_list_ascii l.

Definition quote_char : ascii := "034"%char.
Definition newline_char : ascii := "010"%char.
Definition backslash_char : ascii := "\"%char.
Definition quote_str : string := String quote_char EmptyString.
Definition newline : string := String newline_char EmptyString.

Module Text.

(** [str.isspace] on the code points below 256. *)
Definition isspace (c : ascii) : bool :=
  let n := nat_of_ascii c in
  ((9 <=? n) && (n <=? 13) || (28 <=? n) && (n <=? 32) || (n =? 133) || (n =? 160))%nat.

Fixpoint lstrip (s : chars) : chars :=
  match s with
  | c :: s' => if isspace c then lstrip s' else s
  | [] => []
  end.

Definition rstrip (s : chars) : chars := rev (lstrip (rev s)).

(** [s.strip()] *)
Definition strip (s : chars) : chars := rstrip (lstrip s).

(** [s.startswith(p)] *)
Fixpoint startswith (p s : chars) : bool :=
  match p, s with
  | [], _ => true
  | a :: p', b :: s' => Ascii.eqb a b && startswith p' s'
  | _ :: _, [] => false
  end.

(** [s.split(sep)] for a non-empty separator: [skip] counts the characters
    of a separator still to be passed over, [cur] is the current piece,
    reversed. *)
Fixpoint split_go (sep : chars) (skip : nat) (cur : chars) (s : chars) : list chars :=
  match s with
  | [] => [rev cur]
  | c :: s' =>
      match skip with
      | S k => split_go sep k cur s'
      | O =>
          if startswith sep s
          then rev cur :: split_go sep (length sep - 1) [] s'
          else split_go sep 0 (c :: cur) s'
      end
  end.

Definition split (sep s : chars) : list chars := split_go sep 0 [] s.

(** The characters of [s] before the leftmost occurrence of [sep]
    (all of [s] when there is none). *)
Fixpoint before (sep s : chars) : chars :=
  match s with
  | [] => []
  | c :: s' => if startswith sep s then [] else c :: before sep s'
  end.

(** [s.rfind(c)] for a single character: the last index, or -1. *)
Fixpoint rfind_go (c : ascii) (i : Z) (last : Z) (s : chars) : Z :=
  match s with
  | [] => last
  | a :: s' => rfind_go c (i + 1) (if Ascii.eqb a c then i else last) s'
  end.

Definition rfind (c : ascii) (s : chars) : Z := rfind_go c 0 (-1) s.

(** [s[-n:]] for a positive [n]. *)
Definition last_n (n : nat) (s : chars) : chars := drop (length s - n) s.

(** [s.replace(old, new)] for a single-character [old]. *)
Fixpoint replace_char (old : ascii) (new : chars) (s : chars) : chars :=
  match s with
  | [] => []
  | c :: s' => (if Ascii.eqb c old then new else [c]) ++ replace_char old new s'
  end.

(** [sep.join(parts)] *)
Fixpoint join (sep : string) (parts : list string) : string :=
  match parts with
  | [] => ""
  | [p] => p
  | p :: ps => p +:+ sep +:+ join sep ps
  end.

End Text.

(** ** Exceptions *)

(** The [Exception] subclasses that the modelled code meets.  [APIError]
    stands for any exception of the SDK request other than the timeout of
    [asyncio.wait_for].  [BaseException]s that are not [Exception]s
    (cancellation, keyboard interrupt) are outside the model. *)
Inductive exn : Type :=
| TimeoutError
| APIError (detail : string)
| JSONDecodeError (msg : string) (doc : string) (pos : Z)
| ValidationError (model : string)
| TypeError (msg : string)
| AttributeError (msg : string)
| ValueError (msg : string)
| IndexError (msg : string)
| OverflowError (msg : string)
| FileNotFoundError (path : string).

Abbreviation result A := (exn + A)%type.

(** ** JSON values and the [json] codec *)

(** The values [json.loads] builds, which are also the Python values the
    normalizers inspect: [None], [bool], [int], [float], [str], [list],
    [dict] with string keys in insertion order.  A [float] is an IEEE 754
    binary64 number, [spec_float] at precision 53; a [str] holds code
    points below 256. *)
Inductive value : Type :=
| JNull
| JBool (b : bool)
| JInt (n : Z)
| JFloat (x : spec_float)
| JStr (s : string)
| JList (l : list value)
| JDict (d : list (string * value)).

Module Json.

(** [d[k] = v] on an insertion-ordered dict. *)
Fixpoint dict_set (k : string) (v : value) (d : list (string * value))
  : list (string * value) :=
  match d with
  | [] => [(k, v)]
  | (k', v') :: d' =>
      if String.eqb k' k then (k', v) :: d' else (k', v') :: dict_set k v d'
  end.

(** [d.get(k)] *)
Fixpoint dict_get (k : string) (d : list (string * value)) : option value :=
  match d with
  | [] => None
  | (k', v') :: d' => if String.eqb k' k then Some v' else dict_get k d'
  end.

(** [dict(pairs)] *)
Definition dict_of_pairs (pairs : list (string * value)) : list (string * value) :=
  fold_left (fun d kv => dict_set (fst kv) (snd kv) d) pairs [].

(** A Python dict has distinct keys. *)
Fixpoint distinct (keys : list string) : bool :=
  match keys with
  | [] => true
  | k :: keys' => negb (existsb (String.eqb k) keys') && distinct keys'
  end.

(** *** Encoder: [json.dumps] with its default separators and
    [ensure_ascii=True] *)

Definition hex_digit (n : nat) : ascii :=
  nth n (chars_of "0123456789abcdef") "0"%char.

Definition escape_char (c : ascii) : chars :=
  let n := nat_of_ascii c in
  if Ascii.eqb c quote_char then [backslash_char; quote_char]
  else if Ascii.eqb c backslash_char then [backslash_char; backslash_char]
  else if Ascii.eqb c "010" then [backslash_char; "n"%char]
  else if Ascii.eqb c "013" then [backslash_char; "r"%char]
  else if Ascii.eqb c "009" then [backslash_char; "t"%char]
  else if Ascii.eqb c "008" then [backslash_char; "b"%char]
  else if Ascii.eqb c "012" then [backslash_char; "f"%char]
  else if ((32 <=? n) && (n <=? 126))%nat then [c]
  else [backslash_char; "u"%char; "0"%char; "0"%char;
        hex_digit (n / 16); hex_digit (n mod 16)].

Definition escape (s : chars) : chars := flat_map escape_char s.

Definition dump_string (s : string) : chars :=
  quote_char :: escape (chars_of s) ++ [quote_char].

Definition digit_char (d : nat) : ascii := ascii_of_nat (48 + d).

Fixpoint uint_chars (u : Decimal.uint) : chars :=
  match u with
  | Nil => []
  | D0 u' => digit_char 0 :: uint_chars u'
  | D1 u' => digit_char 1 :: uint_chars u'
  | D2 u' => digit_char 2 :: uint_chars u'
  | D3 u' => digit_char 3 :: uint_chars u'
  | D4 u' => digit_char 4 :: uint_chars u'
  | D5 u' => digit_char 5 :: uint_chars u'
  | D6 u' => digit_char 6 :: uint_chars u'
  | D7 u' => digit_char 7 :: uint_chars u'
  | D8 u' => digit_char 8 :: uint_chars u'
  | D9 u' => digit_char 9 :: uint_chars u'
  end.

(** [str(n)] for a Python int. *)
Definition int_chars (n : Z) : chars :=
  match Z.to_int n with
  | Decimal.Pos u => uint_chars u
  | Decimal.Neg u => "-"%char :: uint_chars u
  end.

Fixpoint join_chars (sep : chars) (parts : list chars) : chars :=
  match parts with
  | [] => []
  | [p] => p
  | p :: ps => p ++ sep ++ join_chars sep ps
  end.

(** *** Floats *)

Definition prec : Z := 53.
Definition emax : Z := 1024.

(** The same float: [-0.0] is not [0.0], and [nan] is [nan]. *)
Definition float_same (x y : spec_float) : bool :=
  match x, y with
  | S754_zero s, S754_zero s' | S754_infinity s, S754_infinity s' => Bool.eqb s s'
  | S754_nan, S754_nan => true
  | S754_finite s m e, S754_finite s' m' e' =>
      Bool.eqb s s' && Pos.eqb m m' && Z.eqb e e'
  | _, _ => false
  end.

(** [float(literal)] for a literal of value [m * 10^e]: the nearest
    float, ties to even; a value too large is an infinity. *)
Definition float_of_decimal (neg : bool) (m : N) (e : Z) : spec_float :=
  match m with
  | N0 => S754_zero neg
  | Npos p =>
      if 0 <=? e
      then binary_round prec emax neg (Z.to_pos (Zpos p * 10 ^ e)) 0
      else SFdiv prec emax (S754_finite neg p 0)
             (S754_finite false (Z.to_pos (10 ^ (- e))) 0)
  end.

(** [m * 2^e / 10^q] as a fraction. *)
Definition scaled (m : positive) (e q : Z) : Z * Z :=
  (Zpos m * 2 ^ Z.max e 0 * 10 ^ Z.max (- q) 0,
   2 ^ Z.max (- e) 0 * 10 ^ Z.max q 0).

(** The position of the decimal point of [m * 2^e]: the greatest [k] at
    or below [start] with [10^(k-1) <= m * 2^e]. *)
Fixpoint decimal_point (fuel : nat) (m : positive) (e start : Z) : Z :=
  match fuel with
  | O => start
  | S fuel' =>
      let '(num, den) := scaled m e (start - 1) in
      if den <=? num then start else decimal_point fuel' m e (start - 1)
  end.

(** The integers next to [m * 2^e / 10^(k-n)], which have [n] digits:
    the nearer first, and the even one first when they are as near. *)
Definition neighbours (m : positive) (e k n : Z) : list Z :=
  let '(num, den) := scaled m e (k - n) in
  let lo := num / den in
  let r := num mod den in
  if r =? 0 then [lo]
  else if 2 * r <? den then [lo; lo + 1]
  else if den <? 2 * r then [lo + 1; lo]
  else if Z.even lo then [lo; lo + 1] else [lo + 1; lo].

(** [float("<d>e<q>")] is [m * 2^e]. *)
Definition reads_as (m : positive) (e q d : Z) : bool :=
  float_same (float_of_decimal false (Z.to_N d) q) (S754_finite false m e).

(** The shortest decimal [d * 10^q] that reads as [m * 2^e], tried with
    [n], [n + 1], ... digits; 17 digits always tell a float. *)
Fixpoint shortest (fuel : nat) (m : positive) (e k n : Z) : Z * Z :=
  match fuel with
  | O => (hd 0 (neighbours m e k 17), k - 17)
  | S fuel' =>
      match filter (λ d, Is_true (reads_as m e (k - n) d)) (neighbours m e k n) with
      | d :: _ => (d, k - n)
      | [] => shortest fuel' m e k (n + 1)
      end
  end.

(** [d * 10^q] without the zeros at the end of [d]. *)
Fixpoint strip_zeros (fuel : nat) (d q : Z) : Z * Z :=
  match fuel with
  | O => (d, q)
  | S fuel' =>
      if (d mod 10 =? 0) && negb (d =? 0)
      then strip_zeros fuel' (d / 10) (q + 1)
      else (d, q)
  end.

(** The digits of [repr(x)] for [x = m * 2^e] and the position of the
    decimal point: [x = 0.d1d2...dn * 10^decpt]. *)
Definition repr_digits (m : positive) (e : Z) : chars * Z :=
  let bits := Zpos (digits2_pos m) + e in
  let k := decimal_point 700 m e (bits * 30103 / 100000 + 2) in
  let '(d, q) := shortest 17 m e k 1 in
  let '(d, q) := strip_zeros 17 d q in
  let digits := int_chars d in
  (digits, q + Z.of_nat (length digits)).

Definition zeros (n : Z) : chars := replicate (Z.to_nat n) "0"%char.

(** The format of [repr]: the exponent form when the decimal point is
    more than 16 places after the first digit or more than 3 zeros before
    it, with a sign and at least two digits in the exponent. *)
Definition format_short (digits : chars) (decpt : Z) : chars :=
  if (decpt <=? -4) || (16 <? decpt) then
    let mantissa :=
      match digits with
      | [] => []
      | [d] => [d]
      | d :: ds => d :: "."%char :: ds
      end in
    let x := decpt - 1 in
    let xs := int_chars (Z.abs x) in
    mantissa ++ "e"%char :: (if x <? 0 then "-"%char else "+"%char)
    :: (if (length xs <? 2)%nat then "0"%char :: xs else xs)
  else if decpt <=? 0 then
    "0"%char :: "."%char :: zeros (- decpt) ++ digits
  else if Z.of_nat (length digits) <=? decpt then
    digits ++ zeros (decpt - Z.of_nat (length digits)) ++ chars_of ".0"
  else take (Z.to_nat decpt) digits ++ "."%char :: drop (Z.to_nat decpt) digits.

(** [repr(x)] for a float [x], which is also [str(x)]. *)
Definition float_repr (x : spec_float) : chars :=
  match x with
  | S754_nan => chars_of "nan"
  | S754_infinity false => chars_of "inf"
  | S754_infinity true => chars_of "-inf"
  | S754_zero false => chars_of "0.0"
  | S754_zero true => chars_of "-0.0"
  | S754_finite s m e =>
      let '(digits, decpt) := repr_digits m e in
      (if s then ["-"%char] else []) ++ format_short digits decpt
  end.

(** What the encoder writes for a float: its [repr], and [NaN],
    [Infinity] or [-Infinity] ([allow_nan] is on by default). *)
Definition float_chars (x : spec_float) : chars :=
  match x with
  | S754_nan => chars_of "NaN"
  | S754_infinity false => chars_of "Infinity"
  | S754_infinity true => chars_of "-Infinity"
  | _ => float_repr x
  end.

Fixpoint dumps_chars (v : value) : chars :=
  match v with
  | JNull => chars_of "null"
  | JBool true => chars_of "true"
  | JBool false => chars_of "false"
  | JInt n => int_chars n
  | JFloat x => float_chars x
  | JStr s => dump_string s
  | JList l =>
      "["%char :: join_chars (chars_of ", ") (map dumps_chars l) ++ ["]"%char]
  | JDict d =>
      "{"%char ::
      join_chars (chars_of ", ")
        ((fix members (d : list (string * value)) : list chars :=
            match d with
            | [] => []
            | (k, x) :: d' =>
                (dump_string k ++ chars_of ": " ++ dumps_chars x) :: members d'
            end) d)
      ++ ["}"%char]
  end.

Definition dumps (v : value) : string := str_of (dumps_chars v).

(** *** Decoder: [json.loads] on a [str] *)

(** The whitespace [json] skips: space, tab, line feed, carriage return. *)
Definition is_ws (c : ascii) : bool :=
  Ascii.eqb c " " || Ascii.eqb c "009" || Ascii.eqb c "010" || Ascii.eqb c "013".

Fixpoint skip_ws (s : chars) : chars :=
  match s with
  | c :: s' => if is_ws c then skip_ws s' else s
  | [] => []
  end.

Definition hex_value (c : ascii) : option nat :=
  let n := nat_of_ascii c in
  if ((48 <=? n) && (n <=? 57))%nat then Some (n - 48)%nat
  else if ((97 <=? n) && (n <=? 102))%nat then Some (n - 87)%nat
  else if ((65 <=? n) && (n <=? 70))%nat then Some (n - 55)%nat
  else None.

Definition hex4 (a b c d : ascii) : option nat :=
  match hex_value a, hex_value b, hex_value c, hex_value d with
  | Some x, Some y, Some z, Some w => Some (((x * 16 + y) * 16 + z) * 16 + w)%nat
  | _, _, _, _ => None
  end.

Definition push_char (c : ascii) (r : option (chars * chars)) : option (chars * chars) :=
  match r with
  | Some (s, rest) => Some (c :: s, rest)
  | None => None
  end.

(** The body of a string literal, after its opening quote: the decoded
    characters and the text after the closing quote.  Control characters
    are refused (strict mode).  A [\u] escape of a code point above 255
    has no [str] in this model: the decoder gives nothing for it, and what
    is proved of a decoding failure holds of [json.loads] on the texts
    without such an escape. *)
Fixpoint parse_string (s : chars) : option (chars * chars) :=
  match s with
  | [] => None
  | c :: r =>
      if Ascii.eqb c quote_char then Some ([], r)
      else if Ascii.eqb c backslash_char then
        match r with
        | [] => None
        | e :: r' =>
            if Ascii.eqb e quote_char then push_char quote_char (parse_string r')
            else if Ascii.eqb e backslash_char then push_char backslash_char (parse_string r')
            else if Ascii.eqb e "/" then push_char "/" (parse_string r')
            else if Ascii.eqb e "b" then push_char "008" (parse_string r')
            else if Ascii.eqb e "f" then push_char "012" (parse_string r')
            else if Ascii.eqb e "n" then push_char "010" (parse_string r')
            else if Ascii.eqb e "r" then push_char "013" (parse_string r')
            else if Ascii.eqb e "t" then push_char "009" (parse_string r')
            else if Ascii.eqb e "u" then
              match r' with
              | h1 :: h2 :: h3 :: h4 :: r'' =>
                  match hex4 h1 h2 h3 h4 with
                  | Some n =>
                      if (n <? 256)%nat
                      then push_char (ascii_of_nat n) (parse_string r'')
                      else None
                  | None => None
                  end
              | _ => None
              end
            else None
        end
      else if (nat_of_ascii c <? 32)%nat then None
      else push_char c (parse_string r)
  end.

Definition is_digit (c : ascii) : bool :=
  let n := nat_of_ascii c in ((48 <=? n) && (n <=? 57))%nat.

Definition digit_cons (c : ascii) (u : Decimal.uint) : Decimal.uint :=
  match (nat_of_ascii c - 48)%nat with
  | 0 => D0 u | 1 => D1 u | 2 => D2 u | 3 => D3 u | 4 => D4 u
  | 5 => D5 u | 6 => D6 u | 7 => D7 u | 8 => D8 u | _ => D9 u
  end%nat.

(** The longest run of digits at the head of [s]. *)
Fixpoint read_digits (s : chars) : Decimal.uint * chars :=
  match s with
  | c :: s' =>
      if is_digit c
      then let '(u, rest) := read_digits s' in (digit_cons c u, rest)
      else (Nil, s)
  | [] => (Nil, [])
  end.

(** An integer part is [0] or starts with a non-zero digit. *)
Definition plain_digits (u : Decimal.uint) : bool :=
  match u with
  | Nil => false
  | D0 Nil => true
  | D0 _ => false
  | _ => true
  end.

(** The fraction of a number, [.] and at least one digit, if there is
    one at the head of [s]. *)
Definition read_fraction (s : chars) : option Decimal.uint * chars :=
  match s with
  | c :: r =>
      if Ascii.eqb c "." then
        match read_digits r with
        | (Nil, _) => (None, s)
        | (f, rest) => (Some f, rest)
        end
      else (None, s)
  | [] => (None, s)
  end.

(** The exponent of a number, [e] or [E], a sign or none and at least
    one digit, if there is one at the head of [s]. *)
Definition read_exponent (s : chars) : option Z * chars :=
  match s with
  | c :: r =>
      if Ascii.eqb c "e" || Ascii.eqb c "E" then
        let '(neg, r') :=
          match r with
          | sign :: r1 =>
              if Ascii.eqb sign "-" then (true, r1)
              else if Ascii.eqb sign "+" then (false, r1)
              else (false, r)
          | [] => (false, r)
          end in
        match read_digits r' with
        | (Nil, _) => (None, s)
        | (d, rest) =>
            (Some (Z.of_int (if neg then Decimal.Neg d else Decimal.Pos d)), rest)
        end
      else (None, s)
  | [] => (None, s)
  end.

(** A number at the head of [s]: a minus sign or none, an integer part
    that is [0] or starts with another digit, then a fraction and an
    exponent if there are.  It is an [int] when it has neither fraction
    nor exponent, else the [float] of the literal. *)
Definition parse_number (s : chars) : option (value * chars) :=
  let '(neg, body) :=
    match s with
    | c :: s' => if Ascii.eqb c "-" then (true, s') else (false, s)
    | [] => (false, [])
    end in
  let '(u, r1) := read_digits body in
  if plain_digits u then
    let '(frac, r2) := read_fraction r1 in
    let '(exp, r3) := read_exponent r2 in
    match frac, exp with
    | None, None =>
        Some (JInt (Z.of_int (if neg then Decimal.Neg u else Decimal.Pos u)), r3)
    | _, _ =>
        let f := default Nil frac in
        Some (JFloat
                (float_of_decimal neg (N.of_uint (Decimal.app u f))
                   (default 0 exp - Z.of_nat (Decimal.nb_digits f))), r3)
    end
  else None.

Definition strip_prefix (p s : chars) : option chars :=
  if Text.startswith p s then Some (drop (length p) s) else None.

(** One value at the head of [s], and the text after it. *)
Fixpoint parse_value (fuel : nat) (s : chars) : option (value * chars) :=
  match fuel with
  | O => None
  | S fuel' =>
      match s with
      | [] => None
      | c :: r =>
          if Ascii.eqb c quote_char then
            match parse_string r with
            | Some (str, rest) => Some (JStr (str_of str), rest)
            | None => None
            end
          else if Ascii.eqb c "[" then
            match skip_ws r with
            | c' :: r' =>
                if Ascii.eqb c' "]" then Some (JList [], r')
                else
                  match parse_elems fuel' (c' :: r') with
                  | Some (vs, rest) => Some (JList vs, rest)
                  | None => None
                  end
            | [] => None
            end
          else if Ascii.eqb c "{" then
            match skip_ws r with
            | c' :: r' =>
                if Ascii.eqb c' "}" then Some (JDict [], r')
                else
                  match parse_members fuel' (c' :: r') with
                  | Some (kvs, rest) => Some (JDict (dict_of_pairs kvs), rest)
                  | None => None
                  end
            | [] => None
            end
          else if Ascii.eqb c "n" then
            match strip_prefix (chars_of "ull") r with
            | Some rest => Some (JNull, rest)
            | None => None
            end
          else if Ascii.eqb c "t" then
            match strip_prefix (chars_of "rue") r with
            | Some rest => Some (JBool true, rest)
            | None => None
            end
          else if Ascii.eqb c "f" then
            match strip_prefix (chars_of "alse") r with
            | Some rest => Some (JBool false, rest)
            | None => None
            end
          else if Ascii.eqb c "N" then
            match strip_prefix (chars_of "aN") r with
            | Some rest => Some (JFloat S754_nan, rest)
            | None => None
            end
          else if Ascii.eqb c "I" then
            match strip_prefix (chars_of "nfinity") r with
            | Some rest => Some (JFloat (S754_infinity false), rest)
            | None => None
            end
          else if Ascii.eqb c "-" then
            match strip_prefix (chars_of "Infinity") r with
            | Some rest => Some (JFloat (S754_infinity true), rest)
            | None => parse_number s
            end
          else parse_number s
      end
  end

(** The elements of an array from its first value to the closing bracket. *)
with parse_elems (fuel : nat) (s : chars) : option (list value * chars) :=
  match fuel with
  | O => None
  | S fuel' =>
      match parse_value fuel' s with
      | Some (v, rest) =>
          match skip_ws rest with
          | c :: r =>
              if Ascii.eqb c "]" then Some ([v], r)
              else if Ascii.eqb c "," then
                match parse_elems fuel' (skip_ws r) with
                | Some (vs, rest') => Some (v :: vs, rest')
                | None => None
                end
              else None
          | [] => None
          end
      | None => None
      end
  end

(** The members of an object from its first key to the closing brace. *)
with parse_members (fuel : nat) (s : chars)
  : option (list (string * value) * chars) :=
  match fuel with
  | O => None
  | S fuel' =>
      match s with
      | c :: r =>
          if Ascii.eqb c quote_char then
            match parse_string r with
            | Some (k, rest) =>
                match skip_ws rest with
                | c1 :: r1 =>
                    if Ascii.eqb c1 ":" then
                      match parse_value fuel' (skip_ws r1) with
                      | Some (v, rest2) =>
                          match skip_ws rest2 with
                          | c2 :: r2 =>
                              if Ascii.eqb c2 "}" then Some ([(str_of k, v)], r2)
                              else if Ascii.eqb c2 "," then
                                match parse_members fuel' (skip_ws r2) with
                                | Some (kvs, rest') => Some ((str_of k, v) :: kvs, rest')
                                | None => None
                                end
                              else None
                          | [] => None
                          end
                      | None => None
                      end
                    else None
                | [] => None
                end
            | None => None
            end
          else None
      | [] => None
      end
  end.

(** [json.loads(s)]: [None] stands for [json.JSONDecodeError]. *)
Definition loads_chars (s : chars) : option value :=
  let s' := skip_ws s in
  match parse_value (S (2 * length s')) s' with
  | Some (v, rest) =>
      match skip_ws rest with
      | [] => Some v
      | _ :: _ => None
      end
  | None => None
  end.

Definition loads (s : string) : option value := loads_chars (chars_of s).

(** [float(repr(x)) == x] for the float [x]: the literal that [repr]
    prints is read back as [x], as it is for every float of CPython. *)
Definition float_ok (x : spec_float) : bool :=
  match x with
  | S754_nan | S754_infinity _ => true
  | _ =>
      match parse_number (float_repr x) with
      | Some (JFloat y, []) => float_same x y
      | _ => false
      end
  end.

(** The values of Python: the keys of every dict are distinct, and every
    float is the float of its [repr]. *)
Fixpoint well_formed (v : value) : bool :=
  match v with
  | JFloat x => float_ok x
  | JList l => forallb well_formed l
  | JDict d =>
      distinct (map fst d) && forallb (fun kv => well_formed (snd kv)) d
  | _ => true
  end.

End Json.

(** ** Calendar dates ([datetime.date]) *)

Record date : Type := Date { year : Z; month : Z; day : Z }.

Module PyDate.

Definition is_leap (y : Z) : bool :=
  (y mod 4 =? 0) && (negb (y mod 100 =? 0) || (y mod 400 =? 0)).

Definition days_in_month (y m : Z) : Z :=
  if m =? 2 then (if is_leap y then 29 else 28)
  else if (m =? 4) || (m =? 6) || (m =? 9) || (m =? 11) then 30
  else 31.

(** The dates a [datetime.date] can hold: 0001-01-01 to 9999-12-31. *)
Definition valid (d : date) : bool :=
  (1 <=? year d) && (year d <=? 9999) &&
  (1 <=? month d) && (month d <=? 12) &&
  (1 <=? day d) && (day d <=? days_in_month (year d) (month d)).

(** [d - timedelta(days=1)]; [date.min] has no predecessor. *)
Definition minus_one_day (d : date) : result date :=
  if 1 <? day d then inr (Date (year d) (month d) (day d - 1))
  else if 1 <? month d
       then inr (Date (year d) (month d - 1) (days_in_month (year d) (month d - 1)))
  else if 1 <? year d then inr (Date (year d - 1) 12 31)
  else inl (OverflowError "date value out of range").

(** [d + timedelta(days=1)]; [date.max] has no successor. *)
Definition plus_one_day (d : date) : result date :=
  if day d <? days_in_month (year d) (month d)
  then inr (Date (year d) (month d) (day d + 1))
  else if month d <? 12 then inr (Date (year d) (month d + 1) 1)
  else if year d <? 9999 then inr (Date (year d + 1) 1 1)
  else inl (OverflowError "date value out of range").

(** The last [width] decimal digits of [n]: for a valid date this is the
    zero-padded field that [isoformat] and [strftime] print. *)
Fixpoint zero_padded (width : nat) (n : Z) : chars :=
  match width with
  | O => []
  | S w => zero_padded w (n / 10) ++ [Json.digit_char (Z.to_nat (n mod 10))]
  end.

(** [d.isoformat()], which is also [str(d)]. *)
Definition isoformat (d : date) : string :=
  str_of (zero_padded 4 (year d) ++ "-"%char :: zero_padded 2 (month d)
          ++ "-"%char :: zero_padded 2 (day d)).

(** [d.strftime("%Y-%m")] and [d.strftime("%d")]. *)
Definition strftime_Ym (d : date) : string :=
  str_of (zero_padded 4 (year d) ++ "-"%char :: zero_padded 2 (month d)).

Definition strftime_d (d : date) : string := str_of (zero_padded 2 (day d)).

End PyDate.

(** ** Records of [models.py] and their validation *)

(** [str(n)] for an int. *)
Definition int_str (n : Z) : string := str_of (Json.int_chars n).

(** A field that must hold a [str]. *)
Definition field_str (d : list (string * value)) (k : string) : option string :=
  match Json.dict_get k d with
  | Some (JStr s) => Some s
  | _ => None
  end.

Fixpoint strs (l : list value) : option (list string) :=
  match l with
  | [] => Some []
  | JStr s :: l' => match strs l' with Some r => Some (s :: r) | None => None end
  | _ :: _ => None
  end.

(** A field that must hold a [list[str]]. *)
Definition field_strs (d : list (string * value)) (k : string)
  : option (list string) :=
  match Json.dict_get k d with
  | Some (JList l) => strs l
  | _ => None
  end.

Definition has_key (k : string) (d : list (string * value)) : bool :=
  match Json.dict_get k d with Some _ => true | None => false end.

(** [Model(fixed=..., **data)]: [data] must be a mapping that does not
    repeat a keyword given explicitly; then the fields are validated.
    Unknown keys are ignored. *)
Definition init_model {T : Type} (name : string) (fixed : list string)
    (validate : list (string * value) → option T) (data : value) : result T :=
  match data with
  | JDict d =>
      if existsb (fun k => has_key k d) fixed
      then inl (TypeError "got multiple values for keyword argument")
      else match validate d with
           | Some t => inr t
           | None => inl (ValidationError name)
           end
  | _ => inl (TypeError "argument after ** must be a mapping")
  end.

Module TicketAnalysis.
Record t : Type := Make {
  ticket_id : string;
  category : string;
  product_area : string;
  sentiment : string;
  priority : string;
  themes : list string;
  summary : string }.

Definition validate (ticket_id : string) (d : list (string * value)) : option t :=
  category ← field_str d "category";
  product_area ← field_str d "product_area";
  sentiment ← field_str d "sentiment";
  priority ← field_str d "priority";
  themes ← field_strs d "themes";
  summary ← field_str d "summary";
  Some (Make ticket_id category product_area sentiment priority themes summary).

(** [TicketAnalysis(ticket_id=ticket_id, **data)] *)
Definition init (ticket_id : string) (data : value) : result t :=
  init_model "TicketAnalysis" ["ticket_id"] (validate ticket_id) data.
End TicketAnalysis.

Module DailySummary.
#[local] Abbreviation calendar_date := date.

Record t : Type := Make {
  date : date;
  ticket_count : Z;
  key_themes : list string;
  trend_analysis : string;
  critical_issues : list string }.

Definition validate (target_date : calendar_date) (ticket_count : Z)
    (d : list (string * value)) : option t :=
  key_themes ← field_strs d "key_themes";
  trend_analysis ← field_str d "trend_analysis";
  critical_issues ← field_strs d "critical_issues";
  Some (Make target_date ticket_count key_themes trend_analysis critical_issues).

(** [DailySummary(date=target_date, ticket_count=len(analyses), **data)] *)
Definition init (target_date : calendar_date) (ticket_count : Z) (data : value)
  : result t :=
  init_model "DailySummary" ["date"; "ticket_count"]
    (validate target_date ticket_count) data.
End DailySummary.

Module HealthSnapshot.
Record t : Type := Make {
  overall_health : string;
  ticket_volume_trend : string;
  complaint_rate_trend : string;
  top_3_drivers : list string }.

Definition validate (v : value) : option t :=
  match v with
  | JDict d =>
      overall_health ← field_str d "overall_health";
      ticket_volume_trend ← field_str d "ticket_volume_trend";
      complaint_rate_trend ← field_str d "complaint_rate_trend";
      top_3_drivers ← field_strs d "top_3_drivers";
      Some (Make overall_health ticket_volume_trend complaint_rate_trend top_3_drivers)
  | _ => None
  end.
End HealthSnapshot.

Module KeyInsight.
Record t : Type := Make {
  insight : string;
  severity : string;
  evidence : string;
  customer_impact : string }.

Definition validate (v : value) : option t :=
  match v with
  | JDict d =>
      insight ← field_str d "insight";
      severity ← field_str d "severity";
      evidence ← field_str d "evidence";
      customer_impact ← field_str d "customer_impact";
      Some (Make insight severity evidence customer_impact)
  | _ => None
  end.
End KeyInsight.

Module RecommendedAction.
Record t : Type := Make {
  action : string;
  priority : string;
  estimated_impact : string;
  suggested_owner : string;
  success_metrics : string }.

Definition validate (v : value) : option t :=
  match v with
  | JDict d =>
      action ← field_str d "action";
      priority ← field_str d "priority";
      estimated_impact ← field_str d "estimated_impact";
      suggested_owner ← field_str d "suggested_owner";
      success_metrics ← field_str d "success_metrics";
      Some (Make action priority estimated_impact suggested_owner success_metrics)
  | _ => None
  end.
End RecommendedAction.

Module CustomerVoice.
Record t : Type := Make { quotes : list string }.

Definition validate (v : value) : option t :=
  match v with
  | JDict d => quotes ← field_strs d "quotes"; Some (Make quotes)
  | _ => None
  end.
End CustomerVoice.

Module WeekOverWeekComparison.
Record t : Type := Make {
  improved : list string;
  deteriorated : list string;
  stayed_same : list string }.

Definition validate (v : value) : option t :=
  match v with
  | JDict d =>
      improved ← field_strs d "improved";
      deteriorated ← field_strs d "deteriorated";
      stayed_same ← field_strs d "stayed_same";
      Some (Make improved deteriorated stayed_same)
  | _ => None
  end.
End WeekOverWeekComparison.

Fixpoint validate_all {T : Type} (validate : value → option T) (l : list value)
  : option (list T) :=
  match l with
  | [] => Some []
  | x :: l' =>
      match validate x, validate_all validate l' with
      | Some t, Some ts => Some (t :: ts)
      | _, _ => None
      end
  end.

(** A field that must hold a list of nested models. *)
Definition field_models {T : Type} (validate : value → option T)
    (d : list (string * value)) (k : string) : option (list T) :=
  match Json.dict_get k d with
  | Some (JList l) => validate_all validate l
  | _ => None
  end.

Module Report.
Record t : Type := Make {
  period : string;
  executive_summary : string;
  health_snapshot : HealthSnapshot.t;
  key_insights : list KeyInsight.t;
  recommended_actions : list RecommendedAction.t;
  customer_voice : CustomerVoice.t;
  week_over_week_comparison : WeekOverWeekComparison.t }.

Definition validate (period : string) (d : list (string * value)) : option t :=
  executive_summary ← field_str d "executive_summary";
  health_snapshot ← Json.dict_get "health_snapshot" d ≫= HealthSnapshot.validate;
  key_insights ← field_models KeyInsight.validate d "key_insights";
  recommended_actions ← field_models RecommendedAction.validate d "recommended_actions";
  customer_voice ← Json.dict_get "customer_voice" d ≫= CustomerVoice.validate;
  week_over_week_comparison ←
    Json.dict_get "week_over_week_comparison" d ≫= WeekOverWeekComparison.validate;
  Some (Make period executive_summary health_snapshot key_insights
          recommended_actions customer_voice week_over_week_comparison).

(** [Report(period=..., **data)] *)
Definition init (period : string) (data : value) : result t :=
  init_model "Report" ["period"] (validate period) data.
End Report.

(** ** Library functions kept abstract

    The text these functions print or accept is fixed by Python and
    pydantic, not by the repository; the development holds for every
    choice of them.
    - [py_repr]: [str(x)] for an object that is not a [str];
    - [str_exn]: [str(e)] for an exception;
    - [fromisoformat_date]: [datetime.fromisoformat(s).date()], [None]
      for [ValueError];
    - [model_dump_json] and [model_validate_json] of the three models. *)
Class Runtime : Type := {
  py_repr : value → string;
  str_exn : exn → string;
  fromisoformat_date : string → option date;
  TicketAnalysis_model_dump_json : TicketAnalysis.t → string;
  TicketAnalysis_model_validate_json : string → result TicketAnalysis.t;
  DailySummary_model_dump_json : DailySummary.t → string;
  DailySummary_model_validate_json : string → result DailySummary.t;
  Report_model_dump_json : Report.t → string }.

(** ** Coroutines *)

(** One content block of a response message. *)
Inductive block : Type :=
| TextBlock (text : string)
| OtherBlock.

(** [messages.create(model=..., max_tokens=..., messages=[user prompt])]
    under [asyncio.wait_for(..., timeout)]. *)
Record request : Type := Request_ {
  req_model : string;
  req_max_tokens : Z;
  req_prompt : string;
  req_timeout : Z }.

(** What the awaited request gives: a message, or an exception
    ([TimeoutError] when [wait_for] cuts the request off). *)
Inductive outcome : Type :=
| Responded (content : list block)
| Failed (e : exn).

(** The free monad of the effects of the source.  [Acquire] and [Release]
    are the entry and exit of [async with semaphore]; [Request] and
    [Sleep] are the points where a coroutine is suspended; the file events
    are the [pathlib] calls of [cache.py]; [Today] is [date.today()];
    [Completed] is [completed += 1].  Printing is not modelled. *)
Inductive prog (A : Type) : Type :=
| Ret (a : A)
| Raise (e : exn)
| Acquire (k : prog A)
| Release (k : prog A)
| Request (r : request) (k : outcome → prog A)
| Sleep (secs : Z) (k : prog A)
| Exists (path : string) (k : bool → prog A)
| ReadText (path : string) (k : option string → prog A)
| WriteText (path content : string) (k : prog A)
| Today (k : date → prog A)
| Completed (k : prog A).

Arguments Ret {A} a.
Arguments Raise {A} e.
Arguments Acquire {A} k.
Arguments Release {A} k.
Arguments Request {A} r k.
Arguments Sleep {A} secs k.
Arguments Exists {A} path k.
Arguments ReadText {A} path k.
Arguments WriteText {A} path content k.
Arguments Today {A} k.
Arguments Completed {A} k.

(** Run [p]; continue with [on_ret] after a return and with [on_raise]
    after an exception. *)
Fixpoint handle {A B : Type} (p : prog A) (on_ret : A → prog B)
    (on_raise : exn → prog B) : prog B :=
  match p with
  | Ret a => on_ret a
  | Raise e => on_raise e
  | Acquire k => Acquire (handle k on_ret on_raise)
  | Release k => Release (handle k on_ret on_raise)
  | Request r k => Request r (fun o => handle (k o) on_ret on_raise)
  | Sleep secs k => Sleep secs (handle k on_ret on_raise)
  | Exists path k => Exists path (fun b => handle (k b) on_ret on_raise)
  | ReadText path k => ReadText path (fun t => handle (k t) on_ret on_raise)
  | WriteText path content k => WriteText path content (handle k on_ret on_raise)
  | Today k => Today (fun d => handle (k d) on_ret on_raise)
  | Completed k => Completed (handle k on_ret on_raise)
  end.

Definition bind {A B : Type} (p : prog A) (f : A → prog B) : prog B :=
  handle p f Raise.

(** [try: p except Exception as e: h e] *)
Definition try_catch {A : Type} (p : prog A) (h : exn → prog A) : prog A :=
  handle p Ret h.

(** [async with semaphore: body] *)
Definition async_with_semaphore {A : Type} (body : prog A) : prog A :=
  Acquire (handle body (fun a => Release (Ret a)) (fun e => Release (Raise e))).

Definition lift {A : Type} (r : result A) : prog A :=
  match r with
  | inr a => Ret a
  | inl e => Raise e
  end.

Declare Scope prog_scope.
Delimit Scope prog_scope with prog.
Bind Scope prog_scope with prog.
Notation "x <- p ;; q" := (bind p (fun x => q))
  (at level 100, p at next level, right associativity) : prog_scope.
Notation "p ;; q" := (bind p (fun _ => q))
  (at level 100, right associativity) : prog_scope.

(** ** [cache.py] *)

Definition path_exists (path : string) : prog bool :=
  Exists path (fun b => Ret b).

Definition read_text (path : string) : prog string :=
  ReadText path (fun t =>
    match t with
    | Some text => Ret text
    | None => Raise (FileNotFoundError path)
    end).

Definition write_text (path content : string) : prog unit :=
  WriteText path content (Ret tt).

Module FileCache.

Definition cache_file (cache_dir key : string) : string :=
  cache_dir +:+ "/" +:+ key +:+ ".json".

(** [FileCache.get] *)
Definition get {T : Type} (cache_dir key : string) (loader : string → result T)
  : prog (option T) :=
  (present <- path_exists (cache_file cache_dir key) ;;
   if (present : bool) then
     text <- read_text (cache_file cache_dir key) ;;
     v <- lift (loader text) ;;
     Ret (Some v)
   else Ret None)%prog.

(** [FileCache.save] *)
Definition save {T : Type} (cache_dir key : string) (v : T)
    (serializer : T → string) : prog unit :=
  write_text (cache_file cache_dir key) (serializer v).

(** [FileCache.exists] *)
Definition exists_ (cache_dir key : string) : prog bool :=
  path_exists (cache_file cache_dir key).

End FileCache.

Module DateOrganizedCache.

Definition cache_file (cache_dir key : string) (target_date : date) : string :=
  cache_dir +:+ "/" +:+ PyDate.strftime_Ym target_date +:+ "/" +:+
  PyDate.strftime_d target_date +:+ "/" +:+ key +:+ ".json".

(** [DateOrganizedCache.get_dated] *)
Definition get_dated {T : Type} (cache_dir key : string) (target_date : date)
    (loader : string → result T) : prog (option T) :=
  (present <- path_exists (cache_file cache_dir key target_date) ;;
   if (present : bool) then
     text <- read_text (cache_file cache_dir key target_date) ;;
     v <- lift (loader text) ;;
     Ret (Some v)
   else Ret None)%prog.

(** [DateOrganizedCache.save_dated]; the directories it creates are not
    modelled, a file is its path. *)
Definition save_dated {T : Type} (cache_dir key : string) (target_date : date)
    (v : T) (serializer : T → string) : prog unit :=
  write_text (cache_file cache_dir key target_date) (serializer v).

(** [DateOrganizedCache.exists_dated] *)
Definition exists_dated (cache_dir key : string) (target_date : date) : prog bool :=
  path_exists (cache_file cache_dir key target_date).

End DateOrganizedCache.

(** ** [client.py] *)

Record APIClient : Type := APIClient_ {
  model : string;
  max_retries : Z }.

(** [APIClient()] *)
Definition default_client : APIClient := APIClient_ "claude-haiku-4-5" 3.

(** [await asyncio.wait_for(self.client.messages.create(...), timeout)] *)
Definition create_message (api : APIClient) (prompt : string) (max_tokens timeout : Z)
  : prog (list block) :=
  Request (Request_ (model api) max_tokens prompt timeout) (fun o =>
    match o with
    | Responded content => Ret content
    | Failed e => Raise e
    end).

(** [response.content[0].text.strip()] *)
Definition first_text (content : list block) : result string :=
  match content with
  | [] => inl (IndexError "list index out of range")
  | TextBlock text :: _ => inr (str_of (Text.strip (chars_of text)))
  | OtherBlock :: _ => inl (AttributeError "object has no attribute 'text'")
  end.

(** The body of the [try] of one attempt. *)
Definition attempt_once (api : APIClient) (prompt : string) (max_tokens timeout : Z)
    (semaphore : bool) : prog string :=
  (response <-
     (if semaphore
      then async_with_semaphore (create_message api prompt max_tokens timeout)
      else create_message api prompt max_tokens timeout) ;;
   lift (first_text response))%prog.

(** [range(n)] *)
Definition range (n : Z) : list Z := map Z.of_nat (seq 0 (Z.to_nat n)).

(** The [for attempt in range(self.max_retries)] loop over the attempts
    left.  A loop that ends without [return] gives [None]. *)
Fixpoint call_loop (api : APIClient) (prompt : string) (max_tokens timeout : Z)
    (semaphore : bool) (attempts : list Z) : prog (option string) :=
  match attempts with
  | [] => Ret None
  | attempt :: rest =>
      try_catch
        (text <- attempt_once api prompt max_tokens timeout semaphore ;;
         Ret (Some text))%prog
        (fun e =>
           match e with
           | TimeoutError =>
               if attempt <? max_retries api - 1
               then Sleep (2 ^ attempt)
                      (call_loop api prompt max_tokens timeout semaphore rest)
               else Raise e
           | _ =>
               if attempt <? max_retries api - 1
               then Sleep (2 ^ attempt)
                      (call_loop api prompt max_tokens timeout semaphore rest)
               else Raise e
           end)
  end.

(** [APIClient.call] *)
Definition call (api : APIClient) (prompt : string) (max_tokens timeout : Z)
    (semaphore : bool) : prog (option string) :=
  call_loop api prompt max_tokens timeout semaphore (range (max_retries api)).

Definition default_timeout : Z := 60.

(** The state of the brace-counting scan of [parse_json]. *)
Record scan_state : Type := Scan {
  open_braces : Z;
  open_brackets : Z;
  in_string : bool;
  escape_next : bool }.

(** [content[4:]] when the piece starts with the language tag. *)
Definition without_tag (piece : chars) : chars :=
  if Text.startswith (chars_of "json") piece
     || Text.startswith (chars_of "JSON") piece
  then drop 4 piece else piece.

(** The working text of [parse_json]: the stripped input, or the inside
    of its first code fence without a leading [json] tag. *)
Definition working_text (content : chars) : chars :=
  let content := Text.strip content in
  if Text.startswith (chars_of "```") content then
    let parts := Text.split (chars_of "```") content in
    if (2 <=? length parts)%nat then
      let content := nth 1 parts [] in
      Text.strip (without_tag content)
    else content
  else content.

(** The recovery of [parse_json] calls [json.loads] on the working text
    and on prefixes of it; [json_loads] stands for that decoder, which
    gives the decoded value or nothing, for [json.JSONDecodeError]. *)
Section Recovery.
Context {V : Type} (json_loads : chars → option V).

(** The [for i, char in enumerate(content)] loop from index [i], with the
    characters [todo] still to visit: the first prefix that closes every
    brace and bracket and decodes. *)
Fixpoint scan_with (content : chars) (i : nat) (st : scan_state) (todo : chars)
  : option V :=
  match todo with
  | [] => None
  | char :: todo' =>
      if escape_next st then
        scan_with content (S i)
          (Scan (open_braces st) (open_brackets st) (in_string st) false) todo'
      else if Ascii.eqb char backslash_char && in_string st then
        scan_with content (S i)
          (Scan (open_braces st) (open_brackets st) (in_string st) true) todo'
      else if Ascii.eqb char quote_char && negb (escape_next st) then
        scan_with content (S i)
          (Scan (open_braces st) (open_brackets st) (negb (in_string st))
             (escape_next st)) todo'
      else if negb (in_string st) then
        let st' :=
          if Ascii.eqb char "{" then
            Scan (open_braces st + 1) (open_brackets st) (in_string st) (escape_next st)
          else if Ascii.eqb char "}" then
            Scan (open_braces st - 1) (open_brackets st) (in_string st) (escape_next st)
          else if Ascii.eqb char "[" then
            Scan (open_braces st) (open_brackets st + 1) (in_string st) (escape_next st)
          else if Ascii.eqb char "]" then
            Scan (open_braces st) (open_brackets st - 1) (in_string st) (escape_next st)
          else st in
        if (open_braces st' =? 0) && (open_brackets st' =? 0)
           && (Ascii.eqb char "}" || Ascii.eqb char "]")
        then
          match json_loads (take (S i) content) with
          | Some v => Some v
          | None => scan_with content (S i) st' todo'
          end
        else scan_with content (S i) st' todo'
      else scan_with content (S i) st todo'
  end.

(** [parse_json] after the fence has been removed. *)
Definition recover_with (content : chars) : result V :=
  match json_loads content with
  | Some v => inr v
  | None =>
      let last_brace := Text.rfind "}" content in
      let last_bracket := Text.rfind "]" content in
      let last_close := Z.max last_brace last_bracket in
      match
        (if 0 <? last_close
         then json_loads (take (Z.to_nat (last_close + 1)) content)
         else None)
      with
      | Some v => inr v
      | None =>
          match scan_with content 0 (Scan 0 0 false false) content with
          | Some v => inr v
          | None =>
              inl (JSONDecodeError
                     ("Could not parse JSON. Last 500 chars: "
                      +:+ str_of (Text.last_n 500 content))
                     (str_of content)
                     (Z.of_nat (length content) - 1))
          end
      end
  end.

(** [parse_json] over the decoder [json_loads]. *)
Definition parse_json_with (content : string) : result V :=
  recover_with (working_text (chars_of content)).

End Recovery.

(** The recovery over the decoder of this file. *)
Definition recover : chars → result value := recover_with Json.loads_chars.

(** [parse_json] *)
Definition parse_json (content : string) : result value :=
  parse_json_with Json.loads_chars content.

(** [parse_json(content)] where [content] is what [call] returned:
    [None.strip()] is an [AttributeError]. *)
Definition parse_json_of (content : option string) : result value :=
  match content with
  | Some text => parse_json text
  | None => inl (AttributeError "'NoneType' object has no attribute 'strip'")
  end.

(** ** [prompts.py] *)

(** [EXTRACT_PROMPT.format(ticket_content=...)] *)
Definition EXTRACT_PROMPT_format (ticket_content : string) : string :=
  Text.join newline
    ["Analyze this support ticket:";
     "";
     ""]
  +:+ ticket_content +:+
  Text.join newline
    ["";
     "";
     "Extract JSON with: category, product_area, sentiment, priority, themes (list), summary";
     "";
     "Categories: bug, feature_request, question, complaint";
     "Sentiments: positive, neutral, negative, frustrated";
     "Priorities: low, medium, high, critical";
     "";
     "Return ONLY valid JSON."].

(** [SUMMARIZE_PROMPT.format(...)]: every field arrives already rendered
    by [str]. *)
Definition SUMMARIZE_PROMPT_format
    (ticket_count categories top_themes samples previous_summary : string) : string :=
  Text.join newline
    ["Summarize today's support tickets.";
     "";
     "Stats:";
     "- Total tickets: "]
  +:+ ticket_count
  +:+ Text.join newline
    ["";
     "- Categories: "]
  +:+ categories
  +:+ Text.join newline
    ["";
     "- Top themes: "]
  +:+ top_themes
  +:+ Text.join newline
    ["";
     "";
     "Sample tickets:";
     ""]
  +:+ samples
  +:+ Text.join newline
    ["";
     "";
     "Yesterday's summary: "]
  +:+ previous_summary
  +:+ Text.join newline
    ["";
     "";
     "Generate JSON with:";
     "- key_themes: list of 5 most important themes";
     "- trend_analysis: how this compares to yesterday";
     "- critical_issues: anything requiring immediate attention";
     "";
     "Return ONLY valid JSON."].

(** [REPORT_PROMPT.format(summaries=...)] *)
Definition REPORT_PROMPT_format (summaries : string) : string :=
  Text.join newline
    ["Generate an executive report optimized for product team engagement and action.";
     "";
     "Last 7 days summaries:";
     ""]
  +:+ summaries +:+
  Text.join newline
    ["";
     "";
     "Create a JSON report with the following structure:";
     "";
     "1. executive_summary:";
     "   - Start with the most critical insight (what changed and why it matters)";
     "   - Include key metrics with directional indicators (↑↓)";
     "   - End with business impact (customer satisfaction, revenue risk, brand reputation)";
     "   - Keep to 3-4 sentences max";
     "";
     "2. health_snapshot:";
     ("   - overall_health: " +:+ quote_str +:+ "critical" +:+ quote_str +:+ " | " +:+ quote_str +:+ "concerning" +:+ quote_str +:+ " | " +:+ quote_str +:+ "stable" +:+ quote_str +:+ " | " +:+ quote_str +:+ "improving" +:+ quote_str +:+ " (with brief justification)");
     "   - ticket_volume_trend: numerical change with percentage";
     "   - complaint_rate_trend: numerical change with percentage";
     "   - top_3_drivers: list of issue types driving the most volume";
     "";
     "3. key_insights (5 insights, prioritized by impact):";
     "   For each insight provide:";
     "   - insight: the finding itself";
     ("   - severity: " +:+ quote_str +:+ "critical" +:+ quote_str +:+ " | " +:+ quote_str +:+ "high" +:+ quote_str +:+ " | " +:+ quote_str +:+ "medium" +:+ quote_str +:+ " | " +:+ quote_str +:+ "low" +:+ quote_str);
     "   - evidence: specific data points or patterns supporting this";
     "   - customer_impact: how this affects customer experience";
     "";
     "4. recommended_actions (3-5 actions, prioritized):";
     "   For each action provide:";
     "   - action: specific, actionable task";
     ("   - priority: " +:+ quote_str +:+ "immediate" +:+ quote_str +:+ " | " +:+ quote_str +:+ "this_week" +:+ quote_str +:+ " | " +:+ quote_str +:+ "this_month" +:+ quote_str);
     ("   - estimated_impact: " +:+ quote_str +:+ "high" +:+ quote_str +:+ " | " +:+ quote_str +:+ "medium" +:+ quote_str +:+ " | " +:+ quote_str +:+ "low" +:+ quote_str +:+ " - expected reduction in ticket volume or complaint rate");
     ("   - suggested_owner: which team should own this (e.g., " +:+ quote_str +:+ "Engineering" +:+ quote_str +:+ ", " +:+ quote_str +:+ "Operations" +:+ quote_str +:+ ", " +:+ quote_str +:+ "Product" +:+ quote_str +:+ ", " +:+ quote_str +:+ "Support" +:+ quote_str +:+ ")");
     "   - success_metrics: how to measure if this worked (specific KPIs)";
     "";
     "5. customer_voice:";
     "   - Include 2-3 verbatim ticket quotes or paraphrased examples that illustrate the most critical issues";
     "   - These should be emotionally resonant and help teams understand real customer pain";
     "";
     "6. week_over_week_comparison:";
     "   - Highlight what improved, what deteriorated, and what stayed the same";
     "   - Focus on actionable changes, not just descriptive stats";
     "";
     "Guidelines:";
     ("- Use specific numbers over vague terms (" +:+ quote_str +:+ "42% complaint rate" +:+ quote_str +:+ " not " +:+ quote_str +:+ "high complaints" +:+ quote_str +:+ ")");
     "- Frame insights around customer impact and business risk";
     "- Make actions concrete enough that teams can start immediately";
     "- Prioritize ruthlessly - what matters MOST right now";
     "- Use urgency appropriately (not everything is critical)";
     "";
     "Return ONLY valid JSON."].

(** ** Python values in the normalizers *)

(** Truth value of an object, as [or] tests it. *)
Definition truthy (v : value) : bool :=
  match v with
  | JNull => false
  | JBool b => b
  | JInt n => negb (n =? 0)
  | JFloat x => match x with S754_zero _ => false | _ => true end
  | JStr s => negb (String.eqb s "")
  | JList l => match l with [] => false | _ :: _ => true end
  | JDict d => match d with [] => false | _ :: _ => true end
  end.

(** [a or b] *)
Definition py_or (a b : value) : value := if truthy a then a else b.

(** [d.get(k)] with its [None] default. *)
Definition get (d : list (string * value)) (k : string) : value :=
  match Json.dict_get k d with
  | Some v => v
  | None => JNull
  end.

(** [k in xs] for a list [xs]. *)
Definition list_contains (k : string) (xs : list value) : bool :=
  existsb (fun x => match x with JStr s => String.eqb s k | _ => false end) xs.

(** [collections.Counter(keys)] as the dict it is: first occurrences in
    order, with their counts. *)
Fixpoint counter_add (k : string) (c : list (string * Z)) : list (string * Z) :=
  match c with
  | [] => [(k, 1)]
  | (k', n) :: c' =>
      if String.eqb k' k then (k', n + 1) :: c' else (k', n) :: counter_add k c'
  end.

Definition Counter (keys : list string) : list (string * Z) :=
  fold_left (fun c k => counter_add k c) keys [].

Fixpoint insert_desc (x : string * Z) (l : list (string * Z)) : list (string * Z) :=
  match l with
  | [] => [x]
  | y :: l' => if snd y <=? snd x then x :: l else y :: insert_desc x l'
  end.

(** [c.most_common(n)]: by decreasing count, ties in first-seen order. *)
Definition most_common (n : nat) (c : list (string * Z)) : list (string * Z) :=
  take n (fold_right insert_desc [] c).

(** [dict(counts)] as a Python value. *)
Definition counts_dict (c : list (string * Z)) : value :=
  JDict (Json.dict_of_pairs (map (fun kn => (fst kn, JInt (snd kn))) c)).

Section Values.
Context `{Runtime}.

(** [str(x)] *)
Definition py_str (v : value) : string :=
  match v with
  | JStr s => s
  | _ => py_repr v
  end.

(** [x.get(key) or str(x) if isinstance(x, dict) else str(x)] *)
Definition pick_or_str (key : string) (x : value) : value :=
  match x with
  | JDict d => py_or (get d key) (JStr (py_str x))
  | _ => JStr (py_str x)
  end.

(** [str(x)] when [x] is a list or a dict, else [x]. *)
Definition str_if_container (x : value) : value :=
  match x with
  | JList _ | JDict _ => JStr (py_str x)
  | _ => x
  end.

(** [data.copy()] followed by the tests [key in normalized]: a dict goes
    on to [body]; a list is copied and returned unless it contains one of
    the keys, which then indexes the list with a string; anything else has
    no [copy]. *)
Definition normalize_with (keys : list string)
    (body : list (string * value) → list (string * value)) (data : value)
  : result value :=
  match data with
  | JDict d => inr (JDict (body d))
  | JList l =>
      if existsb (fun k => list_contains k l) keys
      then inl (TypeError "list indices must be integers or slices, not str")
      else inr (JList l)
  | _ => inl (AttributeError "object has no attribute 'copy'")
  end.

(** [if key in d: d[key] = f(d[key])] *)
Definition update_present (key : string) (f : value → value)
    (d : list (string * value)) : list (string * value) :=
  match Json.dict_get key d with
  | Some v => Json.dict_set key (f v) d
  | None => d
  end.

End Values.

Module Summarizer_normalize.
Section Fields.
Context `{Runtime}.

Definition trend_analysis (trend : value) : value :=
  match trend with
  | JDict d =>
      py_or (get d "note") (py_or (get d "text") (py_or (get d "analysis")
        (JStr (py_str trend))))
  | JStr _ => trend
  | _ => JStr (py_str trend)
  end.

Definition critical_issue (issue : value) : value :=
  match issue with
  | JDict d =>
      py_or (get d "issue") (py_or (get d "text") (py_or (get d "description")
        (JStr (py_str issue))))
  | _ => JStr (py_str issue)
  end.

Definition critical_issues (issues : value) : value :=
  match issues with
  | JList l => JList (map critical_issue l)
  | _ => issues
  end.

Definition key_themes (themes : value) : value :=
  match themes with
  | JList l => JList (map (pick_or_str "theme") l)
  | _ => themes
  end.

Definition body (d : list (string * value)) : list (string * value) :=
  update_present "key_themes" key_themes
    (update_present "critical_issues" critical_issues
       (update_present "trend_analysis" trend_analysis d)).

End Fields.
End Summarizer_normalize.

(** [Summarizer._normalize] *)
Definition Summarizer_normalize `{Runtime} (data : value) : result value :=
  normalize_with ["trend_analysis"; "critical_issues"; "key_themes"]
    Summarizer_normalize.body data.

Module Reporter_normalize.
Section Fields.
Context `{Runtime}.

Definition executive_summary (summary : value) : value :=
  match summary with
  | JDict d =>
      py_or (get d "summary") (py_or (get d "text") (py_or (get d "note")
        (JStr (py_str summary))))
  | JStr _ => summary
  | _ => JStr (py_str summary)
  end.

(** [if field in hs and not isinstance(hs[field], str): hs[field] = str(hs[field])] *)
Definition stringify_field (field : string) (hs : list (string * value))
  : list (string * value) :=
  update_present field (fun x => JStr (py_str x)) hs.

(** [if field in d and isinstance(d[field], list): d[field] = [...]] *)
Definition map_list_field (field subkey : string) (d : list (string * value))
  : list (string * value) :=
  update_present field
    (fun x => match x with
              | JList l => JList (map (pick_or_str subkey) l)
              | _ => x
              end) d.

Definition health_snapshot (hs : value) : value :=
  match hs with
  | JDict d =>
      JDict (map_list_field "top_3_drivers" "driver"
               (stringify_field "complaint_rate_trend"
                  (stringify_field "ticket_volume_trend"
                     (stringify_field "overall_health" d))))
  | _ => hs
  end.

Definition key_insight (insight : value) : value :=
  match insight with
  | JDict d =>
      let evidence :=
        str_if_container (py_or (get d "evidence") (py_or (get d "text") (JStr ""))) in
      let customer_impact :=
        str_if_container
          (py_or (get d "customer_impact") (py_or (get d "impact") (JStr ""))) in
      JDict [("insight", py_or (get d "insight") (JStr (py_str insight)));
             ("severity", py_or (get d "severity") (JStr "medium"));
             ("evidence", evidence);
             ("customer_impact", customer_impact)]
  | _ =>
      JDict [("insight", JStr (py_str insight));
             ("severity", JStr "medium");
             ("evidence", JStr "");
             ("customer_impact", JStr "")]
  end.

Definition key_insights (insights : value) : value :=
  match insights with
  | JList l => JList (map key_insight l)
  | _ => insights
  end.

Definition recommended_action (action : value) : value :=
  match action with
  | JDict d =>
      let success_metrics :=
        str_if_container
          (py_or (get d "success_metrics") (py_or (get d "metrics") (JStr ""))) in
      JDict [("action", py_or (get d "action") (JStr (py_str action)));
             ("priority", py_or (get d "priority") (JStr "this_week"));
             ("estimated_impact", py_or (get d "estimated_impact") (JStr "medium"));
             ("suggested_owner",
              py_or (get d "suggested_owner") (py_or (get d "owner") (JStr "")));
             ("success_metrics", success_metrics)]
  | _ =>
      JDict [("action", JStr (py_str action));
             ("priority", JStr "this_week");
             ("estimated_impact", JStr "medium");
             ("suggested_owner", JStr "");
             ("success_metrics", JStr "")]
  end.

Definition recommended_actions (actions : value) : value :=
  match actions with
  | JList l => JList (map recommended_action l)
  | _ => actions
  end.

(** [if field in d and isinstance(d[field], list): d[field] = [...]
     else: d[field] = []] *)
Definition list_field_or_empty (field subkey : string) (d : list (string * value))
  : list (string * value) :=
  match Json.dict_get field d with
  | Some (JList l) => Json.dict_set field (JList (map (pick_or_str subkey) l)) d
  | _ => Json.dict_set field (JList []) d
  end.

Definition customer_voice (cv : value) : value :=
  match cv with
  | JDict d => JDict (list_field_or_empty "quotes" "quote" d)
  | _ => JDict [("quotes", JList [])]
  end.

Definition week_over_week_comparison (wowc : value) : value :=
  match wowc with
  | JDict d =>
      JDict (list_field_or_empty "stayed_same" "item"
               (list_field_or_empty "deteriorated" "item"
                  (list_field_or_empty "improved" "item" d)))
  | _ => wowc
  end.

Definition body (d : list (string * value)) : list (string * value) :=
  update_present "week_over_week_comparison" week_over_week_comparison
    (update_present "customer_voice" customer_voice
       (update_present "recommended_actions" recommended_actions
          (update_present "key_insights" key_insights
             (update_present "health_snapshot" health_snapshot
                (update_present "executive_summary" executive_summary d))))).

End Fields.
End Reporter_normalize.

(** [Reporter._normalize] *)
Definition Reporter_normalize `{Runtime} (data : value) : result value :=
  normalize_with
    ["executive_summary"; "health_snapshot"; "key_insights";
     "recommended_actions"; "customer_voice"; "week_over_week_comparison"]
    Reporter_normalize.body data.

(** ** [orchestrator.py] *)

Module Ticket.
(** A ticket record as [load_tickets] builds it. *)
Record t : Type := Make {
  id : string;
  content : string;
  created_at : string;
  metadata : value }.
End Ticket.

Section Orchestrator.
Context `{Runtime}.

(** *** Layer 1: [Extractor] *)

(** [Extractor.extract_ticket]; [semaphore] tells whether one is passed
    on to [call]. *)
Definition extract_ticket (cache_dir : string) (api : APIClient)
    (ticket_id ticket_content : string) (ticket_date : date) (semaphore : bool)
  : prog TicketAnalysis.t :=
  (present <- DateOrganizedCache.exists_dated cache_dir ticket_id ticket_date ;;
   cached <-
     (if (present : bool)
      then DateOrganizedCache.get_dated cache_dir ticket_id ticket_date
             TicketAnalysis_model_validate_json
      else Ret None) ;;
   match cached with
   | Some analysis => Ret analysis
   | None =>
       let prompt := EXTRACT_PROMPT_format ticket_content in
       content <- call api prompt 1024 default_timeout semaphore ;;
       data <- lift (parse_json_of content) ;;
       analysis <- lift (TicketAnalysis.init ticket_id data) ;;
       DateOrganizedCache.save_dated cache_dir ticket_id ticket_date analysis
         TicketAnalysis_model_dump_json ;;
       Ret analysis
   end)%prog.

(** The date of a ticket: parsed from [created_at], or today. *)
Definition ticket_date_of (ticket : Ticket.t) : prog date :=
  match
    fromisoformat_date
      (str_of (Text.replace_char "Z" (chars_of "+00:00")
                 (chars_of (Ticket.created_at ticket))))
  with
  | Some d => Ret d
  | None => Today (fun d => Ret d)
  end.

(** The analysis that stands in for a ticket whose extraction failed. *)
Definition placeholder (ticket : Ticket.t) (e : exn) : TicketAnalysis.t :=
  TicketAnalysis.Make (Ticket.id ticket) "error" "unknown" "neutral" "low" []
    ("Failed to extract: " +:+ str_exn e).

(** The [try] around [extract_ticket] in [extract_with_progress], for
    any extraction [p]. *)
Definition with_progress (ticket : Ticket.t) (p : prog TicketAnalysis.t)
  : prog TicketAnalysis.t :=
  try_catch (result <- p ;; Completed (Ret result))%prog
    (fun e => Completed (Ret (placeholder ticket e))).

(** [extract_with_progress], the coroutine of one ticket in a batch. *)
Definition extract_with_progress (cache_dir : string) (api : APIClient)
    (ticket : Ticket.t) : prog TicketAnalysis.t :=
  (ticket_date <- ticket_date_of ticket ;;
   with_progress ticket
     (extract_ticket cache_dir api (Ticket.id ticket) (Ticket.content ticket)
        ticket_date true))%prog.

(** The same coroutine without the [try]: what is being protected. *)
Definition extraction (cache_dir : string) (api : APIClient) (ticket : Ticket.t)
  : prog TicketAnalysis.t :=
  (ticket_date <- ticket_date_of ticket ;;
   extract_ticket cache_dir api (Ticket.id ticket) (Ticket.content ticket)
     ticket_date true)%prog.

(** *** Layer 2: [Summarizer] *)

Definition sample_line (a : TicketAnalysis.t) : string :=
  "- [" +:+ TicketAnalysis.priority a +:+ "] " +:+ TicketAnalysis.category a
  +:+ ": " +:+ TicketAnalysis.summary a.

(** The prompt of [summarize_day] once the context of the day before is
    known. *)
Definition summarize_prompt (analyses : list TicketAnalysis.t)
    (previous_summary : string) : string :=
  let categories := Counter (map TicketAnalysis.category analyses) in
  let all_themes := flat_map TicketAnalysis.themes analyses in
  let top_themes := most_common 10 (Counter all_themes) in
  let samples := Text.join newline (map sample_line (take 15 analyses)) in
  SUMMARIZE_PROMPT_format
    (int_str (Z.of_nat (length analyses)))
    (py_str (counts_dict categories))
    (py_str (counts_dict top_themes))
    samples
    previous_summary.

(** [Summarizer.summarize_day] *)
Definition summarize_day (cache_dir : string) (api : APIClient)
    (target_date : date) (analyses : list TicketAnalysis.t)
  : prog DailySummary.t :=
  let date_key := PyDate.isoformat target_date in
  (present <- FileCache.exists_ cache_dir date_key ;;
   cached <-
     (if (present : bool)
      then FileCache.get cache_dir date_key DailySummary_model_validate_json
      else Ret None) ;;
   match cached with
   | Some summary => Ret summary
   | None =>
       yesterday <- lift (PyDate.minus_one_day target_date) ;;
       let yesterday_key := PyDate.isoformat yesterday in
       present' <- FileCache.exists_ cache_dir yesterday_key ;;
       prev <-
         (if (present' : bool)
          then FileCache.get cache_dir yesterday_key DailySummary_model_validate_json
          else Ret None) ;;
       let previous_summary :=
         match prev with
         | Some p => DailySummary.trend_analysis p
         | None => "No previous summary"
         end in
       let prompt := summarize_prompt analyses previous_summary in
       content <- call api prompt 2048 default_timeout false ;;
       data <- lift (parse_json_of content) ;;
       data <- lift (Summarizer_normalize data) ;;
       summary <-
         lift (DailySummary.init target_date (Z.of_nat (length analyses)) data) ;;
       FileCache.save cache_dir date_key summary DailySummary_model_dump_json ;;
       Ret summary
   end)%prog.

(** *** Layer 3: [Reporter] *)

Definition summary_text (s : DailySummary.t) : string :=
  "Date: " +:+ PyDate.isoformat (DailySummary.date s) +:+ newline +:+
  "Tickets: " +:+ int_str (DailySummary.ticket_count s) +:+ newline +:+
  "Themes: " +:+ Text.join ", " (DailySummary.key_themes s) +:+ newline +:+
  "Analysis: " +:+ DailySummary.trend_analysis s.

(** [summaries[0]] and [summaries[-1]] *)
Definition first_and_last (summaries : list DailySummary.t)
  : result (DailySummary.t * DailySummary.t) :=
  match summaries, last summaries with
  | s :: _, Some e => inr (s, e)
  | _, _ => inl (IndexError "list index out of range")
  end.

(** The pure end of [generate_report]: from the parsed response to the
    report. *)
Definition build_report (summaries : list DailySummary.t) (data : value)
  : result Report.t :=
  match Reporter_normalize data with
  | inl e => inl e
  | inr data =>
      match first_and_last summaries with
      | inl e => inl e
      | inr (s, e) =>
          Report.init
            (PyDate.isoformat (DailySummary.date s) +:+ " to "
             +:+ PyDate.isoformat (DailySummary.date e)) data
      end
  end.

(** [Reporter.generate_report] *)
Definition generate_report (cache_dir : string) (api : APIClient)
    (summaries : list DailySummary.t) : prog Report.t :=
  let summaries_text :=
    Text.join (newline +:+ newline) (map summary_text summaries) in
  let prompt := REPORT_PROMPT_format summaries_text in
  (content <- call api prompt 4096 default_timeout false ;;
   data <- lift (parse_json_of content) ;;
   report <- lift (build_report summaries data) ;;
   bounds <- lift (first_and_last summaries) ;;
   let report_key :=
     "report_" +:+ PyDate.isoformat (DailySummary.date (fst bounds)) +:+ "_"
     +:+ PyDate.isoformat (DailySummary.date (snd bounds)) in
   FileCache.save cache_dir report_key report Report_model_dump_json ;;
   Ret report)%prog.

End Orchestrator.

(** ** Running one coroutine alone *)

(** What happened, in order. *)
Inductive event : Type :=
| EvRequest (r : request)
| EvSleep (secs : Z).

(** The cache files, the value of the semaphore, the date of the clock,
    the number of requests answered and the events so far. *)
Record world : Type := World {
  w_files : gmap string string;
  w_semaphore : Z;
  w_today : date;
  w_served : nat;
  w_trace : list event }.

Inductive run_result (A : Type) : Type :=
| Returned (a : A)
| Raised (e : exn)
| Blocked.

Arguments Returned {A} a.
Arguments Raised {A} e.
Arguments Blocked {A}.

(** The inference service answers the [n]-th request of a run. *)
Definition service_t : Type := nat → request → outcome.

(** A coroutine run to its end with nothing else running.  [Acquire] on a
    semaphore at zero never comes back. *)
Fixpoint run {A : Type} (service : service_t) (p : prog A) (w : world)
  : run_result A * world :=
  match p with
  | Ret a => (Returned a, w)
  | Raise e => (Raised e, w)
  | Acquire k =>
      if 0 <? w_semaphore w
      then run service k
             (World (w_files w) (w_semaphore w - 1) (w_today w) (w_served w) (w_trace w))
      else (Blocked, w)
  | Release k =>
      run service k
        (World (w_files w) (w_semaphore w + 1) (w_today w) (w_served w) (w_trace w))
  | Request r k =>
      run service (k (service (w_served w) r))
        (World (w_files w) (w_semaphore w) (w_today w) (S (w_served w))
           (w_trace w ++ [EvRequest r]))
  | Sleep secs k =>
      run service k
        (World (w_files w) (w_semaphore w) (w_today w) (w_served w)
           (w_trace w ++ [EvSleep secs]))
  | Exists path k =>
      run service (k (bool_decide (is_Some (w_files w !! path)))) w
  | ReadText path k => run service (k (w_files w !! path)) w
  | WriteText path content k =>
      run service k
        (World (<[path := content]> (w_files w)) (w_semaphore w) (w_today w)
           (w_served w) (w_trace w))
  | Today k => run service (k (w_today w)) w
  | Completed k => run service k w
  end.

(** The prompts sent, in order. *)
Definition prompts_of (trace : list event) : list string :=
  flat_map (fun ev => match ev with
                       | EvRequest r => [req_prompt r]
                       | EvSleep _ => []
                       end) trace.

(** ** Running a batch of coroutines *)

(** A coroutine of a batch is running, or suspended on a request in
    flight. *)
Inductive thread (A : Type) : Type :=
| Running (p : prog A)
| InFlight (r : request) (k : outcome → prog A).

Arguments Running {A} p.
Arguments InFlight {A} r k.

Record pool (A : Type) : Type := Pool {
  threads : list (thread A);
  semaphore_value : Z;
  files : gmap string string;
  completed : Z;
  today : date }.

Arguments Pool {A} threads semaphore_value files completed today.
Arguments threads {A} p.
Arguments semaphore_value {A} p.
Arguments files {A} p.
Arguments completed {A} p.
Arguments today {A} p.

(** One step of one coroutine of the batch.  The event loop may resume
    any coroutine that can move; a request in flight may come back with
    any outcome. *)
Inductive step {A : Type} : pool A → pool A → Prop :=
| step_acquire ts sem fs n d i k :
    ts !! i = Some (Running (Acquire k)) → 0 < sem →
    step (Pool ts sem fs n d) (Pool (<[i := Running k]> ts) (sem - 1) fs n d)
| step_release ts sem fs n d i k :
    ts !! i = Some (Running (Release k)) →
    step (Pool ts sem fs n d) (Pool (<[i := Running k]> ts) (sem + 1) fs n d)
| step_send ts sem fs n d i r k :
    ts !! i = Some (Running (Request r k)) →
    step (Pool ts sem fs n d) (Pool (<[i := InFlight r k]> ts) sem fs n d)
| step_receive ts sem fs n d i r k o :
    ts !! i = Some (InFlight r k) →
    step (Pool ts sem fs n d) (Pool (<[i := Running (k o)]> ts) sem fs n d)
| step_sleep ts sem fs n d i secs k :
    ts !! i = Some (Running (Sleep secs k)) →
    step (Pool ts sem fs n d) (Pool (<[i := Running k]> ts) sem fs n d)
| step_exists ts sem fs n d i path k :
    ts !! i = Some (Running (Exists path k)) →
    step (Pool ts sem fs n d)
      (Pool (<[i := Running (k (bool_decide (is_Some (fs !! path))))]> ts) sem fs n d)
| step_read ts sem fs n d i path k :
    ts !! i = Some (Running (ReadText path k)) →
    step (Pool ts sem fs n d) (Pool (<[i := Running (k (fs !! path))]> ts) sem fs n d)
| step_write ts sem fs n d i path content k :
    ts !! i = Some (Running (WriteText path content k)) →
    step (Pool ts sem fs n d)
      (Pool (<[i := Running k]> ts) sem (<[path := content]> fs) n d)
| step_today ts sem fs n d i k :
    ts !! i = Some (Running (Today k)) →
    step (Pool ts sem fs n d) (Pool (<[i := Running (k d)]> ts) sem fs n d)
| step_completed ts sem fs n d i k :
    ts !! i = Some (Running (Completed k)) →
    step (Pool ts sem fs n d) (Pool (<[i := Running k]> ts) sem fs (n + 1) d).

(** Any number of steps. *)
Inductive steps {A : Type} : pool A → pool A → Prop :=
| steps_refl c : steps c c
| steps_step c1 c2 c3 : steps c1 c2 → step c2 c3 → steps c1 c3.

(** How a coroutine ended, if it has. *)
Definition ended {A : Type} (t : thread A) : option (result A) :=
  match t with
  | Running (Ret a) => Some (inr a)
  | Running (Raise e) => Some (inl e)
  | _ => None
  end.

(** Every coroutine has ended. *)
Definition finished {A : Type} (c : pool A) : Prop :=
  Forall (fun t => is_Some (ended t)) (threads c).

(** What [asyncio.gather] returns when every coroutine returned: the
    results in the order of the coroutines. *)
Fixpoint gathered {A : Type} (ts : list (thread A)) : option (list A) :=
  match ts with
  | [] => Some []
  | Running (Ret a) :: ts' =>
      match gathered ts' with Some rs => Some (a :: rs) | None => None end
  | _ :: _ => None
  end.

(** The requests in flight. *)
Fixpoint count_in_flight {A : Type} (ts : list (thread A)) : Z :=
  match ts with
  | [] => 0
  | InFlight _ _ :: ts' => 1 + count_in_flight ts'
  | Running _ :: ts' => count_in_flight ts'
  end.

Definition in_flight {A : Type} (c : pool A) : Z := count_in_flight (threads c).

Section Batch.
Context `{Runtime}.

(** [Extractor.extract_batch] up to [asyncio.gather]: the semaphore is
    created, which refuses a negative value, and one coroutine per ticket
    is handed to the event loop, in the order of the tickets. *)
Definition extract_batch (cache_dir : string) (api : APIClient)
    (tickets : list Ticket.t) (max_concurrent : Z)
    (fs : gmap string string) (clock : date) : result (pool TicketAnalysis.t) :=
  if max_concurrent <? 0
  then inl (ValueError "Semaphore initial value must be >= 0")
  else inr (Pool (map (fun t => Running (extract_with_progress cache_dir api t)) tickets)
              max_concurrent fs 0 clock).

(** The batch of the unprotected extractions, for comparison. *)
Definition extraction_batch (cache_dir : string) (api : APIClient)
    (tickets : list Ticket.t) (max_concurrent : Z)
    (fs : gmap string string) (clock : date) : pool TicketAnalysis.t :=
  Pool (map (fun t => Running (extraction cache_dir api t)) tickets)
    max_concurrent fs 0 clock.

End Batch.

(** ** Notions used in the statements *)

Module JsonSpec.
Import Json.

(** What may follow a value for the decoder to stop there: no digit and no
    start of a fraction or an exponent. *)
Definition delim (rest : chars) : bool :=
  match rest with
  | [] => true
  | c :: _ =>
      negb (is_digit c)
      && negb (Ascii.eqb c "." || Ascii.eqb c "e" || Ascii.eqb c "E")
  end.

(** The first character of an encoding is no whitespace, closes no
    container and opens no code fence. *)
Definition value_start (c : ascii) : bool :=
  negb (is_ws c) && negb (Ascii.eqb c "]") && negb (Ascii.eqb c "}")
  && negb (Text.isspace c) && negb (Ascii.eqb c "`").

(** The statement proved by induction: with fuel above twice the length
    of the text, the decoder reads back an encoded value and stops at a
    delimiter. *)
Definition reads_back (v : value) : Prop :=
  well_formed v = true →
  ∀ (fuel : nat) (rest : chars),
    (2 * length (dumps_chars v ++ rest) < fuel)%nat →
    delim rest = true →
    parse_value fuel (dumps_chars v ++ rest) = Some (v, rest).

(** One member of an encoded dict. *)
Definition dump_member (kv : string * value) : chars :=
  dump_string kv.1 ++ chars_of ": " ++ dumps_chars kv.2.

End JsonSpec.

(** The fenced example of the specification. *)
Definition fenced_example : string :=
  "```json" +:+ newline +:+ "{" +:+ quote_str +:+ "a" +:+ quote_str +:+ ":1}"
  +:+ newline +:+ "```".


(** What one attempt of [call] gives once its request has come back. *)
Definition attempt_result (o : outcome) : result string :=
  match o with
  | Responded content => first_text content
  | Failed e => inl e
  end.

(** The events of [k] attempts from attempt number [attempt] on: [k]
    requests, and between one attempt and the next a sleep of
    [2 ^ attempt] seconds. *)
Fixpoint attempts_trace (r : request) (attempt : Z) (k : nat) : list event :=
  match k with
  | O => []
  | S k' =>
      match k' with
      | O => [EvRequest r]
      | S _ => EvRequest r :: EvSleep (2 ^ attempt) :: attempts_trace r (attempt + 1) k'
      end
  end.

(** ** A reference runtime

    One choice of the library functions, to run the model on examples:
    Python's [repr] on the values of the model, the message of an
    exception, ISO dates, and the models encoded as JSON without the
    indentation that pydantic adds. *)
Module Reference.

Definition hex2 (n : nat) : chars :=
  [Json.hex_digit (n / 16); Json.hex_digit (n mod 16)].

(** [repr] of one character of a [str] quoted with [quote]. *)
Definition repr_char (quote : ascii) (c : ascii) : chars :=
  let n := nat_of_ascii c in
  if Ascii.eqb c backslash_char then [backslash_char; backslash_char]
  else if Ascii.eqb c quote then [backslash_char; quote]
  else if Ascii.eqb c "010" then [backslash_char; "n"%char]
  else if Ascii.eqb c "013" then [backslash_char; "r"%char]
  else if Ascii.eqb c "009" then [backslash_char; "t"%char]
  else if ((n <? 32) || ((127 <=? n) && (n <=? 160)) || (n =? 173))%nat
       then backslash_char :: "x"%char :: hex2 n
  else [c].

(** [repr(s)]: single quotes, unless [s] has a single quote and no double
    quote. *)
Definition repr_str (s : string) : chars :=
  let cs := chars_of s in
  let quote :=
    if existsb (Ascii.eqb "'") cs && negb (existsb (Ascii.eqb quote_char) cs)
    then quote_char else "'"%char in
  quote :: flat_map (repr_char quote) cs ++ [quote].

Fixpoint repr_chars (v : value) : chars :=
  match v with
  | JNull => chars_of "None"
  | JBool true => chars_of "True"
  | JBool false => chars_of "False"
  | JInt n => Json.int_chars n
  | JFloat x => Json.float_repr x
  | JStr s => repr_str s
  | JList l =>
      "["%char :: Json.join_chars (chars_of ", ") (map repr_chars l) ++ ["]"%char]
  | JDict d =>
      "{"%char ::
      Json.join_chars (chars_of ", ")
        ((fix members (d : list (string * value)) : list chars :=
            match d with
            | [] => []
            | (k, x) :: d' =>
                (repr_str k ++ chars_of ": " ++ repr_chars x) :: members d'
            end) d)
      ++ ["}"%char]
  end.

Definition repr (v : value) : string := str_of (repr_chars v).

Definition message (e : exn) : string :=
  match e with
  | TimeoutError => ""
  | APIError detail => detail
  | JSONDecodeError msg _ pos => msg +:+ ": (char " +:+ int_str pos +:+ ")"
  | ValidationError model => "validation error for " +:+ model
  | TypeError msg | AttributeError msg | ValueError msg
  | IndexError msg | OverflowError msg => msg
  | FileNotFoundError path => "No such file or directory: " +:+ repr (JStr path)
  end.

Definition digits_value (cs : chars) : option Z :=
  if forallb Json.is_digit cs
  then Some (fold_left (fun n c => 10 * n + Z.of_nat (nat_of_ascii c - 48)) cs 0)
  else None.

(** A date [YYYY-MM-DD], alone or followed by [T] or a space and a time
    that is not looked at. *)
Definition date_of_iso (s : string) : option date :=
  match chars_of s with
  | y1 :: y2 :: y3 :: y4 :: s1 :: m1 :: m2 :: s2 :: n1 :: n2 :: rest =>
      match digits_value [y1; y2; y3; y4], digits_value [m1; m2],
            digits_value [n1; n2] with
      | Some y, Some m, Some d =>
          let ok_rest :=
            match rest with
            | [] => true
            | c :: _ => Ascii.eqb c "T" || Ascii.eqb c " "
            end in
          if Ascii.eqb s1 "-" && Ascii.eqb s2 "-" && ok_rest
             && PyDate.valid (Date y m d)
          then Some (Date y m d) else None
      | _, _, _ => None
      end
  | _ => None
  end.

Definition strs_value (l : list string) : value := JList (map JStr l).

Definition analysis_value (a : TicketAnalysis.t) : value :=
  JDict [("ticket_id", JStr (TicketAnalysis.ticket_id a));
         ("category", JStr (TicketAnalysis.category a));
         ("product_area", JStr (TicketAnalysis.product_area a));
         ("sentiment", JStr (TicketAnalysis.sentiment a));
         ("priority", JStr (TicketAnalysis.priority a));
         ("themes", strs_value (TicketAnalysis.themes a));
         ("summary", JStr (TicketAnalysis.summary a))].

Definition dump_analysis (a : TicketAnalysis.t) : string :=
  Json.dumps (analysis_value a).

Definition load_analysis (text : string) : result TicketAnalysis.t :=
  match Json.loads text with
  | Some (JDict d) =>
      match field_str d "ticket_id" with
      | Some ticket_id =>
          match TicketAnalysis.validate ticket_id d with
          | Some a => inr a
          | None => inl (ValidationError "TicketAnalysis")
          end
      | None => inl (ValidationError "TicketAnalysis")
      end
  | _ => inl (ValidationError "TicketAnalysis")
  end.

Definition summary_value (s : DailySummary.t) : value :=
  JDict [("date", JStr (PyDate.isoformat (DailySummary.date s)));
         ("ticket_count", JInt (DailySummary.ticket_count s));
         ("key_themes", strs_value (DailySummary.key_themes s));
         ("trend_analysis", JStr (DailySummary.trend_analysis s));
         ("critical_issues", strs_value (DailySummary.critical_issues s))].

Definition dump_summary (s : DailySummary.t) : string :=
  Json.dumps (summary_value s).

Definition load_summary (text : string) : result DailySummary.t :=
  match Json.loads text with
  | Some (JDict d) =>
      match field_str d "date" ≫= date_of_iso, Json.dict_get "ticket_count" d with
      | Some day, Some (JInt n) =>
          match DailySummary.validate day n d with
          | Some s => inr s
          | None => inl (ValidationError "DailySummary")
          end
      | _, _ => inl (ValidationError "DailySummary")
      end
  | _ => inl (ValidationError "DailySummary")
  end.

Definition insight_value (i : KeyInsight.t) : value :=
  JDict [("insight", JStr (KeyInsight.insight i));
         ("severity", JStr (KeyInsight.severity i));
         ("evidence", JStr (KeyInsight.evidence i));
         ("customer_impact", JStr (KeyInsight.customer_impact i))].

Definition action_value (a : RecommendedAction.t) : value :=
  JDict [("action", JStr (RecommendedAction.action a));
         ("priority", JStr (RecommendedAction.priority a));
         ("estimated_impact", JStr (RecommendedAction.estimated_impact a));
         ("suggested_owner", JStr (RecommendedAction.suggested_owner a));
         ("success_metrics", JStr (RecommendedAction.success_metrics a))].

Definition report_value (r : Report.t) : value :=
  let hs := Report.health_snapshot r in
  let wowc := Report.week_over_week_comparison r in
  JDict [("period", JStr (Report.period r));
         ("executive_summary", JStr (Report.executive_summary r));
         ("health_snapshot",
          JDict [("overall_health", JStr (HealthSnapshot.overall_health hs));
                 ("ticket_volume_trend", JStr (HealthSnapshot.ticket_volume_trend hs));
                 ("complaint_rate_trend", JStr (HealthSnapshot.complaint_rate_trend hs));
                 ("top_3_drivers", strs_value (HealthSnapshot.top_3_drivers hs))]);
         ("key_insights", JList (map insight_value (Report.key_insights r)));
         ("recommended_actions",
          JList (map action_value (Report.recommended_actions r)));
         ("customer_voice",
          JDict [("quotes", strs_value (CustomerVoice.quotes (Report.customer_voice r)))]);
         ("week_over_week_comparison",
          JDict [("improved", strs_value (WeekOverWeekComparison.improved wowc));
                 ("deteriorated", strs_value (WeekOverWeekComparison.deteriorated wowc));
                 ("stayed_same", strs_value (WeekOverWeekComparison.stayed_same wowc))])].

Definition dump_report (r : Report.t) : string := Json.dumps (report_value r).

Definition runtime : Runtime := {|
  py_repr := repr;
  str_exn := message;
  fromisoformat_date := date_of_iso;
  TicketAnalysis_model_dump_json := dump_analysis;
  TicketAnalysis_model_validate_json := load_analysis;
  DailySummary_model_dump_json := dump_summary;
  DailySummary_model_validate_json := load_summary;
  Report_model_dump_json := dump_report |}.

End Reference.

(** ** Sample data *)

Module Sample.

(** A service that fails every request, and one that answers every
    request with the same text. *)
Definition failing : service_t :=
  fun n _ => Failed (APIError ("failure " +:+ int_str (Z.of_nat n))).

Definition answering (text : string) : service_t :=
  fun _ _ => Responded [TextBlock text].

Definition clock : date := Date 2024 3 1.

(** A world with the given cache files and a free semaphore. *)
Definition world_with (fs : gmap string string) : world := World fs 10 clock 0 [].

Definition analysis : TicketAnalysis.t :=
  TicketAnalysis.Make "ticket_7" "bug" "checkout" "negative" "high"
    ["payment"; "timeout"] "Payment page times out".

Definition summary_of (d : date) (trend : string) : DailySummary.t :=
  DailySummary.Make d 12 ["payment"] trend ["checkout outage"].

Definition ticket (n : Z) (created_at : string) : Ticket.t :=
  Ticket.Make ("ticket_" +:+ int_str n) "The payment page times out" created_at
    (JDict []).

(** Ten tickets of one day. *)
Definition tickets : list Ticket.t :=
  map (fun n => ticket n "2024-03-01T09:30:00Z") [0; 1; 2; 3; 4; 5; 6; 7; 8; 9].

End Sample.

(** The previous-summary context that [summarize_day] takes from the
    cache for the day [yesterday]; a cached file that does not decode
    gives the exception of the decoder instead. *)
Definition previous_context `{Runtime} (cache_dir : string)
    (fs : gmap string string) (yesterday : date) : result string :=
  match fs !! FileCache.cache_file cache_dir (PyDate.isoformat yesterday) with
  | None => inr "No previous summary"
  | Some text =>
      match DailySummary_model_validate_json text with
      | inr s => inr (DailySummary.trend_analysis s)
      | inl e => inl e
      end
  end.

(** [part in s] for two strings. *)
Definition includes (s part : string) : Prop :=
  ∃ pre post, s = pre +:+ part +:+ post.

(** [summarize_day], run in [w], sends the summarize prompt built on the
    context [ctx] and nothing else: some number [k] of copies of it, at
    least one when the summary of the day is not cached and the client
    makes an attempt. *)
Definition sends_summarize_prompt `{Runtime} (service : service_t)
    (cache_dir : string) (api : APIClient) (target_date : date)
    (analyses : list TicketAnalysis.t) (w : world) (ctx : string) : Prop :=
  ∃ (k : nat) (result : run_result DailySummary.t) (w' : world),
    run service (summarize_day cache_dir api target_date analyses) w = (result, w')
    ∧ prompts_of (w_trace w')
      = prompts_of (w_trace w) ++ replicate k (summarize_prompt analyses ctx)
    ∧ includes (summarize_prompt analyses ctx) ("Yesterday's summary: " +:+ ctx)
    ∧ (w_files w !! FileCache.cache_file cache_dir (PyDate.isoformat target_date)
       = None → 0 < max_retries api → (0 < k)%nat).

(** The rule of [Reporter._normalize] for the field [key]. *)
Definition report_field_rule `{Runtime} (key : string) : value → value :=
  if String.eqb "executive_summary" key then Reporter_normalize.executive_summary
  else if String.eqb "health_snapshot" key then Reporter_normalize.health_snapshot
  else if String.eqb "key_insights" key then Reporter_normalize.key_insights
  else if String.eqb "recommended_actions" key
       then Reporter_normalize.recommended_actions
  else if String.eqb "customer_voice" key then Reporter_normalize.customer_voice
  else if String.eqb "week_over_week_comparison" key
       then Reporter_normalize.week_over_week_comparison
  else fun x => x.

(** What [list_field_or_empty] leaves in a field: the list with every
    element picked or stringified, or the empty list. *)
Definition list_or_empty `{Runtime} (subkey : string) (x : option value) : value :=
  match x with
  | Some (JList l) => JList (map (pick_or_str subkey) l)
  | _ => JList []
  end.

(** The fields a [Report] takes from the parsed response. *)
Definition report_fields : list string :=
  ["executive_summary"; "health_snapshot"; "key_insights";
   "recommended_actions"; "customer_voice"; "week_over_week_comparison"].

(** ** Notions used for a batch *)

(** The discipline of the semaphore in a coroutine that starts with the
    semaphore [held] or not and ends with it [held_after] or not: it
    acquires only what it does not hold, releases only what it holds, and
    sends a request only while it holds the semaphore. *)
Fixpoint disciplined {A : Type} (held held_after : bool) (p : prog A) : Prop :=
  match p with
  | Ret _ | Raise _ => held = held_after
  | Acquire k => held = false ∧ disciplined true held_after k
  | Release k => held = true ∧ disciplined false held_after k
  | Request _ k => held = true ∧ ∀ o, disciplined true held_after (k o)
  | Sleep _ k | WriteText _ _ k | Completed k => disciplined held held_after k
  | Exists _ k => ∀ b, disciplined held held_after (k b)
  | ReadText _ k => ∀ t, disciplined held held_after (k t)
  | Today k => ∀ d, disciplined held held_after (k d)
  end.

(** A coroutine of a batch that holds the semaphore or not, and will
    have given it back when it ends. *)
Definition thread_disciplined {A : Type} (held : bool) (t : thread A) : Prop :=
  match t with
  | Running p => disciplined held false p
  | InFlight _ k => held = true ∧ ∀ o, disciplined true false (k o)
  end.

Fixpoint count_held (hs : list bool) : Z :=
  match hs with
  | [] => 0
  | true :: hs' => 1 + count_held hs'
  | false :: hs' => count_held hs'
  end.

(** The invariant of a batch under a semaphore of [capacity]: the value
    of the semaphore and the coroutines that hold it add up to the
    capacity. *)
Definition semaphore_invariant {A : Type} (capacity : Z) (c : pool A) : Prop :=
  ∃ hs : list bool,
    Forall2 thread_disciplined hs (threads c)
    ∧ 0 ≤ semaphore_value c
    ∧ semaphore_value c + count_held hs = capacity.

(** One move of one coroutine, whatever the rest of the batch. *)
Inductive thread_move {A : Type} : thread A → thread A → Prop :=
| move_acquire k : thread_move (Running (Acquire k)) (Running k)
| move_release k : thread_move (Running (Release k)) (Running k)
| move_send r k : thread_move (Running (Request r k)) (InFlight r k)
| move_receive r k o : thread_move (InFlight r k) (Running (k o))
| move_sleep secs k : thread_move (Running (Sleep secs k)) (Running k)
| move_exists path k b : thread_move (Running (Exists path k)) (Running (k b))
| move_read path k t : thread_move (Running (ReadText path k)) (Running (k t))
| move_write path content k :
    thread_move (Running (WriteText path content k)) (Running k)
| move_today k d : thread_move (Running (Today k)) (Running (k d))
| move_completed k : thread_move (Running (Completed k)) (Running k).

(** One move of one coroutine of a list. *)
Definition threads_move {A : Type} (ts ts' : list (thread A)) : Prop :=
  ∃ i t t', ts !! i = Some t ∧ thread_move t t' ∧ ts' = <[i := t']> ts.

(** However the coroutine [p] runs among files that satisfy [inv], it
    writes only files that satisfy [inv], and it ends by returning a value
    in [post] or raising an exception in [fails]. *)
Fixpoint yields {A : Type} (inv : string → string → Prop) (post : A → Prop)
    (fails : exn → Prop) (p : prog A) : Prop :=
  match p with
  | Ret a => post a
  | Raise e => fails e
  | Acquire k | Release k | Sleep _ k | Completed k => yields inv post fails k
  | Request _ k => ∀ o, yields inv post fails (k o)
  | Exists _ k => ∀ b, yields inv post fails (k b)
  | ReadText path k =>
      yields inv post fails (k None)
      ∧ ∀ text, inv path text → yields inv post fails (k (Some text))
  | WriteText path content k => inv path content ∧ yields inv post fails k
  | Today k => ∀ d, yields inv post fails (k d)
  end.

Definition thread_yields {A : Type} (inv : string → string → Prop)
    (post : A → Prop) (fails : exn → Prop) (t : thread A) : Prop :=
  match t with
  | Running p => yields inv post fails p
  | InFlight _ k => ∀ o, yields inv post fails (k o)
  end.

Section BatchNotions.
Context `{Runtime}.

(** A cache file of analyses is consistent when, under whatever key and
    date it is the file of, what it decodes to carries that key as its
    ticket id. *)
Definition analysis_file_ok (cache_dir path text : string) : Prop :=
  ∀ key d a,
    path = DateOrganizedCache.cache_file cache_dir key d →
    TicketAnalysis_model_validate_json text = inr a →
    TicketAnalysis.ticket_id a = key.

Definition cache_consistent (cache_dir : string) (fs : gmap string string) : Prop :=
  ∀ path text, fs !! path = Some text → analysis_file_ok cache_dir path text.

(** Decoding an encoded analysis keeps its ticket id. *)
Definition codec_keeps_ticket_id : Prop :=
  ∀ a a',
    TicketAnalysis_model_validate_json (TicketAnalysis_model_dump_json a) = inr a' →
    TicketAnalysis.ticket_id a' = TicketAnalysis.ticket_id a.

(** The coroutine of a ticket in the batch, on the right, against its
    unprotected extraction, on the left: the same coroutine under the
    [try] of [extract_with_progress], or its end, where a return is passed
    on and an exception has become the placeholder. *)
Inductive protects (ticket : Ticket.t)
  : thread TicketAnalysis.t → thread TicketAnalysis.t → Prop :=
| protects_running p :
    protects ticket (Running p) (Running (with_progress ticket p))
| protects_in_flight r k :
    protects ticket (InFlight r k)
      (InFlight r (fun o => with_progress ticket (k o)))
| protects_returned a :
    protects ticket (Running (Ret a)) (Running (Ret a))
| protects_raised e :
    protects ticket (Running (Raise e)) (Running (Ret (placeholder ticket e))).

(** Two batches over the same tickets, coroutine by coroutine, sharing
    the semaphore, the files and the clock. *)
Definition batch_protects (tickets : list Ticket.t)
    (raw protected : pool TicketAnalysis.t) : Prop :=
  semaphore_value raw = semaphore_value protected
  ∧ files raw = files protected
  ∧ today raw = today protected
  ∧ length (threads raw) = length tickets
  ∧ length (threads protected) = length tickets
  ∧ ∀ i ticket, tickets !! i = Some ticket →
      ∃ t t', threads raw !! i = Some t ∧ threads protected !! i = Some t'
              ∧ protects ticket t t'.

End BatchNotions.

(** The invariant of the batch: the cache is consistent and every
    coroutine still yields an analysis of its ticket. *)
Definition keeps_ids `{Runtime} (cache_dir : string) (tickets : list Ticket.t) (c : pool TicketAnalysis.t) : Prop :=
  cache_consistent cache_dir (files c)
  ∧ Forall2 (λ ticket t,
       thread_yields (analysis_file_ok cache_dir)
         (λ a, TicketAnalysis.ticket_id a = Ticket.id ticket) (λ _, False) t)
      tickets (threads c).


(** Every coroutine of the batch ends, when it ends, by returning: none
    lets an exception through to [gather]. *)
Definition all_return {A : Type} (c : pool A) : Prop :=
  Forall (thread_yields (λ _ _, True) (λ _, True) (λ _, False)) (threads c).

(** ** Notions used for the recovery of [parse_json] *)

(** A character that no JSON text starts with: it is no whitespace and
    opens no string, container, number or literal ([null], [true],
    [false], [NaN], [Infinity]). *)
Definition starts_no_value (c : ascii) : bool :=
  negb (Json.is_ws c) && negb (Json.is_digit c)
  && negb (existsb (Ascii.eqb c) (quote_char :: chars_of "[{ntf-NI")).

(** [}] or [\]]. *)
Definition is_closer (c : ascii) : bool := Ascii.eqb c "}" || Ascii.eqb c "]".

(** A list or a dict. *)
Definition is_container (v : value) : bool :=
  match v with
  | JList _ | JDict _ => true
  | _ => false
  end.

(** The exception [parse_json] ends with on the working text [content]. *)
Definition decode_error (content : chars) : exn :=
  JSONDecodeError
    ("Could not parse JSON. Last 500 chars: " +:+ str_of (Text.last_n 500 content))
    (str_of content) (Z.of_nat (length content) - 1).

(** ** Notions used for the normalizers *)

(** [isinstance(v, dict)] *)
Definition is_dict (v : value) : bool :=
  match v with
  | JDict _ => true
  | _ => false
  end.

(** The rule of [Summarizer._normalize] for the field [key]. *)
Definition summary_field_rule `{Runtime} (key : string) : value → value :=
  if String.eqb "trend_analysis" key then Summarizer_normalize.trend_analysis
  else if String.eqb "critical_issues" key
       then Summarizer_normalize.critical_issues
  else if String.eqb "key_themes" key then Summarizer_normalize.key_themes
  else fun x => x.

(** ** Notions used for the progress of a batch *)

(** The progress counter in a coroutine: [owes] tells whether the
    coroutine has its [completed += 1] still to do; it counts itself only
    when it owes it, and ends owing [after_return] when it returns and
    [after_raise] when it raises. *)
Fixpoint counts_once {A : Type} (owes after_return after_raise : bool)
    (p : prog A) : Prop :=
  match p with
  | Ret _ => owes = after_return
  | Raise _ => owes = after_raise
  | Completed k => owes = true ∧ counts_once false after_return after_raise k
  | Acquire k | Release k | Sleep _ k | WriteText _ _ k =>
      counts_once owes after_return after_raise k
  | Request _ k => ∀ o, counts_once owes after_return after_raise (k o)
  | Exists _ k => ∀ b, counts_once owes after_return after_raise (k b)
  | ReadText _ k => ∀ t, counts_once owes after_return after_raise (k t)
  | Today k => ∀ d, counts_once owes after_return after_raise (k d)
  end.

(** A coroutine of a batch that owes its count or not, and will owe
    nothing when it ends. *)
Definition thread_counts_once {A : Type} (owes : bool) (t : thread A) : Prop :=
  match t with
  | Running p => counts_once owes false false p
  | InFlight _ k => ∀ o, counts_once owes false false (k o)
  end.

(** The invariant of the progress counter: the counter and the
    coroutines that still owe their count add up to [total]. *)
Definition progress_invariant {A : Type} (total : Z) (c : pool A) : Prop :=
  ∃ os : list bool,
    Forall2 thread_counts_once os (threads c)
    ∧ completed c + count_held os = total.

(** A coroutine that, among the files [fs], comes to an [async with
    semaphore] before it sends, writes, counts or ends. *)
Fixpoint awaits_semaphore {A : Type} (fs : gmap string string) (p : prog A)
  : Prop :=
  match p with
  | Acquire _ => True
  | Exists path k => awaits_semaphore fs (k (bool_decide (is_Some (fs !! path))))
  | ReadText path k => awaits_semaphore fs (k (fs !! path))
  | Today k => ∀ d, awaits_semaphore fs (k d)
  | _ => False
  end.

(** A batch in which every coroutine waits for a semaphore at zero,
    among the files [fs]. *)
Definition all_await {A : Type} (fs : gmap string string) (c : pool A) : Prop :=
  semaphore_value c = 0 ∧ files c = fs ∧ completed c = 0
  ∧ Forall (fun t => ∃ p, t = Running p ∧ awaits_semaphore fs p) (threads c).

(** ** [pipeline.py] *)

Module Pipeline.

Section Format.
Context `{Runtime}.

(** [_format_value]; the key of a member of a dict is a [str]. *)
Fixpoint _format_value (v : value) : string :=
  match v with
  | JDict d =>
      Text.join "; " (map (fun kv => fst kv +:+ ": " +:+ py_str (snd kv)) d)
  | JList l =>
      let joined :=
        Text.join ", "
          (map (fun i =>
                  match i with
                  | JDict _ | JList _ => _format_value i
                  | _ => py_str i
                  end) l) in
      if String.eqb joined "" then "N/A" else joined
  | _ => str_of (Text.strip (chars_of (py_str v)))
  end.

End Format.

(** [a == b] and [a < b] on dates. *)
Definition date_eqb (a b : date) : bool :=
  (year a =? year b) && (month a =? month b) && (day a =? day b).

Definition date_ltb (a b : date) : bool :=
  (year a <? year b)
  || (year a =? year b)
     && ((month a <? month b) || (month a =? month b) && (day a <? day b)).

(** [by_date.setdefault(ticket_date, []).append(analysis)] on an
    insertion-ordered dict. *)
Fixpoint setdefault_append {A : Type} (ticket_date : date) (analysis : A)
    (by_date : list (date * list A)) : list (date * list A) :=
  match by_date with
  | [] => [(ticket_date, [analysis])]
  | (d, l) :: rest =>
      if date_eqb d ticket_date then (d, l ++ [analysis]) :: rest
      else (d, l) :: setdefault_append ticket_date analysis rest
  end.

(** The loop of [run_pipeline] that fills [by_date], over the analyses
    paired with the dates of their tickets. *)
Definition group_by_date {A : Type} (dated : list (date * A))
  : list (date * list A) :=
  fold_left (fun by_date da => setdefault_append (fst da) (snd da) by_date) dated [].

(** [sorted(by_date.items())]: the keys of a dict are distinct, so the
    items are ordered by their dates alone; the sort is stable. *)
Fixpoint insert_item {A : Type} (x : date * list A) (items : list (date * list A))
  : list (date * list A) :=
  match items with
  | [] => [x]
  | y :: rest =>
      if date_ltb (fst y) (fst x) then y :: insert_item x rest else x :: items
  end.

Definition sorted_items {A : Type} (by_date : list (date * list A))
  : list (date * list A) :=
  fold_right insert_item [] by_date.

(** The days [run_pipeline] summarizes, in order, each with its
    analyses. *)
Definition days_to_summarize {A : Type} (dated : list (date * A))
  : list (date * list A) :=
  sorted_items (group_by_date dated).

(** [start, end = report.period.split(" to ")]: anything but two parts
    is a [ValueError]. *)
Definition period_bounds (period : string) : result (string * string) :=
  match Text.split (chars_of " to ") (chars_of period) with
  | [start; finish] => inr (str_of start, str_of finish)
  | [] | [_] => inl (ValueError "not enough values to unpack (expected 2, got 1)")
  | _ => inl (ValueError "too many values to unpack (expected 2)")
  end.

End Pipeline.

(** The analyses of the day [d] among the dated analyses, in their
    order. *)
Definition analyses_of_day {A : Type} (d : date) (dated : list (date * A)) : list A :=
  map snd (filter (fun da => Pipeline.date_eqb (fst da) d) dated).

(** ** [csv_loader.py] *)

Module CsvLoader.

Section Range.
Context `{Runtime}.

(** The dates [get_date_range] collects from the [ds] cells of the rows,
    each cell given as its [str]: the cells that do not parse are passed
    over. *)
Fixpoint parsed_dates (cells : list string) : list date :=
  match cells with
  | [] => []
  | cell :: rest =>
      match
        fromisoformat_date
          (str_of (Text.replace_char "Z" (chars_of "+00:00") (chars_of cell)))
      with
      | Some d => d :: parsed_dates rest
      | None => parsed_dates rest
      end
  end.

(** [max(dates)] for a non-empty list: the first of the greatest. *)
Definition max_date (first : date) (rest : list date) : date :=
  fold_left (fun best d => if Pipeline.date_ltb best d then d else best) rest first.

(** [get_date_range] after the CSV file has been read. *)
Definition get_date_range (cells : list string) : result (date * date) :=
  match parsed_dates cells with
  | [] => inl (ValueError "No valid dates found in CSV")
  | first :: rest =>
      let latest_date := max_date first rest in
      match PyDate.minus_one_day latest_date with
      | inr previous_date => inr (previous_date, latest_date)
      | inl e => inl e
      end
  end.

End Range.

End CsvLoader.

(** ** Notions used for the counters of [summarize_day] *)

(** The number of occurrences of [k]. *)
Fixpoint occurrences (k : string) (keys : list string) : Z :=
  match keys with
  | [] => 0
  | k' :: rest => (if String.eqb k' k then 1 else 0) + occurrences k rest
  end.

(** The counts of a counter add up to [total]. *)
Definition counts_total (c : list (string * Z)) : Z :=
  fold_right (fun kn acc => snd kn + acc) 0 c.

(** [c[k]] on a counter: zero for a key that is not there. *)
Fixpoint count_of (k : string) (c : list (string * Z)) : Z :=
  match c with
  | [] => 0
  | (k', n) :: rest => if String.eqb k' k then n else count_of k rest
  end.

(** [by_date.get(d)] *)
Fixpoint by_date_get {A : Type} (d : date) (by_date : list (date * list A))
  : option (list A) :=
  match by_date with
  | [] => None
  | (d', l) :: rest => if Pipeline.date_eqb d' d then Some l else by_date_get d rest
  end.

(** * Properties *)

(** ** The JSON codec *)

Module JsonFacts.
Import Json JsonSpec.

Lemma str_of_chars_of (s : string) : str_of (chars_of s) = s.
Proof. apply string_of_list_ascii_of_string. Qed.

Lemma chars_of_str_of (l : chars) : chars_of (str_of l) = l.
Proof. apply list_ascii_of_string_of_list_ascii. Qed.

(** Induction on a value with the hypothesis for every element of a list
    and every member of a dict. *)
Lemma value_nested_ind (P : value → Prop) :
  P JNull → (∀ b, P (JBool b)) → (∀ n, P (JInt n)) → (∀ x, P (JFloat x)) →
  (∀ s, P (JStr s)) →
  (∀ l, Forall P l → P (JList l)) →
  (∀ d, Forall (λ kv, P kv.2) d → P (JDict d)) →
  ∀ v, P v.
Proof.
  intros HN HB HI HF HS HL HD.
  fix IH 1. intros [ | b | n | x | s | l | d].
  - exact HN.
  - apply HB.
  - apply HI.
  - apply HF.
  - apply HS.
  - apply HL. induction l as [|x l IHl]; constructor; [apply IH | exact IHl].
  - apply HD. induction d as [|[k x] d IHd]; constructor; [apply IH | exact IHd].
Qed.

(** *** Strings *)

Lemma parse_string_escape_char (c : ascii) (tail : chars) :
  parse_string (escape_char c ++ tail) = push_char c (parse_string tail).
Proof. destruct c as [[] [] [] [] [] [] [] []]; reflexivity. Qed.

Lemma parse_string_escape (s rest : chars) :
  parse_string (escape s ++ quote_char :: rest) = Some (s, rest).
Proof.
  induction s as [|c s IH]; [reflexivity|].
  unfold escape in *. cbn [flat_map]. rewrite <- app_assoc.
  rewrite parse_string_escape_char, IH. reflexivity.
Qed.

(** *** Numbers *)

(** The head of a text is no digit. *)
Definition no_digit_head (rest : chars) : Prop :=
  match rest with c :: _ => is_digit c = false | [] => True end.

(** A character of a number literal. *)
Definition number_char (c : ascii) : bool :=
  is_digit c || existsb (Ascii.eqb c) (chars_of "-+.eE").

Lemma read_digits_uint_chars (u : Decimal.uint) (rest : chars) :
  no_digit_head rest →
  read_digits (uint_chars u ++ rest) = (u, rest).
Proof.
  intros Hrest.
  induction u as [|u IH|u IH|u IH|u IH|u IH|u IH|u IH|u IH|u IH|u IH];
    try (cbn [uint_chars app read_digits];
         change (is_digit (digit_char _)) with true; cbn iota;
         rewrite IH; reflexivity).
  cbn [uint_chars app]. destruct rest as [|c rest]; [reflexivity|].
  cbn [read_digits]. cbn in Hrest. rewrite Hrest. reflexivity.
Qed.

(** What [read_digits] leaves starts with no digit, and what it read is
    read again before any text that starts with no digit. *)
Lemma read_digits_app (s : chars) (u : Decimal.uint) (r rest : chars) :
  read_digits s = (u, r) → r ≠ [] ∨ no_digit_head rest →
  read_digits (s ++ rest) = (u, r ++ rest).
Proof.
  revert u r. induction s as [|c s IH]; intros u r E Hr.
  - injection E as <- <-. destruct Hr as [|Hr]; [done|].
    destruct rest as [|c rest]; [done|]. cbn in Hr |- *. by rewrite Hr.
  - cbn [read_digits app] in *. destruct (is_digit c).
    + destruct (read_digits s) as [u' r'] eqn:E'. injection E as <- <-.
      by rewrite (IH u' r').
    + by injection E as <- <-.
Qed.

Lemma read_digits_chars (s : chars) (u : Decimal.uint) (r : chars) :
  read_digits s = (u, r) →
  ∃ ds, s = ds ++ r ∧ forallb is_digit ds = true ∧ (u = Nil ↔ ds = []).
Proof.
  revert u r. induction s as [|c s IH]; intros u r E.
  - injection E as <- <-. by exists [].
  - cbn [read_digits] in E. destruct (is_digit c) eqn:Hc.
    + destruct (read_digits s) as [u' r'] eqn:E'. injection E as <- <-.
      destruct (IH u' r' eq_refl) as (ds & -> & Hds & _).
      exists (c :: ds). cbn [forallb app]. rewrite Hc, Hds. split; [done|].
      split; [done|]. unfold digit_cons.
      by destruct (nat_of_ascii c - 48)%nat as [|[|[|[|[|[|[|[|[|]]]]]]]]].
    + injection E as <- <-. by exists [].
Qed.

Lemma plain_digits_unorm (u : Decimal.uint) : plain_digits (unorm u) = true.
Proof.
  unfold unorm. pose proof (nzhead_nonzero u) as Hnz.
  destruct (nzhead u) as [|d|d|d|d|d|d|d|d|d|d]; try reflexivity.
  exfalso. exact (Hnz d eq_refl).
Qed.

Lemma plain_digits_to_int (z : Z) :
  match Z.to_int z with
  | Decimal.Pos u | Decimal.Neg u => plain_digits u = true
  end.
Proof.
  pose proof (DecimalZ.to_of (Z.to_int z)) as H.
  rewrite DecimalZ.of_to in H.
  destruct (Z.to_int z) as [u|u]; cbn [norm] in H.
  - injection H as H. rewrite H. apply plain_digits_unorm.
  - pose proof (nzhead_nonzero u) as Hnz.
    destruct (nzhead u) as [|d|d|d|d|d|d|d|d|d|d] eqn:E;
      try discriminate H; injection H as H; subst u; try reflexivity.
    exfalso. exact (Hnz d eq_refl).
Qed.

Lemma delim_no_digit (rest : chars) : delim rest = true → no_digit_head rest.
Proof.
  destruct rest as [|c rest]; [done|]. cbn [delim no_digit_head].
  intros [H _]%andb_true_iff. by apply negb_true_iff.
Qed.

(** Before a delimiter there is no fraction and no exponent to read. *)
Lemma read_fraction_delim (rest : chars) :
  delim rest = true → read_fraction rest = (None, rest).
Proof.
  destruct rest as [|c rest]; [done|]. cbn [delim read_fraction].
  intros [_ H]%andb_true_iff. apply negb_true_iff in H.
  apply orb_false_iff in H as [[H _]%orb_false_iff _]. by rewrite H.
Qed.

Lemma read_exponent_delim (rest : chars) :
  delim rest = true → read_exponent rest = (None, rest).
Proof.
  destruct rest as [|c rest]; [done|]. cbn [delim read_exponent].
  intros [_ H]%andb_true_iff. apply negb_true_iff in H.
  apply orb_false_iff in H as [[_ H1]%orb_false_iff H2]. by rewrite H1, H2.
Qed.

Lemma uint_chars_head (u : Decimal.uint) :
  plain_digits u = true →
  ∃ c s, uint_chars u = c :: s ∧ is_digit c = true.
Proof.
  destruct u; [discriminate|..]; intros _; eexists _, _; split;
    (reflexivity || (cbn [uint_chars]; reflexivity)).
Qed.

Lemma digit_not_minus (c : ascii) : is_digit c = true → Ascii.eqb c "-" = false.
Proof. destruct c as [[] [] [] [] [] [] [] []]; try reflexivity; discriminate. Qed.

Lemma parse_number_int_chars (z : Z) (rest : chars) :
  delim rest = true →
  parse_number (int_chars z ++ rest) = Some (JInt z, rest).
Proof.
  intros Hd. pose proof (plain_digits_to_int z) as Hp.
  pose proof (DecimalZ.of_to z) as Hz.
  unfold int_chars, parse_number. destruct (Z.to_int z) as [u|u].
  - destruct (uint_chars_head u Hp) as (c & s & E & Hc).
    pose proof (digit_not_minus c Hc) as Hm.
    pose proof (read_digits_uint_chars u rest (delim_no_digit _ Hd)) as Hr.
    rewrite E in *. cbn [app] in *. rewrite Hm, Hr, Hp.
    rewrite (read_fraction_delim _ Hd), (read_exponent_delim _ Hd).
    by rewrite Hz.
  - cbn [app]. change (Ascii.eqb "-" "-") with true. cbn iota.
    rewrite (read_digits_uint_chars u rest (delim_no_digit _ Hd)), Hp.
    rewrite (read_fraction_delim _ Hd), (read_exponent_delim _ Hd).
    by rewrite Hz.
Qed.

(** The decoder takes a text that starts with a digit for a number, and
    so it does a minus sign that a digit follows. *)
Lemma parse_value_digit (fuel : nat) (c : ascii) (s : chars) :
  is_digit c = true →
  parse_value (S fuel) (c :: s) = parse_number (c :: s).
Proof.
  destruct c as [[] [] [] [] [] [] [] []]; try discriminate; reflexivity.
Qed.

Lemma parse_value_minus (fuel : nat) (c : ascii) (s : chars) :
  is_digit c = true →
  parse_value (S fuel) ("-"%char :: c :: s) = parse_number ("-"%char :: c :: s).
Proof.
  destruct c as [[] [] [] [] [] [] [] []]; try discriminate; reflexivity.
Qed.

Lemma int_chars_head (z : Z) :
  ∃ c s, int_chars z = c :: s
         ∧ (is_digit c = true
            ∨ c = "-"%char ∧ ∃ c' s', s = c' :: s' ∧ is_digit c' = true).
Proof.
  pose proof (plain_digits_to_int z) as Hp. unfold int_chars.
  destruct (Z.to_int z) as [u|u]; destruct (uint_chars_head u Hp) as (c & s & E & Hc).
  - exists c, s. split; [done|by left].
  - eexists _, _. split; [done|]. right. split; [done|]. by exists c, s.
Qed.

(** *** The text of a number *)

(** How a number literal that is read to its end is made. *)
Lemma parse_number_inv (t : chars) (v : value) :
  parse_number t = Some (v, []) →
  forallb number_char t = true
  ∧ (∃ c s, t = c :: s
            ∧ (is_digit c = true
               ∨ c = "-"%char ∧ ∃ c' s', s = c' :: s' ∧ is_digit c' = true))
  ∧ ∀ rest, delim rest = true → parse_number (t ++ rest) = Some (v, rest).
Proof.
  unfold parse_number.
  set (sign := match t with
               | c :: s' => if Ascii.eqb c "-" then (true, s') else (false, t)
               | [] => (false, [])
               end).
  destruct sign as [neg body] eqn:Esign.
  destruct (read_digits body) as [u r1] eqn:Eint.
  destruct (plain_digits u) eqn:Hplain; [|done].
  destruct (read_fraction r1) as [frac r2] eqn:Efrac.
  destruct (read_exponent r2) as [exp r3] eqn:Eexp.
  intros Hv.
  assert (r3 = []) as -> by (by destruct frac, exp; injection Hv as _ ->).
  (* the integer part *)
  destruct (read_digits_chars _ _ _ Eint) as (ds & Hbody & Hds & Hnil).
  assert (∃ c ds', ds = c :: ds' ∧ is_digit c = true) as (c0 & ds' & Eds & Hc0).
  { destruct ds as [|c ds'].
    - rewrite (proj2 Hnil eq_refl) in Hplain. discriminate Hplain.
    - cbn [forallb] in Hds. apply andb_true_iff in Hds as [Hc _]. by exists c, ds'. }
  (* the exponent *)
  assert (forallb number_char r2 = true
          ∧ ∀ rest, delim rest = true → read_exponent (r2 ++ rest) = (exp, rest))
    as [Hr2 Hexp].
  { destruct r2 as [|c r2'].
    - injection Eexp as <-. split; [done|]. intros rest Hd.
      by apply read_exponent_delim.
    - cbn [read_exponent] in Eexp.
      destruct (Ascii.eqb c "e" || Ascii.eqb c "E") eqn:He; [|done].
      destruct r2' as [|sg r2''].
      + by cbn in Eexp.
      + set (signed := if Ascii.eqb sg "-" then (true, r2'')
                       else if Ascii.eqb sg "+" then (false, r2'')
                       else (false, sg :: r2'')) in *.
        destruct signed as [eneg r'] eqn:Esigned.
        destruct (read_digits r') as [d rest'] eqn:Ed.
        assert (d ≠ Nil ∧ rest' = [] ∧ exp = Some (Z.of_int (if eneg then Neg d else Pos d)))
          as (Hd & -> & ->).
        { destruct d; try (by injection Eexp as <- <-); done. }
        destruct (read_digits_chars _ _ _ Ed) as (ds2 & Hr' & Hds2 & _).
        rewrite app_nil_r in Hr'. subst r'.
        assert (forallb number_char ds2 = true) as Hnum2.
        { clear -Hds2. induction ds2 as [|x ds2 IH]; [done|].
          cbn [forallb] in *. apply andb_true_iff in Hds2 as [Hx Hds2].
          unfold number_char at 1. by rewrite Hx, IH. }
        split.
        * cbn [forallb]. apply andb_true_iff. split.
          { unfold number_char. cbn [existsb chars_of list_ascii_of_string].
            apply orb_true_iff in He as [-> | ->]; by rewrite ?orb_true_r. }
          unfold signed in Esigned.
          destruct (Ascii.eqb sg "-") eqn:E1;
            [|destruct (Ascii.eqb sg "+") eqn:E2]; injection Esigned as <- <-.
          -- cbn [forallb]. rewrite Hnum2, andb_true_r. unfold number_char.
             cbn [existsb chars_of list_ascii_of_string]. by rewrite E1, orb_true_r.
          -- cbn [forallb]. rewrite Hnum2, andb_true_r. unfold number_char.
             cbn [existsb chars_of list_ascii_of_string]. by rewrite E2, !orb_true_r.
          -- done.
        * intros rest Hrest. cbn [app read_exponent]. rewrite He.
          assert (match
                    (if Ascii.eqb sg "-" then (true, r2'' ++ rest)
                     else if Ascii.eqb sg "+" then (false, r2'' ++ rest)
                     else (false, sg :: r2'' ++ rest))
                  with (n, r) => (n, r) end = (eneg, ds2 ++ rest)) as Eapp.
          { unfold signed in Esigned.
            destruct (Ascii.eqb sg "-"); [|destruct (Ascii.eqb sg "+")];
              by injection Esigned as <- <-. }
          destruct (if Ascii.eqb sg "-" then (true, r2'' ++ rest)
                    else if Ascii.eqb sg "+" then (false, r2'' ++ rest)
                    else (false, sg :: r2'' ++ rest)) as [n r] eqn:En.
          injection Eapp as -> ->.
          rewrite (read_digits_app ds2 d [] rest Ed)
            by (right; by apply delim_no_digit).
          by destruct d. }
  (* the fraction *)
  assert (∃ fs, r1 = fs ++ r2 ∧ forallb number_char fs = true
          ∧ ∀ rest, delim rest = true → r2 ≠ [] ∨ True →
              read_fraction (r1 ++ rest) = (frac, r2 ++ rest))
    as (fs & Hr1 & Hfs & Hfrac).
  { destruct r1 as [|c r1'].
    - injection Efrac as <- <-. exists []. split; [done|]. split; [done|].
      intros rest Hd _. by apply read_fraction_delim.
    - cbn [read_fraction] in Efrac. destruct (Ascii.eqb c ".") eqn:Hdot.
      + destruct (read_digits r1') as [f rest'] eqn:Ef.
        destruct (read_digits_chars _ _ _ Ef) as (ds1 & Hr1' & Hds1 & _).
        assert (f ≠ Nil) as Hf.
        { intros ->. injection Efrac as <- <-.
          cbn [read_exponent] in Eexp.
          apply Ascii.eqb_eq in Hdot as ->. by cbn in Eexp. }
        assert (frac = Some f ∧ r2 = rest') as [-> ->].
        { by destruct f; injection Efrac as <- <-. }
        exists (c :: ds1). rewrite Hr1'. split; [done|]. split.
        * cbn [forallb]. apply andb_true_iff. split.
          { unfold number_char. cbn [existsb chars_of list_ascii_of_string].
            by rewrite Hdot, !orb_true_r. }
          clear -Hds1. induction ds1 as [|x ds1 IH]; [done|].
          cbn [forallb] in *. apply andb_true_iff in Hds1 as [Hx Hds1].
          unfold number_char at 1. by rewrite Hx, IH.
        * intros rest Hd _. cbn [app read_fraction]. rewrite Hdot.
          rewrite <- Hr1'.
          rewrite (read_digits_app r1' f rest' rest Ef).
          -- by destruct f.
          -- destruct rest' as [|x rest']; [right; by apply delim_no_digit|by left].
      + injection Efrac as <- <-. exists []. split; [done|]. split; [done|].
        intros rest Hd _. cbn [app read_fraction]. by rewrite Hdot. }
  assert (forallb number_char ds = true) as Hnum.
  { clear -Hds. induction ds as [|x ds IH]; [done|].
    cbn [forallb] in *. apply andb_true_iff in Hds as [Hx Hds].
    unfold number_char at 1. by rewrite Hx, IH. }
  assert (forallb number_char body = true) as Hbodynum.
  { rewrite Hbody, Hr1, !forallb_app. by rewrite Hnum, Hfs, Hr2. }
  assert (∀ rest, delim rest = true →
            read_digits (body ++ rest) = (u, r1 ++ rest)) as Hint.
  { intros rest Hd. apply read_digits_app; [done|].
    destruct r1; [right; by apply delim_no_digit|by left]. }
  assert (∀ rest, delim rest = true →
            (let '(u, r1) := read_digits (body ++ rest) in
             if plain_digits u
             then
               let '(frac, r2) := read_fraction r1 in
               let '(exp, r3) := read_exponent r2 in
               match frac, exp with
               | None, None =>
                   Some (JInt (Z.of_int (if neg then Neg u else Pos u)), r3)
               | _, _ =>
                   Some (JFloat
                           (float_of_decimal neg
                              (N.of_uint (Decimal.app u (default Nil frac)))
                              (default 0 exp
                               - Z.of_nat (Decimal.nb_digits (default Nil frac)))),
                         r3)
               end
             else None) = Some (v, rest)) as Hgo.
  { intros rest Hd. rewrite (Hint rest Hd), Hplain.
    rewrite (Hfrac rest Hd (or_intror I)), (Hexp rest Hd).
    by destruct frac, exp; injection Hv as <-. }
  subst sign. destruct t as [|c t'].
  - injection Esign as <- <-. by rewrite Eds in Hbody.
  - destruct (Ascii.eqb c "-") eqn:Hm; injection Esign as <- <-.
    + apply Ascii.eqb_eq in Hm as ->. split; [by cbn [forallb]; rewrite Hbodynum|].
      split.
      * eexists _, _. split; [done|]. right. split; [done|].
        exists c0, (ds' ++ r1). by rewrite Hbody, Eds.
      * intros rest Hd. cbn [app]. change (Ascii.eqb "-" "-") with true.
        cbn iota. by apply Hgo.
    + split; [done|]. split.
      * eexists _, _. split; [done|]. left.
        rewrite Hbody, Eds in *. cbn [app] in *. by injection Hbody as -> _.
      * intros rest Hd. cbn [app]. rewrite Hm. by apply (Hgo rest Hd).
Qed.

(** *** Floats *)

Lemma float_same_eq (x y : spec_float) : float_same x y = true → x = y.
Proof.
  destruct x as [s|s| |s m e], y as [s'|s'| |s' m' e']; cbn [float_same];
    try done.
  - by intros ->%Bool.eqb_prop.
  - by intros ->%Bool.eqb_prop.
  - rewrite !andb_true_iff.
    by intros [[->%Bool.eqb_prop ->%Pos.eqb_eq] ->%Z.eqb_eq].
Qed.

(** The literal of a float that reads back. *)
Lemma float_ok_parse (x : spec_float) :
  float_ok x = true →
  match x with
  | S754_nan | S754_infinity _ => True
  | _ => parse_number (float_repr x) = Some (JFloat x, [])
  end.
Proof.
  unfold float_ok. destruct x as [s|s| |s m e]; try done.
  - destruct (parse_number _) as [[[ | | |y| | | ] [|]]|]; try done.
    by intros ->%float_same_eq.
  - destruct (parse_number _) as [[[ | | |y| | | ] [|]]|]; try done.
    by intros ->%float_same_eq.
Qed.

(** The encoding of a float: its first character, its characters, and
    the decoder on it. *)
Lemma float_chars_reads_back (x : spec_float) :
  float_ok x = true →
  (∃ c s, float_chars x = c :: s ∧ value_start c = true)
  ∧ (∃ s c, float_chars x = s ++ [c] ∧ Text.isspace c = false)
  ∧ ∀ fuel rest, delim rest = true →
      parse_value (S fuel) (float_chars x ++ rest) = Some (JFloat x, rest).
Proof.
  intros Hok. pose proof (float_ok_parse x Hok) as Hparse.
  assert (∀ t, parse_number t = Some (JFloat x, []) →
            (∃ c s, t = c :: s ∧ value_start c = true)
            ∧ (∃ s c, t = s ++ [c] ∧ Text.isspace c = false)
            ∧ ∀ fuel rest, delim rest = true →
                parse_value (S fuel) (t ++ rest) = Some (JFloat x, rest)) as Hnum.
  { intros t Ht.
    destruct (parse_number_inv t _ Ht) as (Hchars & (c & s & -> & Hhead) & Happ).
    split; [|split].
    - exists c, s. split; [done|].
      destruct Hhead as [Hc|[-> _]]; [|done].
      destruct c as [[] [] [] [] [] [] [] []]; try reflexivity; discriminate Hc.
    - destruct (exists_last (l := c :: s)) as (s' & c' & E); [done|].
      exists s', c'. split; [done|]. rewrite E, forallb_app in Hchars.
      apply andb_true_iff in Hchars as [_ Hc']. cbn [forallb] in Hc'.
      rewrite andb_true_r in Hc'.
      destruct c' as [[] [] [] [] [] [] [] []]; try reflexivity; discriminate Hc'.
    - intros fuel rest Hd. rewrite <- (Happ rest Hd).
      destruct Hhead as [Hc|[-> (c' & s' & -> & Hc')]].
      + by apply parse_value_digit.
      + by apply parse_value_minus. }
  destruct x as [s|[]| |s m e]; try (by apply Hnum);
    (split; [by eexists _, _|]).
  - split; [by exists (chars_of "-Infinit"), "y"%char|]. by intros fuel rest _.
  - split; [by exists (chars_of "Infinit"), "y"%char|]. by intros fuel rest _.
  - split; [by exists (chars_of "Na"), "N"%char|]. by intros fuel rest _.
Qed.

(** *** Dicts *)

Lemma dict_set_fresh (k : string) (v : value) (d : list (string * value)) :
  existsb (String.eqb k) (map fst d) = false →
  dict_set k v d = d ++ [(k, v)].
Proof.
  induction d as [|[k' v'] d IH]; [done|].
  cbn [map fst existsb dict_set app]. intros [Hk Hd]%orb_false_iff.
  rewrite String.eqb_sym, Hk, IH by done. reflexivity.
Qed.

Lemma existsb_app_false (k : string) (l1 l2 : list string) :
  existsb (String.eqb k) l1 = false → existsb (String.eqb k) l2 = false →
  existsb (String.eqb k) (l1 ++ l2) = false.
Proof. intros H1 H2. by rewrite existsb_app, H1, H2. Qed.

Lemma dict_of_pairs_go (d acc : list (string * value)) :
  distinct (map fst (acc ++ d)) = true →
  fold_left (λ d kv, dict_set kv.1 kv.2 d) d acc = acc ++ d.
Proof.
  revert acc. induction d as [|[k v] d IH]; intros acc Hd.
  - by rewrite app_nil_r.
  - cbn [fold_left fst snd]. rewrite dict_set_fresh.
    + rewrite IH; rewrite <- app_assoc; done.
    + clear IH. induction acc as [|[k' v'] acc IHa]; [done|].
      cbn [app map fst distinct existsb] in *.
      apply andb_true_iff in Hd as [Hk Hd]. apply negb_true_iff in Hk.
      rewrite map_app, existsb_app in Hk. cbn [map fst existsb] in Hk.
      apply orb_false_iff in Hk as [_ [Hk _]%orb_false_iff].
      rewrite String.eqb_sym, Hk. cbn [orb]. by apply IHa.
Qed.

Lemma dict_of_pairs_distinct (d : list (string * value)) :
  distinct (map fst d) = true → dict_of_pairs d = d.
Proof. intros H. unfold dict_of_pairs. by rewrite dict_of_pairs_go. Qed.

(** *** Values *)

Lemma dumps_head (v : value) :
  well_formed v = true →
  ∃ c s, dumps_chars v = c :: s ∧ value_start c = true.
Proof.
  intros Hwf. destruct v as [ | [] | n | x | s | l | d]; try (by eexists _, _).
  - destruct (int_chars_head n) as (c & s & E & Hc). exists c, s. split; [done|].
    destruct Hc as [Hc|[-> _]]; [|done].
    destruct c as [[] [] [] [] [] [] [] []]; try reflexivity; discriminate Hc.
  - by destruct (float_chars_reads_back x Hwf) as [Hhead _].
Qed.

Lemma skip_ws_start (c : ascii) (s : chars) :
  value_start c = true → skip_ws (c :: s) = c :: s.
Proof.
  unfold value_start. rewrite !andb_true_iff. intros [[[[H _] _] _] _].
  apply negb_true_iff in H. cbn [skip_ws]. by rewrite H.
Qed.

Lemma dumps_dict (d : list (string * value)) :
  dumps_chars (JDict d) =
  "{"%char :: join_chars (chars_of ", ") (map dump_member d) ++ ["}"%char].
Proof.
  cbn [dumps_chars]. do 3 f_equal.
  induction d as [|[k x] d IH]; [done|]. cbn [map]. by rewrite IH.
Qed.

Lemma parse_elems_reads_back (l : list value) :
  l ≠ [] → Forall reads_back l → forallb well_formed l = true →
  ∀ (fuel : nat) (rest : chars),
    (2 * length (join_chars (chars_of ", ") (map dumps_chars l) ++ "]"%char :: rest)
       + 1 < fuel)%nat →
    parse_elems fuel (join_chars (chars_of ", ") (map dumps_chars l) ++ "]"%char :: rest)
    = Some (l, rest).
Proof.
  induction l as [|v l IH]; [done|]. intros _ HP Hwf fuel rest Hfuel.
  apply Forall_cons in HP as [Hv HP].
  cbn [forallb] in Hwf. apply andb_true_iff in Hwf as [Hwv Hwl].
  destruct fuel as [|fuel]; [lia|]. cbn [parse_elems].
  destruct l as [|v' l].
  - cbn [map join_chars] in *.
    rewrite (Hv Hwv) by (done || lia). by cbn.
  - change (join_chars (chars_of ", ") (map dumps_chars (v :: v' :: l)))
      with (dumps_chars v ++ chars_of ", " ++
            join_chars (chars_of ", ") (map dumps_chars (v' :: l))) in *.
    rewrite <- !app_assoc in *. cbn [chars_of list_ascii_of_string app] in *.
    remember (join_chars _ (map dumps_chars (v' :: l)) ++ "]"%char :: rest)
      as tail eqn:Etail.
    rewrite (Hv Hwv); [|lia|done].
    cbn.
    assert (skip_ws tail = tail) as ->.
    { subst tail. cbn [map join_chars].
      cbn [forallb] in Hwl. apply andb_true_iff in Hwl as [Hwv' _].
      destruct (dumps_head v' Hwv') as (c & s & E & Hc). rewrite E.
      destruct (map dumps_chars l); cbn [app]; by apply skip_ws_start. }
    subst tail. rewrite IH; [done|done|done|done|].
    rewrite length_app in Hfuel. cbn [length] in Hfuel. lia.
Qed.

Lemma parse_members_reads_back (d : list (string * value)) :
  d ≠ [] → Forall (λ kv, reads_back kv.2) d →
  forallb (λ kv, well_formed kv.2) d = true →
  ∀ (fuel : nat) (rest : chars),
    (2 * length (join_chars (chars_of ", ") (map dump_member d) ++ "}"%char :: rest)
       + 1 < fuel)%nat →
    parse_members fuel (join_chars (chars_of ", ") (map dump_member d) ++ "}"%char :: rest)
    = Some (d, rest).
Proof.
  induction d as [|[k v] d IH]; [done|]. intros _ HP Hwf fuel rest Hfuel.
  apply Forall_cons in HP as [Hv HP]. cbn [snd] in Hv.
  cbn [forallb snd] in Hwf. apply andb_true_iff in Hwf as [Hwv Hwl].
  destruct fuel as [|fuel]; [lia|].
  assert (∀ tail : chars,
    (2 * length (dump_member (k, v) ++ tail) + 1 < S fuel)%nat →
    delim tail = true →
    ∀ K, (∀ tl, skip_ws tail = tl →
            match tl with
            | c2 :: r2 =>
                if Ascii.eqb c2 "}" then Some ([(k, v)], r2)
                else if Ascii.eqb c2 "," then
                  match parse_members fuel (skip_ws r2) with
                  | Some (kvs, rest') => Some ((k, v) :: kvs, rest')
                  | None => None
                  end
                else None
            | [] => None
            end = K) →
    parse_members (S fuel) (dump_member (k, v) ++ tail) = K) as Hstep.
  { intros tail Hlen Hdl K HK. unfold dump_member, dump_string in *.
    change (chars_of ": ") with [":"%char; " "%char] in *.
    cbn [fst snd app] in *.
    rewrite <- !app_assoc in *. cbn [app] in *.
    cbn [parse_members]. change (Ascii.eqb quote_char quote_char) with true.
    cbn iota. rewrite parse_string_escape. cbn [skip_ws].
    change (is_ws ":") with false. cbn iota.
    change (Ascii.eqb ":" ":") with true. cbn iota.
    cbn [skip_ws]. change (is_ws " ") with true. cbn iota.
    destruct (dumps_head v Hwv) as (c & s & E & Hc).
    assert (skip_ws (dumps_chars v ++ tail) = dumps_chars v ++ tail) as ->.
    { rewrite E. by apply skip_ws_start. }
    rewrite (Hv Hwv); [| |done].
    { rewrite str_of_chars_of. by apply HK. }
    cbn [length] in Hlen. rewrite length_app in Hlen. cbn [length] in Hlen. lia. }
  destruct d as [|kv' d].
  - cbn [map join_chars] in *. apply Hstep; [done|done|].
    by intros tl <-.
  - change (join_chars (chars_of ", ") (map dump_member ((k, v) :: kv' :: d)))
      with (dump_member (k, v) ++ chars_of ", " ++
            join_chars (chars_of ", ") (map dump_member (kv' :: d))) in *.
    rewrite <- !app_assoc in *. cbn [chars_of list_ascii_of_string app] in *.
    remember (join_chars _ (map dump_member (kv' :: d)) ++ "}"%char :: rest)
      as tail eqn:Etail.
    apply Hstep; [done|done|]. intros tl <-. cbn.
    assert (skip_ws tail = tail) as ->.
    { subst tail. cbn [map join_chars]. destruct kv' as [k' v'].
      destruct (map dump_member d); by cbn. }
    subst tail. rewrite IH; [done|done|done|done|].
    rewrite length_app in Hfuel. cbn [length] in Hfuel. lia.
Qed.

Lemma parse_value_reads_back (v : value) : reads_back v.
Proof.
  induction v as [ | b | n | x | s | l IH | d IH] using value_nested_ind;
    intros Hwf fuel rest Hfuel Hd;
    (destruct fuel as [|fuel]; [lia|]).
  - reflexivity.
  - destruct b; reflexivity.
  - cbn [dumps_chars] in *. destruct (int_chars_head n) as (c & s' & E & Hc).
    pose proof (parse_number_int_chars n rest Hd) as Hp.
    rewrite E in *. cbn [app] in *.
    destruct Hc as [Hc|[-> (c' & s'' & -> & Hc')]].
    + by rewrite parse_value_digit.
    + cbn [app] in *. by rewrite parse_value_minus.
  - cbn [dumps_chars well_formed] in *.
    destruct (float_chars_reads_back x Hwf) as (_ & _ & Hback). by apply Hback.
  - cbn [dumps_chars] in *. unfold dump_string. cbn [app]. rewrite <- app_assoc.
    cbn [app parse_value]. change (Ascii.eqb quote_char quote_char) with true.
    cbn iota. by rewrite parse_string_escape, str_of_chars_of.
  - cbn [well_formed] in Hwf. cbn [dumps_chars] in *.
    cbn [app] in *. rewrite <- app_assoc in *. cbn [app] in *.
    destruct l as [|v l]; [reflexivity|].
    remember (v :: l) as l' eqn:El.
    cbn [parse_value]. change (Ascii.eqb "[" quote_char) with false.
    change (Ascii.eqb "[" "[") with true. cbn iota.
    assert (∃ c s, join_chars (chars_of ", ") (map dumps_chars l') = c :: s
                   ∧ value_start c = true) as (c & s & E & Hc).
    { subst l'. cbn [map join_chars]. cbn [forallb] in Hwf.
      apply andb_true_iff in Hwf as [Hwv _].
      destruct (dumps_head v Hwv) as (c & s & E & Hc).
      rewrite E. destruct (map dumps_chars l); by eexists _, _. }
    pose proof (parse_elems_reads_back l') as Hl.
    rewrite E in *. cbn [app] in *. rewrite skip_ws_start by done.
    assert (Ascii.eqb c "]" = false) as ->.
    { unfold value_start in Hc. rewrite !andb_true_iff in Hc.
      destruct Hc as [[[[_ Hc] _] _] _]. by apply negb_true_iff. }
    rewrite Hl; [done|by subst l'|done|done|]. cbn [length] in *. lia.
  - cbn [well_formed] in Hwf. apply andb_true_iff in Hwf as [Hk Hwf].
    rewrite dumps_dict in *.
    cbn [app] in *. rewrite <- app_assoc in *. cbn [app] in *.
    destruct d as [|kv d]; [reflexivity|].
    remember (kv :: d) as d' eqn:Ed.
    cbn [parse_value]. change (Ascii.eqb "{" quote_char) with false.
    change (Ascii.eqb "{" "[") with false.
    change (Ascii.eqb "{" "{") with true. cbn iota.
    assert (∃ s, join_chars (chars_of ", ") (map dump_member d') = quote_char :: s)
      as (s & E).
    { subst d'. cbn [map join_chars]. destruct kv as [k x].
      destruct (map dump_member d); by eexists. }
    pose proof (parse_members_reads_back d') as Hm.
    rewrite E in *. cbn [app] in *.
    change (skip_ws (quote_char :: ?x)) with (quote_char :: x).
    change (Ascii.eqb quote_char "}") with false. cbn iota.
    rewrite Hm; [|by subst d'|done|done|cbn [length] in *; lia].
    by rewrite dict_of_pairs_distinct.
Qed.

Lemma loads_chars_dumps_chars (v : value) :
  well_formed v = true → loads_chars (dumps_chars v) = Some v.
Proof.
  intros Hwf. unfold loads_chars.
  destruct (dumps_head v Hwf) as (c & s & E & Hc).
  assert (skip_ws (dumps_chars v) = dumps_chars v) as ->.
  { rewrite E. by apply skip_ws_start. }
  pose proof (parse_value_reads_back v Hwf (S (2 * length (dumps_chars v))) []) as H.
  rewrite app_nil_r in H. rewrite H; [done|lia|done].
Qed.

(** [json.loads(json.dumps(v)) == v] for every value of the model. *)
Lemma loads_dumps (v : value) :
  well_formed v = true → loads (dumps v) = Some v.
Proof.
  intros Hwf. unfold loads, dumps. rewrite chars_of_str_of.
  by apply loads_chars_dumps_chars.
Qed.

(** The last character of an encoding is no whitespace. *)
Lemma uint_chars_last (u : Decimal.uint) :
  u ≠ Nil → ∃ s c, uint_chars u = s ++ [c] ∧ is_digit c = true.
Proof.
  induction u as [|u IH|u IH|u IH|u IH|u IH|u IH|u IH|u IH|u IH|u IH];
    [done|..]; intros _;
    (assert (u = Nil ∨ u ≠ Nil) as [->|Hu] by (destruct u; [by left|by right..]);
     [by eexists [], _
     |destruct (IH Hu) as (s & c & E & Hc); cbn [uint_chars]; rewrite E;
      by eexists (_ :: s), c]).
Qed.

Lemma dumps_last (v : value) :
  well_formed v = true →
  ∃ s c, dumps_chars v = s ++ [c] ∧ Text.isspace c = false.
Proof.
  intros Hwf. destruct v as [ | [] | n | x | s | l | d].
  - by exists (chars_of "nul"), "l"%char.
  - by exists (chars_of "tru"), "e"%char.
  - by exists (chars_of "fals"), "e"%char.
  - cbn [dumps_chars]. unfold int_chars.
    pose proof (plain_digits_to_int n) as Hp.
    assert (∀ u, plain_digits u = true →
              ∃ s c, uint_chars u = s ++ [c] ∧ Text.isspace c = false) as Hu.
    { intros u Hu. destruct (uint_chars_last u) as (s & c & E & Hc).
      - by intros ->.
      - exists s, c. split; [done|].
        destruct c as [[] [] [] [] [] [] [] []]; try reflexivity; discriminate Hc. }
    destruct (Z.to_int n) as [u|u]; destruct (Hu u Hp) as (s & c & E & Hc);
      rewrite E; [by exists s, c | by exists ("-"%char :: s), c].
  - by destruct (float_chars_reads_back x Hwf) as (_ & Hlast & _).
  - cbn [dumps_chars]. unfold dump_string. by eexists (_ :: _), _.
  - cbn [dumps_chars]. by eexists (_ :: _), _.
  - rewrite dumps_dict. by eexists (_ :: _), _.
Qed.

(** *** Numbers, by example *)

(** The decoder on number literals: an [int] without fraction and
    exponent, else the nearest [float]; [NaN] and the infinities; what is
    no number literal is refused. *)
Lemma loads_numbers :
  loads "1.5" = Some (JFloat (S754_finite false 6755399441055744 (-52)))
  ∧ loads "1e5" = Some (JFloat (S754_finite false 6871947673600000 (-36)))
  ∧ loads "-0" = Some (JInt 0)
  ∧ loads "-0.0" = Some (JFloat (S754_zero true))
  ∧ loads "1e400" = Some (JFloat (S754_infinity false))
  ∧ loads "1e-400" = Some (JFloat (S754_zero false))
  ∧ loads "4.9e-324" = Some (JFloat (S754_finite false 1 (-1074)))
  ∧ loads "9007199254740993.0"
    = Some (JFloat (S754_finite false 4503599627370496 1))
  ∧ loads "NaN" = Some (JFloat S754_nan)
  ∧ loads "-Infinity" = Some (JFloat (S754_infinity true))
  ∧ loads ("{" +:+ quote_str +:+ "score" +:+ quote_str +:+ ": 0.9}")
    = Some (JDict [("score", JFloat (S754_finite false 8106479329266893 (-53)))])
  ∧ loads "1." = None ∧ loads "01" = None ∧ loads ".5" = None
  ∧ loads "1e" = None ∧ loads "-NaN" = None ∧ loads "+1" = None.
Proof. vm_compute. repeat split. Qed.

(** The encoder on floats: the shortest text that reads back, in the
    format of [repr]. *)
Lemma dumps_floats :
  dumps (JFloat (S754_finite false 8106479329266893 (-53))) = "0.9"
  ∧ dumps (JFloat (S754_finite false 7205759403792794 (-56))) = "0.1"
  ∧ dumps (JFloat (S754_finite false 6004799503160661 (-54))) = "0.3333333333333333"
  ∧ dumps (JFloat (S754_finite false 5000000000000000 1)) = "1e+16"
  ∧ dumps (JFloat (S754_finite false 8000000000000000 (-3))) = "1000000000000000.0"
  ∧ dumps (JFloat (S754_finite false 5902958103587057 (-69))) = "1e-05"
  ∧ dumps (JFloat (S754_finite false 7378697629483821 (-66))) = "0.0001"
  ∧ dumps (JFloat (S754_finite false 1 (-1074))) = "5e-324"
  ∧ dumps (JFloat (S754_finite false 9007199254740991 971))
    = "1.7976931348623157e+308"
  ∧ dumps (JFloat (S754_finite true 5629499534213120 (-51))) = "-2.5"
  ∧ dumps (JFloat (S754_finite false 4503599627370497 (-2)))
    = "1125899906842624.2"
  ∧ dumps (JFloat (S754_zero true)) = "-0.0"
  ∧ dumps (JFloat S754_nan) = "NaN"
  ∧ dumps (JFloat (S754_infinity false)) = "Infinity".
Proof. vm_compute. repeat split. Qed.

End JsonFacts.

(** ** [parse_json] *)

Module ParseJsonFacts.
Import JsonSpec JsonFacts.

Lemma lstrip_head (c : ascii) (s : chars) :
  Text.isspace c = false → Text.lstrip (c :: s) = c :: s.
Proof. intros Hc. cbn [Text.lstrip]. by rewrite Hc. Qed.

(** [strip] leaves a text alone that neither starts nor ends with
    whitespace. *)
Lemma strip_clean (c c' : ascii) (s s' : chars) :
  Text.isspace c = false → Text.isspace c' = false →
  c :: s = s' ++ [c'] → Text.strip (c :: s) = c :: s.
Proof.
  intros Hc Hc' E. unfold Text.strip, Text.rstrip. rewrite lstrip_head by done.
  rewrite E, rev_app_distr. cbn [rev app]. rewrite lstrip_head by done.
  change (c' :: rev s') with (rev [c'] ++ rev s').
  by rewrite <- rev_app_distr, rev_involutive.
Qed.

(** An encoding neither starts nor ends with whitespace, and does not
    start with a code fence. *)
Lemma dumps_clean (v : value) :
  Json.well_formed v = true →
  Text.strip (Json.dumps_chars v) = Json.dumps_chars v
  ∧ Text.startswith (chars_of "```") (Json.dumps_chars v) = false.
Proof.
  intros Hwf. destruct (dumps_head v Hwf) as (c & s & E & Hc).
  destruct (dumps_last v Hwf) as (s' & c' & E' & Hc').
  unfold value_start in Hc. rewrite !andb_true_iff, !negb_true_iff in Hc.
  destruct Hc as [[[[_ _] _] Hsp] Hfence].
  rewrite E. rewrite (strip_clean c c' s s') by congruence. split; [done|].
  cbn [chars_of list_ascii_of_string Text.startswith].
  by rewrite Ascii.eqb_sym, Hfence.
Qed.

(** A text that is trimmed and opens no fence is its own working text. *)
Lemma working_text_clean (t : chars) :
  Text.strip t = t → Text.startswith (chars_of "```") t = false →
  working_text t = t.
Proof. intros Hs Hf. unfold working_text. by rewrite Hs, Hf. Qed.

Lemma working_text_dumps (v : value) :
  Json.well_formed v = true →
  working_text (Json.dumps_chars v) = Json.dumps_chars v.
Proof.
  intros Hwf. destruct (dumps_clean v Hwf). by apply working_text_clean.
Qed.

(** The piece after the opening fence that [split] returns is the text
    up to the next fence. *)
Lemma split_go_head (sep cur t : chars) :
  ∃ tl, Text.split_go sep 0 cur t = (rev cur ++ Text.before sep t) :: tl.
Proof.
  revert cur. induction t as [|c t IH]; intros cur.
  - exists []. cbn. by rewrite app_nil_r.
  - cbn [Text.split_go Text.before]. destruct (Text.startswith sep (c :: t)).
    + eexists. by rewrite app_nil_r.
    + destruct (IH (c :: cur)) as [tl ->]. exists tl.
      cbn [rev]. by rewrite <- app_assoc.
Qed.

Lemma split_fenced (s : chars) :
  Text.startswith (chars_of "```") s = true →
  ∃ tl, Text.split (chars_of "```") s
        = [] :: Text.before (chars_of "```") (drop 3 s) :: tl.
Proof.
  intros Hs. destruct s as [|a [|b [|c t]]]; try discriminate Hs.
  - cbn in Hs. by rewrite andb_false_r in Hs.
  - cbn in Hs. by rewrite !andb_false_r in Hs.
  - unfold Text.split. cbn [Text.split_go]. rewrite Hs.
    cbn [chars_of list_ascii_of_string length Nat.sub rev Text.split_go drop].
    destruct (split_go_head (chars_of "```") [] t) as [tl Htl].
    cbn [chars_of list_ascii_of_string rev app] in Htl.
    rewrite Htl. by exists tl.
Qed.

Lemma working_text_fenced (content : chars) :
  Text.startswith (chars_of "```") (Text.strip content) = true →
  working_text content
  = Text.strip (without_tag
                  (Text.before (chars_of "```") (drop 3 (Text.strip content)))).
Proof.
  intros Hf. unfold working_text. rewrite Hf.
  destruct (split_fenced _ Hf) as [tl ->]. reflexivity.
Qed.

End ParseJsonFacts.

(** C4. Parsing an encoding gives the value back.  For every JSON value
    [v], that is [None], a [bool], an [int], a [float], a [str], a list or
    a dict of such values, with distinct keys in every dict and floats that
    are the floats of their [repr], as the floats of CPython are, parsing
    [json.dumps(v)] with the response-recovery parser returns exactly [v].
    And whatever the JSON library and its values are: for every decoder
    and every encoding that the decoder reads back as [v], that neither
    starts nor ends with whitespace and does not start with a code fence,
    as no JSON text without surrounding whitespace does, [parse_json] over
    that decoder returns [v]: the recovery never gets in the way of the
    decoder. *)
Theorem parse_json_dumps :
  (∀ v : value, Json.well_formed v = true → parse_json (Json.dumps v) = inr v)
  ∧ (∀ (V : Type) (json_loads : chars → option V) (json_dumps : V → string)
       (v : V),
       json_loads (chars_of (json_dumps v)) = Some v →
       Text.strip (chars_of (json_dumps v)) = chars_of (json_dumps v) →
       Text.startswith (chars_of "```") (chars_of (json_dumps v)) = false →
       parse_json_with json_loads (json_dumps v) = inr v).
Proof.
  split.
  - intros v Hwf. unfold parse_json, parse_json_with, Json.dumps.
    rewrite JsonFacts.chars_of_str_of, ParseJsonFacts.working_text_dumps by done.
    unfold recover_with. by rewrite JsonFacts.loads_chars_dumps_chars.
  - intros V json_loads json_dumps v Hloads Hstrip Hfence.
    unfold parse_json_with.
    rewrite ParseJsonFacts.working_text_clean by done.
    unfold recover_with. by rewrite Hloads.
Qed.

Lemma parse_json_dumps_witness :
  parse_json
    (Json.dumps (JDict [("a", JList [JInt 1; JInt (-2); JNull]);
                        ("b" +:+ newline, JStr quote_str);
                        ("c", JDict [("d", JBool true)]);
                        ("score", JFloat (Json.float_of_decimal false 9 (-1)));
                        ("e", JList [JFloat (Json.float_of_decimal true 15 4);
                                     JFloat S754_nan;
                                     JFloat (S754_infinity true)])]))
  = inr (JDict [("a", JList [JInt 1; JInt (-2); JNull]);
                ("b" +:+ newline, JStr quote_str);
                ("c", JDict [("d", JBool true)]);
                ("score", JFloat (Json.float_of_decimal false 9 (-1)));
                ("e", JList [JFloat (Json.float_of_decimal true 15 4);
                             JFloat S754_nan;
                             JFloat (S754_infinity true)])])
  ∧ parse_json_with Json.loads_chars
      (Json.dumps (JList [JStr "payment"; JFloat (Json.float_of_decimal false 25 (-1))]))
    = inr (JList [JStr "payment"; JFloat (Json.float_of_decimal false 25 (-1))]).
Proof.
  split.
  - apply (proj1 parse_json_dumps). vm_compute. reflexivity.
  - apply (proj2 parse_json_dumps value Json.loads_chars Json.dumps);
      vm_compute; reflexivity.
Defined.

(** C5. When the trimmed input begins with a triple-backtick fence,
    [parse_json] works on the text between the first and the second fence
    (up to the end when there is no second fence), without a leading
    [json] or [JSON] tag and trimmed, and goes on to recover a value from
    that text; the fenced example of the specification yields the object
    with the one member [a] = 1. *)
Theorem parse_json_fenced :
  (∀ content : string,
     Text.startswith (chars_of "```") (Text.strip (chars_of content)) = true →
     parse_json content
     = recover
         (Text.strip
            (without_tag
               (Text.before (chars_of "```")
                  (drop 3 (Text.strip (chars_of content)))))))
  ∧ parse_json fenced_example = inr (JDict [("a", JInt 1)]).
Proof.
  split.
  - intros content Hf. unfold parse_json, parse_json_with.
    by rewrite ParseJsonFacts.working_text_fenced.
  - vm_compute. reflexivity.
Qed.

Lemma parse_json_fenced_witness :
  Text.startswith (chars_of "```")
    (Text.strip (chars_of fenced_example)) = true
  ∧ parse_json fenced_example
    = recover
        (Text.strip
           (without_tag
              (Text.before (chars_of "```")
                 (drop 3 (Text.strip (chars_of fenced_example)))))).
Proof.
  split; [reflexivity|].
  apply (proj1 parse_json_fenced fenced_example). reflexivity.
Defined.

(** ** Running a coroutine alone *)

Module RunFacts.

Lemma run_handle {A B : Type} (service : service_t) (p : prog A)
    (f : A → prog B) (g : exn → prog B) (w : world) :
  run service (handle p f g) w
  = match run service p w with
    | (Returned a, w1) => run service (f a) w1
    | (Raised e, w1) => run service (g e) w1
    | (Blocked, w1) => (Blocked, w1)
    end.
Proof.
  revert w.
  induction p as [a|e|k IH|k IH|r k IH|secs k IH|path k IH|path k IH
                 |path content k IH|k IH|k IH]; intros w; cbn [handle run];
    try done.
  destruct (0 <? w_semaphore w); [apply IH|done].
Qed.

Lemma run_bind {A B : Type} (service : service_t) (p : prog A)
    (f : A → prog B) (w : world) :
  run service (bind p f) w
  = match run service p w with
    | (Returned a, w1) => run service (f a) w1
    | (Raised e, w1) => (Raised e, w1)
    | (Blocked, w1) => (Blocked, w1)
    end.
Proof. unfold bind. by rewrite run_handle. Qed.

Lemma run_try_catch {A : Type} (service : service_t) (p : prog A)
    (h : exn → prog A) (w : world) :
  run service (try_catch p h) w
  = match run service p w with
    | (Returned a, w1) => (Returned a, w1)
    | (Raised e, w1) => run service (h e) w1
    | (Blocked, w1) => (Blocked, w1)
    end.
Proof. unfold try_catch. by rewrite run_handle. Qed.

Lemma run_lift {A : Type} (service : service_t) (r : result A) (w : world) :
  run service (lift r) w
  = (match r with inr a => Returned a | inl e => Raised e end, w).
Proof. by destruct r. Qed.

(** One attempt of [call]: it sends one request, gives the semaphore
    back, and ends as [attempt_result] says. *)
Lemma run_attempt_once (service : service_t) (api : APIClient) (prompt : string)
    (max_tokens timeout : Z) (semaphore : bool) (w : world) :
  (semaphore = true → 0 < w_semaphore w) →
  let r := Request_ (model api) max_tokens prompt timeout in
  ∃ w1,
    run service (attempt_once api prompt max_tokens timeout semaphore) w
    = (match attempt_result (service (w_served w) r) with
       | inr text => Returned text
       | inl e => Raised e
       end, w1)
    ∧ w_files w1 = w_files w ∧ w_semaphore w1 = w_semaphore w
    ∧ w_today w1 = w_today w ∧ w_served w1 = S (w_served w)
    ∧ w_trace w1 = w_trace w ++ [EvRequest r].
Proof.
  intros Hsem r. unfold attempt_once. rewrite run_bind.
  destruct semaphore.
  - unfold async_with_semaphore, create_message. cbn [run handle].
    specialize (Hsem eq_refl). apply Z.ltb_lt in Hsem as Hlt. rewrite Hlt.
    cbn [w_files w_semaphore w_today w_served w_trace]. fold r.
    destruct (service (w_served w) r) as [content|e];
      cbn [handle run w_files w_semaphore w_today w_served w_trace].
    + rewrite run_lift. cbn [attempt_result]. eexists.
      split; [by destruct (first_text content)|]. cbn. repeat split; lia.
    + eexists. split; [done|]. cbn. repeat split; lia.
  - unfold create_message. cbn [run]. fold r.
    destruct (service (w_served w) r) as [content|e]; cbn [run].
    + rewrite run_lift. cbn [attempt_result]. eexists.
      split; [by destruct (first_text content)|]. by cbn.
    + eexists. split; [done|]. by cbn.
Qed.

Section CallLoop.
Variables (service : service_t) (api : APIClient) (prompt : string).
Variables (max_tokens timeout : Z) (semaphore : bool).

Let r := Request_ (model api) max_tokens prompt timeout.

(** The loop of [call] over the attempts [a], [a+1], ..., [a+m-1], the
    last of which is attempt [max_retries - 1]. *)
Lemma run_call_loop (m a : nat) (w : world) :
  (semaphore = true → 0 < w_semaphore w) →
  (m ≠ O → max_retries api = Z.of_nat (a + m)) →
  ∃ (k : nat) (result : run_result (option string)) (w' : world),
    run service
      (call_loop api prompt max_tokens timeout semaphore (map Z.of_nat (seq a m))) w
    = (result, w')
    ∧ (k ≤ m)%nat
    ∧ w_trace w' = w_trace w ++ attempts_trace r (Z.of_nat a) k
    ∧ w_served w' = (w_served w + k)%nat
    ∧ w_files w' = w_files w ∧ w_semaphore w' = w_semaphore w
    ∧ w_today w' = w_today w
    ∧ (∀ i : nat, (i + 1 < k)%nat →
                  ∃ e, attempt_result (service (w_served w + i)%nat r) = inl e)
    ∧ match k with
      | O => m = O ∧ result = Returned None
      | S j =>
          match attempt_result (service (w_served w + j)%nat r) with
          | inr text => result = Returned (Some text)
          | inl e => S j = m ∧ result = Raised e
          end
      end.
Proof.
  revert a w. induction m as [|m IH]; intros a w Hsem Hmax.
  - exists O, (Returned None), w. cbn. rewrite app_nil_r, Nat.add_0_r.
    repeat split; try done; intros i Hi; lia.
  - cbn [seq map call_loop]. rewrite run_try_catch, run_bind.
    destruct (run_attempt_once service api prompt max_tokens timeout semaphore w Hsem)
      as (w1 & Hrun & Hf & Hs & Ht & Hn & Htr).
    rewrite Hrun. fold r.
    destruct (attempt_result (service (w_served w) r)) as [e|text] eqn:Eres.
    + (* the attempt failed *)
      assert ((Z.of_nat a <? max_retries api - 1) = negb (Nat.eqb m 0)) as Hlast.
      { rewrite Hmax by done. destruct m; cbn [Nat.eqb negb].
        - apply Z.ltb_ge. lia.
        - apply Z.ltb_lt. lia. }
      assert (run service
                (match e with
                 | TimeoutError =>
                     if Z.of_nat a <? max_retries api - 1
                     then Sleep (2 ^ Z.of_nat a)
                            (call_loop api prompt max_tokens timeout semaphore
                               (map Z.of_nat (seq (S a) m)))
                     else Raise e
                 | _ =>
                     if Z.of_nat a <? max_retries api - 1
                     then Sleep (2 ^ Z.of_nat a)
                            (call_loop api prompt max_tokens timeout semaphore
                               (map Z.of_nat (seq (S a) m)))
                     else Raise e
                 end) w1
              = run service
                  (if Z.of_nat a <? max_retries api - 1
                   then Sleep (2 ^ Z.of_nat a)
                          (call_loop api prompt max_tokens timeout semaphore
                             (map Z.of_nat (seq (S a) m)))
                   else Raise e) w1) as -> by (by destruct e).
      rewrite Hlast. destruct m as [|m]; cbn [Nat.eqb negb run].
      * exists 1%nat, (Raised e), w1. cbn [attempts_trace].
        rewrite Nat.add_0_r, Eres. repeat split; try done; try lia; intros i Hi; lia.
      * set (w2 := World _ _ _ _ _).
        destruct (IH (S a) w2) as (k & result & w' & Hrun' & Hk & Htr' & Hn'
                                    & Hf' & Hs' & Ht' & Hfail & Hend).
        { subst w2. cbn. rewrite Hs. exact Hsem. }
        { intros _. rewrite Hmax by done. lia. }
        destruct k as [|k]; [by destruct Hend|].
        exists (S (S k)), result, w'. subst w2. cbn in Htr', Hn', Hf', Hs', Ht', Hfail, Hend.
        rewrite Hn in *.
        repeat split; try done; try lia.
        -- rewrite Htr', Htr.
           change (attempts_trace r (Z.of_nat a) (S (S k)))
             with (EvRequest r :: EvSleep (2 ^ Z.of_nat a)
                   :: attempts_trace r (Z.of_nat a + 1) (S k)).
           replace (Z.of_nat (S a)) with (Z.of_nat a + 1) by lia.
           by rewrite <- !app_assoc.
        -- congruence.
        -- congruence.
        -- intros [|i] Hi.
           ++ rewrite Nat.add_0_r. by exists e.
           ++ destruct (Hfail i) as [e' He']; [lia|]. exists e'.
              by replace (w_served w + S i)%nat with (S (w_served w) + i)%nat by lia.
        -- replace (w_served w + S k)%nat with (S (w_served w) + k)%nat by lia.
           destruct (attempt_result (service (S (w_served w) + k)%nat r));
             [|done]. destruct Hend as [-> ->]. done.
    + (* the attempt succeeded *)
      cbn [run]. exists 1%nat, (Returned (Some text)), w1. cbn [attempts_trace].
      rewrite Nat.add_0_r, Eres. repeat split; try done; try lia; intros i Hi; lia.
Qed.

(** [call] as a whole. *)
Lemma run_call (w : world) :
  (semaphore = true → 0 < w_semaphore w) →
  ∃ (k : nat) (result : run_result (option string)) (w' : world),
    run service (call api prompt max_tokens timeout semaphore) w = (result, w')
    ∧ (k ≤ Z.to_nat (max_retries api))%nat
    ∧ w_trace w' = w_trace w ++ attempts_trace r 0 k
    ∧ w_served w' = (w_served w + k)%nat
    ∧ w_files w' = w_files w ∧ w_semaphore w' = w_semaphore w
    ∧ w_today w' = w_today w
    ∧ (∀ i : nat, (i + 1 < k)%nat →
                  ∃ e, attempt_result (service (w_served w + i)%nat r) = inl e)
    ∧ match k with
      | O => max_retries api ≤ 0 ∧ result = Returned None
      | S j =>
          match attempt_result (service (w_served w + j)%nat r) with
          | inr text => result = Returned (Some text)
          | inl e => Z.of_nat (S j) = max_retries api ∧ result = Raised e
          end
      end.
Proof.
  intros Hsem. unfold call, range.
  destruct (run_call_loop (Z.to_nat (max_retries api)) 0 w Hsem)
    as (k & result & w' & Hrun & Hk & Htr & Hn & Hf & Hs & Ht & Hfail & Hend).
  { intros Hm. cbn [Nat.add]. lia. }
  exists k, result, w'. repeat split; try done.
  destruct k as [|j].
  - destruct Hend as [Hm ->]. split; [lia|done].
  - destruct (attempt_result (service (w_served w + j)%nat r)); [|done].
    destruct Hend as [Hm ->]. split; [lia|done].
Qed.

End CallLoop.

Lemma prompts_of_app (t1 t2 : list event) :
  prompts_of (t1 ++ t2) = prompts_of t1 ++ prompts_of t2.
Proof. unfold prompts_of. by rewrite flat_map_app. Qed.

Lemma prompts_of_attempts_trace (r : request) (a : Z) (k : nat) :
  prompts_of (attempts_trace r a k) = replicate k (req_prompt r).
Proof.
  revert a. induction k as [|k IH]; intros a; [done|].
  destruct k as [|k]; [done|].
  change (attempts_trace r a (S (S k)))
    with (EvRequest r :: EvSleep (2 ^ a) :: attempts_trace r (a + 1) (S k)).
  cbn [prompts_of flat_map app]. fold (prompts_of (attempts_trace r (a + 1) (S k))).
  by rewrite IH.
Qed.

End RunFacts.

(** C3. [call] sends at most [max_retries] requests, each the same
    request under the same timeout.  Between one attempt and the next it
    sleeps [2 ^ attempt] seconds, and it retries exactly while the attempts
    fail and are not the last: the events of a call are those of [k]
    attempts, every attempt before the [k]-th failed, and the [k]-th
    either succeeded, which [call] returns, or was attempt
    [max_retries - 1] and failed with the exception [e], which [call]
    raises unchanged. *)
Theorem call_retries (service : service_t) (api : APIClient) (prompt : string)
    (max_tokens timeout : Z) (semaphore : bool) (w : world) :
  (semaphore = true → 0 < w_semaphore w) →
  let r := Request_ (model api) max_tokens prompt timeout in
  ∃ (k : nat) (result : run_result (option string)) (w' : world),
    run service (call api prompt max_tokens timeout semaphore) w = (result, w')
    ∧ (k ≤ Z.to_nat (max_retries api))%nat
    ∧ w_trace w' = w_trace w ++ attempts_trace r 0 k
    ∧ (∀ i : nat, (i + 1 < k)%nat →
                  ∃ e, attempt_result (service (w_served w + i)%nat r) = inl e)
    ∧ match k with
      | O => max_retries api ≤ 0 ∧ result = Returned None
      | S j =>
          match attempt_result (service (w_served w + j)%nat r) with
          | inr text => result = Returned (Some text)
          | inl e => Z.of_nat (S j) = max_retries api ∧ result = Raised e
          end
      end.
Proof.
  intros Hsem r.
  destruct (RunFacts.run_call service api prompt max_tokens timeout semaphore w Hsem)
    as (k & result & w' & Hrun & Hk & Htr & _ & _ & _ & _ & Hfail & Hend).
  by exists k, result, w'.
Qed.

Lemma call_retries_witness :
  ∃ (k : nat) (result : run_result (option string)) (w' : world),
    run Sample.failing (call default_client "prompt" 1024 60 true)
      (Sample.world_with ∅) = (result, w')
    ∧ (k ≤ Z.to_nat (max_retries default_client))%nat
    ∧ w_trace w'
      = w_trace (Sample.world_with ∅)
        ++ attempts_trace (Request_ (model default_client) 1024 "prompt" 60) 0 k
    ∧ (∀ i : nat, (i + 1 < k)%nat →
         ∃ e, attempt_result
                (Sample.failing (w_served (Sample.world_with ∅) + i)%nat
                   (Request_ (model default_client) 1024 "prompt" 60)) = inl e)
    ∧ match k with
      | O => max_retries default_client ≤ 0 ∧ result = Returned None
      | S j =>
          match
            attempt_result
              (Sample.failing (w_served (Sample.world_with ∅) + j)%nat
                 (Request_ (model default_client) 1024 "prompt" 60))
          with
          | inr text => result = Returned (Some text)
          | inl e => Z.of_nat (S j) = max_retries default_client ∧ result = Raised e
          end
      end.
Proof.
  apply (call_retries Sample.failing default_client "prompt" 1024 60 true
           (Sample.world_with ∅)).
  intros _. reflexivity.
Defined.

(** ** The cache *)

Module CacheFacts.
Import RunFacts.

Lemma run_cache_lookup {T : Type} (service : service_t) (path : string)
    (loader : string → result T) (w : world) :
  run service
    (present <- path_exists path ;;
     if (present : bool) then
       text <- read_text path ;;
       v <- lift (loader text) ;;
       Ret (Some v)
     else Ret None)%prog w
  = (match w_files w !! path with
     | None => Returned None
     | Some text =>
         match loader text with
         | inr v => Returned (Some v)
         | inl e => Raised e
         end
     end, w).
Proof.
  cbn. destruct (w_files w !! path) as [text|] eqn:E; cbn; [|done].
  rewrite E. cbn. by destruct (loader text).
Qed.

Lemma run_get {T : Type} (service : service_t) (cache_dir key : string)
    (loader : string → result T) (w : world) :
  run service (FileCache.get cache_dir key loader) w
  = (match w_files w !! FileCache.cache_file cache_dir key with
     | None => Returned None
     | Some text =>
         match loader text with
         | inr v => Returned (Some v)
         | inl e => Raised e
         end
     end, w).
Proof. apply run_cache_lookup. Qed.

Lemma run_get_dated {T : Type} (service : service_t) (cache_dir key : string)
    (target_date : date) (loader : string → result T) (w : world) :
  run service (DateOrganizedCache.get_dated cache_dir key target_date loader) w
  = (match w_files w !! DateOrganizedCache.cache_file cache_dir key target_date with
     | None => Returned None
     | Some text =>
         match loader text with
         | inr v => Returned (Some v)
         | inl e => Raised e
         end
     end, w).
Proof. apply run_cache_lookup. Qed.

(** The check of the cache at the head of a layer: [exists], then [get]. *)
Lemma run_cache_check {T : Type} (service : service_t) (path : string)
    (loader : string → result T) (w : world) :
  run service
    (present <- path_exists path ;;
     if (present : bool)
     then (present <- path_exists path ;;
           if (present : bool) then
             text <- read_text path ;;
             v <- lift (loader text) ;;
             Ret (Some v)
           else Ret None)
     else Ret None)%prog w
  = (match w_files w !! path with
     | None => Returned None
     | Some text =>
         match loader text with
         | inr v => Returned (Some v)
         | inl e => Raised e
         end
     end, w).
Proof.
  cbn. destruct (w_files w !! path) as [text|] eqn:E; cbn; [|done].
  rewrite !E. cbn. rewrite ?E. cbn. by destruct (loader text).
Qed.

Lemma run_exists (service : service_t) (cache_dir key : string) (w : world) :
  run service (FileCache.exists_ cache_dir key) w
  = (Returned (bool_decide (is_Some (w_files w !! FileCache.cache_file cache_dir key))),
     w).
Proof. done. Qed.

(** What follows [call] in a layer leaves the trace alone when it sends
    nothing itself; the prompts of the whole are then those of [call]. *)
Lemma run_call_then {B : Type} (service : service_t) (api : APIClient)
    (prompt : string) (max_tokens : Z) (K : option string → prog B) (w : world) :
  (∀ content w1, w_trace (run service (K content) w1).2 = w_trace w1) →
  ∃ (k : nat) (result : run_result B) (w' : world),
    run service (content <- call api prompt max_tokens default_timeout false ;;
                 K content)%prog w = (result, w')
    ∧ prompts_of (w_trace w') = prompts_of (w_trace w) ++ replicate k prompt
    ∧ (0 < max_retries api → (0 < k)%nat).
Proof.
  intros HK. rewrite run_bind.
  destruct (run_call service api prompt max_tokens default_timeout false w)
    as (k & res & w1 & Hrun & _ & Htr & _ & _ & _ & _ & _ & Hend); [done|].
  rewrite Hrun.
  assert (prompts_of (w_trace w1) = prompts_of (w_trace w) ++ replicate k prompt)
    as Hp by (by rewrite Htr, prompts_of_app, prompts_of_attempts_trace).
  assert (0 < max_retries api → (0 < k)%nat) as Hk.
  { intros Hm. destruct k; [|lia]. destruct Hend as [Hle _]. lia. }
  destruct res as [content|e|].
  - specialize (HK content w1). destruct (run service (K content) w1) as [res' w'].
    exists k, res', w'. cbn [snd] in HK. by rewrite HK.
  - by exists k, (Raised e), w1.
  - by exists k, Blocked, w1.
Qed.

Lemma append_assoc (a b c : string) : (a +:+ b) +:+ c = a +:+ b +:+ c.
Proof.
  induction a as [|x a IH]; [done|].
  change (String x ((a +:+ b) +:+ c) = String x (a +:+ b +:+ c)). by rewrite IH.
Qed.

Lemma includes_append_r (pre s part : string) :
  includes s part → includes (pre +:+ s) part.
Proof.
  intros (p & q & ->). exists (pre +:+ p), q. by rewrite append_assoc.
Qed.

Section SummarizeDay.
Context `{Runtime}.
Variables (service : service_t) (cache_dir : string) (api : APIClient).
Variables (target_date : date) (analyses : list TicketAnalysis.t).

(** The prompt of [summarize_day] carries the context of the day before
    after the words [Yesterday's summary: ]. *)
Lemma summarize_prompt_includes (ctx : string) :
  includes (summarize_prompt analyses ctx) ("Yesterday's summary: " +:+ ctx).
Proof.
  unfold summarize_prompt, SUMMARIZE_PROMPT_format.
  do 8 apply includes_append_r.
  eexists (newline +:+ newline), _. rewrite !append_assoc. reflexivity.
Qed.

(** [summarize_day] from the point where the summary of the day is known
    not to be usable from the cache. *)
Lemma run_summarize_day_then (yesterday : date) (ctx : string) (w : world) :
  w_files w !! FileCache.cache_file cache_dir (PyDate.isoformat target_date) = None →
  PyDate.minus_one_day target_date = inr yesterday →
  previous_context cache_dir (w_files w) yesterday = inr ctx →
  ∃ (k : nat) (result : run_result DailySummary.t) (w' : world),
    run service (summarize_day cache_dir api target_date analyses) w = (result, w')
    ∧ prompts_of (w_trace w')
      = prompts_of (w_trace w) ++ replicate k (summarize_prompt analyses ctx)
    ∧ (0 < max_retries api → (0 < k)%nat).
Proof.
  intros Htarget Hminus Hctx. unfold summarize_day.
  rewrite run_bind, run_exists, Htarget.
  rewrite bool_decide_eq_false_2 by (by intros [? ?]).
  rewrite run_bind. cbn [run]. rewrite run_bind, Hminus, run_lift.
  rewrite run_bind, run_exists. unfold previous_context in Hctx.
  assert (∀ prev : option DailySummary.t,
            match prev with
            | Some p => DailySummary.trend_analysis p
            | None => "No previous summary"
            end = ctx →
            ∃ k result w',
              run service
                (let previous_summary :=
                   match prev with
                   | Some p => DailySummary.trend_analysis p
                   | None => "No previous summary"
                   end in
                 let prompt := summarize_prompt analyses previous_summary in
                 content <- call api prompt 2048 default_timeout false ;;
                 data <- lift (parse_json_of content) ;;
                 data <- lift (Summarizer_normalize data) ;;
                 summary <-
                   lift (DailySummary.init target_date
                           (Z.of_nat (length analyses)) data) ;;
                 FileCache.save cache_dir (PyDate.isoformat target_date) summary
                   DailySummary_model_dump_json ;;
                 Ret summary)%prog w = (result, w')
              ∧ prompts_of (w_trace w')
                = prompts_of (w_trace w) ++ replicate k (summarize_prompt analyses ctx)
              ∧ (0 < max_retries api → (0 < k)%nat)) as Htail.
  { intros prev <-. cbv zeta. apply run_call_then. intros content w1.
    rewrite run_bind, run_lift. destruct (parse_json_of content); [done|].
    rewrite run_bind, run_lift. destruct (Summarizer_normalize _); [done|].
    rewrite run_bind, run_lift. destruct (DailySummary.init _ _ _); [done|].
    done. }
  destruct (w_files w !! FileCache.cache_file cache_dir (PyDate.isoformat yesterday))
    as [text|] eqn:Ey.
  - rewrite bool_decide_eq_true_2 by done. rewrite run_bind, run_get, Ey.
    destruct (DailySummary_model_validate_json text) as [e|s]; [done|].
    injection Hctx as <-. by apply (Htail (Some s)).
  - rewrite bool_decide_eq_false_2 by (by intros [? ?]). rewrite run_bind.
    cbn [run]. injection Hctx as <-. by apply (Htail None).
Qed.

(** [summarize_day] when the summary of the day is in the cache, usable
    or not: nothing is sent. *)
Lemma run_summarize_day_cached (text : string) (w : world) :
  w_files w !! FileCache.cache_file cache_dir (PyDate.isoformat target_date)
  = Some text →
  ∃ result, run service (summarize_day cache_dir api target_date analyses) w
            = (result, w).
Proof.
  intros Htarget. unfold summarize_day.
  rewrite run_bind, run_exists, Htarget.
  rewrite bool_decide_eq_true_2 by done.
  rewrite run_bind, run_get, Htarget.
  destruct (DailySummary_model_validate_json text) as [e|s]; by eexists.
Qed.

(** In every case, what [summarize_day] sends is some number of copies
    of the prompt built on the context of the day before. *)
Lemma run_summarize_day_prompts (yesterday : date) (ctx : string) (w : world) :
  PyDate.minus_one_day target_date = inr yesterday →
  previous_context cache_dir (w_files w) yesterday = inr ctx →
  ∃ (k : nat) (result : run_result DailySummary.t) (w' : world),
    run service (summarize_day cache_dir api target_date analyses) w = (result, w')
    ∧ prompts_of (w_trace w')
      = prompts_of (w_trace w) ++ replicate k (summarize_prompt analyses ctx)
    ∧ (w_files w !! FileCache.cache_file cache_dir (PyDate.isoformat target_date)
       = None → 0 < max_retries api → (0 < k)%nat).
Proof.
  intros Hminus Hctx.
  destruct (w_files w !! FileCache.cache_file cache_dir (PyDate.isoformat target_date))
    as [text|] eqn:Et.
  - destruct (run_summarize_day_cached text w Et) as [result Hrun].
    exists O, result, w. cbn [replicate]. by rewrite app_nil_r.
  - destruct (run_summarize_day_then yesterday ctx w Et Hminus Hctx)
      as (k & result & w' & Hrun & Hp & Hk).
    exists k, result, w'. by repeat split.
Qed.

End SummarizeDay.

Lemma minus_plus_one_day (d target : date) :
  PyDate.valid d = true → PyDate.plus_one_day d = inr target →
  PyDate.minus_one_day target = inr d.
Proof.
  destruct d as [y m n]. unfold PyDate.valid, PyDate.plus_one_day, PyDate.minus_one_day.
  cbn [year month day]. rewrite !andb_true_iff, !Z.leb_le.
  intros [[[[[Hy1 Hy2] Hm1] Hm2] Hd1] Hd2] Hplus.
  destruct (n <? PyDate.days_in_month y m) eqn:E1.
  { injection Hplus as <-. cbn [year month day].
    assert ((1 <? n + 1) = true) as -> by (apply Z.ltb_lt; lia).
    do 2 f_equal; lia. }
  apply Z.ltb_ge in E1. destruct (m <? 12) eqn:E2.
  { injection Hplus as <-. cbn [year month day]. rewrite Z.ltb_irrefl.
    apply Z.ltb_lt in E2.
    assert ((1 <? m + 1) = true) as -> by (apply Z.ltb_lt; lia).
    replace (m + 1 - 1) with m by lia. do 2 f_equal; lia. }
  apply Z.ltb_ge in E2. destruct (y <? 9999) eqn:E3; [|done].
  injection Hplus as <-. cbn [year month day]. rewrite !Z.ltb_irrefl.
  apply Z.ltb_lt in E3. assert ((1 <? y + 1) = true) as -> by (apply Z.ltb_lt; lia).
  assert (m = 12) as -> by lia. change (PyDate.days_in_month y 12) with 31 in *.
  do 2 f_equal; lia.
Qed.

End CacheFacts.

(** C2, as the code has it.  For every key whose cache file exists,
    [get] and [get_dated] give what the decoder gives on the content of the
    file: the decoded record, or the exception of the decoder, raised to
    the caller.  They return absence exactly when there is no file. *)
Theorem cache_get_decodes {T : Type} (service : service_t)
    (cache_dir key : string) (target_date : date)
    (loader : string → result T) (w : world) :
  (∀ text, w_files w !! FileCache.cache_file cache_dir key = Some text →
     run service (FileCache.get cache_dir key loader) w
     = (match loader text with
        | inr v => Returned (Some v)
        | inl e => Raised e
        end, w))
  ∧ (w_files w !! FileCache.cache_file cache_dir key = None →
     run service (FileCache.get cache_dir key loader) w = (Returned None, w))
  ∧ (∀ text,
       w_files w !! DateOrganizedCache.cache_file cache_dir key target_date = Some text →
       run service (DateOrganizedCache.get_dated cache_dir key target_date loader) w
       = (match loader text with
          | inr v => Returned (Some v)
          | inl e => Raised e
          end, w))
  ∧ (w_files w !! DateOrganizedCache.cache_file cache_dir key target_date = None →
     run service (DateOrganizedCache.get_dated cache_dir key target_date loader) w
     = (Returned None, w)).
Proof.
  rewrite CacheFacts.run_get, CacheFacts.run_get_dated.
  split; [|split; [|split]];
    [intros text Hfile|intros Hfile|intros text Hfile|intros Hfile];
    by rewrite Hfile.
Qed.

Lemma cache_get_decodes_witness :
  run Sample.failing (FileCache.get "cache" "k" Reference.load_analysis)
    (Sample.world_with {[ "cache/k.json" := Reference.dump_analysis Sample.analysis ]})
  = (match Reference.load_analysis (Reference.dump_analysis Sample.analysis) with
     | inr v => Returned (Some v)
     | inl e => Raised e
     end,
     Sample.world_with {[ "cache/k.json" := Reference.dump_analysis Sample.analysis ]}).
Proof.
  apply (cache_get_decodes Sample.failing "cache" "k" Sample.clock
           Reference.load_analysis
           (Sample.world_with
              {[ "cache/k.json" := Reference.dump_analysis Sample.analysis ]})).
  reflexivity.
Defined.

(** C2 as stated fails: a present file that the decoder refuses makes
    both [get] and [get_dated] raise the decoder's exception; they do not
    return absence. *)
Lemma cache_get_undecodable_raises :
  w_files (Sample.world_with {[ "cache/k.json" := "not json";
                                  "cache/2024-03/01/k.json" := "not json" ]})
      !! FileCache.cache_file "cache" "k" = Some "not json"
  ∧ Reference.load_analysis "not json" = inl (ValidationError "TicketAnalysis")
  ∧ fst (run Sample.failing (FileCache.get "cache" "k" Reference.load_analysis)
           (Sample.world_with {[ "cache/k.json" := "not json";
                                 "cache/2024-03/01/k.json" := "not json" ]}))
    = Raised (ValidationError "TicketAnalysis")
  ∧ fst (run Sample.failing
           (DateOrganizedCache.get_dated "cache" "k" (Date 2024 3 1)
              Reference.load_analysis)
           (Sample.world_with {[ "cache/k.json" := "not json";
                                 "cache/2024-03/01/k.json" := "not json" ]}))
    = Raised (ValidationError "TicketAnalysis")
  ∧ fst (run Sample.failing (FileCache.get "cache" "k" Reference.load_analysis)
           (Sample.world_with {[ "cache/k.json" := "not json";
                                 "cache/2024-03/01/k.json" := "not json" ]}))
    ≠ Returned None.
Proof. vm_compute. repeat split; discriminate. Qed.

(** C7. When a decodable analysis is cached for [(date, ticket_id)],
    single-ticket extraction returns that analysis and leaves the world as
    it was: no request is sent, nothing is slept or written. *)
Theorem extract_ticket_cached `{Runtime} (service : service_t) (cache_dir : string)
    (api : APIClient) (ticket_id ticket_content : string) (ticket_date : date)
    (semaphore : bool) (w : world) (text : string) (analysis : TicketAnalysis.t) :
  w_files w !! DateOrganizedCache.cache_file cache_dir ticket_id ticket_date
  = Some text →
  TicketAnalysis_model_validate_json text = inr analysis →
  run service
    (extract_ticket cache_dir api ticket_id ticket_content ticket_date semaphore) w
  = (Returned analysis, w).
Proof.
  intros Hfile Hload. unfold extract_ticket, DateOrganizedCache.exists_dated.
  rewrite RunFacts.run_bind. cbn [run path_exists]. rewrite Hfile.
  rewrite bool_decide_eq_true_2 by done.
  rewrite RunFacts.run_bind, CacheFacts.run_get_dated, Hfile, Hload. done.
Qed.

Lemma extract_ticket_cached_witness :
  run Sample.failing
    (extract_ticket (H := Reference.runtime) "data/analyses" default_client
       "ticket_7" "The payment page times out" (Date 2024 3 1) true)
    (Sample.world_with
       {[ "data/analyses/2024-03/01/ticket_7.json"
          := Reference.dump_analysis Sample.analysis ]})
  = (Returned Sample.analysis,
     Sample.world_with
       {[ "data/analyses/2024-03/01/ticket_7.json"
          := Reference.dump_analysis Sample.analysis ]}).
Proof.
  apply (extract_ticket_cached (H := Reference.runtime) Sample.failing
           "data/analyses" default_client "ticket_7" "The payment page times out"
           (Date 2024 3 1) true _ (Reference.dump_analysis Sample.analysis));
    reflexivity.
Defined.

(** C8. In an aggregation call for the day after [d], when the summary
    of [d] is cached with trend analysis [stable], every prompt sent to the
    inference service is the summarize prompt with [stable] as the
    previous summary; when no file is cached for [d], it is the prompt with
    the sentinel [No previous summary].  The prompt includes that context
    after [Yesterday's summary: ], and a prompt is sent whenever the
    summary of the day itself is not cached and the client makes at least
    one attempt. *)
Theorem summarize_day_previous_summary `{Runtime} (service : service_t)
    (cache_dir : string) (api : APIClient) (d target_date : date)
    (analyses : list TicketAnalysis.t) (w : world) :
  PyDate.valid d = true →
  PyDate.plus_one_day d = inr target_date →
  (∀ text s,
     w_files w !! FileCache.cache_file cache_dir (PyDate.isoformat d) = Some text →
     DailySummary_model_validate_json text = inr s →
     DailySummary.trend_analysis s = "stable" →
     sends_summarize_prompt service cache_dir api target_date analyses w "stable")
  ∧ (w_files w !! FileCache.cache_file cache_dir (PyDate.isoformat d) = None →
     sends_summarize_prompt service cache_dir api target_date analyses w
       "No previous summary").
Proof.
  intros Hvalid Hplus.
  pose proof (CacheFacts.minus_plus_one_day d target_date Hvalid Hplus) as Hminus.
  assert (∀ ctx, previous_context cache_dir (w_files w) d = inr ctx →
            sends_summarize_prompt service cache_dir api target_date analyses w ctx)
    as Hsends.
  { intros ctx Hctx.
    destruct (CacheFacts.run_summarize_day_prompts service cache_dir api target_date
                analyses d ctx w Hminus Hctx) as (k & result & w' & Hrun & Hp & Hk).
    exists k, result, w'. repeat split; try done.
    apply CacheFacts.summarize_prompt_includes. }
  split.
  - intros text s Hfile Hload Htrend. apply Hsends. unfold previous_context.
    by rewrite Hfile, Hload, Htrend.
  - intros Hfile. apply Hsends. unfold previous_context. by rewrite Hfile.
Qed.

Lemma summarize_day_previous_summary_witness :
  sends_summarize_prompt (H := Reference.runtime) (Sample.answering "{}")
    "data/summaries" default_client (Date 2024 3 1) [Sample.analysis]
    (Sample.world_with
       {[ "data/summaries/2024-02-29.json"
          := Reference.dump_summary (Sample.summary_of (Date 2024 2 29) "stable") ]})
    "stable".
Proof.
  apply (proj1 (summarize_day_previous_summary (H := Reference.runtime)
                  (Sample.answering "{}") "data/summaries" default_client
                  (Date 2024 2 29) (Date 2024 3 1) [Sample.analysis]
                  (Sample.world_with
                     {[ "data/summaries/2024-02-29.json"
                        := Reference.dump_summary
                             (Sample.summary_of (Date 2024 2 29) "stable") ]})
                  eq_refl eq_refl)
           (Reference.dump_summary (Sample.summary_of (Date 2024 2 29) "stable"))
           (Sample.summary_of (Date 2024 2 29) "stable"));
    reflexivity.
Defined.

(** C10. The previous-summary context of [summarize_day] for a day comes
    from the cache entry of the day before, [target_date - 1 day], and
    from no other entry: the prompt is built on [previous_context] of that
    one day.  When that day has no cached summary the prompt carries the
    sentinel [No previous summary], whatever else is cached, also a
    decodable summary of some earlier day. *)
Theorem previous_summary_only_from_yesterday `{Runtime} (service : service_t)
    (cache_dir : string) (api : APIClient) (target_date yesterday : date)
    (analyses : list TicketAnalysis.t) (w : world) :
  PyDate.minus_one_day target_date = inr yesterday →
  (∀ ctx, previous_context cache_dir (w_files w) yesterday = inr ctx →
     sends_summarize_prompt service cache_dir api target_date analyses w ctx)
  ∧ (∀ earlier text s,
       w_files w !! FileCache.cache_file cache_dir (PyDate.isoformat earlier)
       = Some text →
       DailySummary_model_validate_json text = inr s →
       w_files w !! FileCache.cache_file cache_dir (PyDate.isoformat yesterday)
       = None →
       sends_summarize_prompt service cache_dir api target_date analyses w
         "No previous summary").
Proof.
  intros Hminus.
  assert (∀ ctx, previous_context cache_dir (w_files w) yesterday = inr ctx →
            sends_summarize_prompt service cache_dir api target_date analyses w ctx)
    as Hsends.
  { intros ctx Hctx.
    destruct (CacheFacts.run_summarize_day_prompts service cache_dir api target_date
                analyses yesterday ctx w Hminus Hctx)
      as (k & result & w' & Hrun & Hp & Hk).
    exists k, result, w'. repeat split; try done.
    apply CacheFacts.summarize_prompt_includes. }
  split; [exact Hsends|].
  intros earlier text s _ _ Hfile. apply Hsends. unfold previous_context.
  by rewrite Hfile.
Qed.

Lemma previous_summary_only_from_yesterday_witness :
  sends_summarize_prompt (H := Reference.runtime) (Sample.answering "{}")
    "data/summaries" default_client (Date 2024 3 1) [Sample.analysis]
    (Sample.world_with
       {[ "data/summaries/2024-02-27.json"
          := Reference.dump_summary (Sample.summary_of (Date 2024 2 27) "stable") ]})
    "No previous summary".
Proof.
  apply (proj2 (previous_summary_only_from_yesterday (H := Reference.runtime)
                  (Sample.answering "{}") "data/summaries" default_client
                  (Date 2024 3 1) (Date 2024 2 29) [Sample.analysis]
                  (Sample.world_with
                     {[ "data/summaries/2024-02-27.json"
                        := Reference.dump_summary
                             (Sample.summary_of (Date 2024 2 27) "stable") ]})
                  eq_refl)
           (Date 2024 2 27)
           (Reference.dump_summary (Sample.summary_of (Date 2024 2 27) "stable"))
           (Sample.summary_of (Date 2024 2 27) "stable"));
    reflexivity.
Defined.

(** ** The normalizer of reports *)

Module NormalizeFacts.
Import Json.

Lemma dict_get_set (k k' : string) (v : value) (d : list (string * value)) :
  dict_get k (dict_set k' v d) = if String.eqb k' k then Some v else dict_get k d.
Proof.
  induction d as [|[k0 v0] d IH]; cbn [dict_set dict_get]; [done|].
  destruct (String.eqb_spec k0 k') as [->|Hne]; cbn [dict_get].
  - by destruct (String.eqb k' k).
  - rewrite IH. destruct (String.eqb_spec k0 k) as [->|Hne']; [|done].
    destruct (String.eqb_spec k' k) as [->|_]; done.
Qed.

Lemma keys_dict_set (k : string) (v : value) (d : list (string * value)) :
  is_Some (dict_get k d) → map fst (dict_set k v d) = map fst d.
Proof.
  induction d as [|[k0 v0] d IH]; cbn [dict_set dict_get].
  - by intros [? ?].
  - destruct (String.eqb k0 k); [done|]. intros Hd. cbn [map fst].
    by rewrite IH.
Qed.

Lemma dict_get_update_present (k k' : string) (f : value → value)
    (d : list (string * value)) :
  dict_get k (update_present k' f d)
  = if String.eqb k' k then option_map f (dict_get k d) else dict_get k d.
Proof.
  unfold update_present. destruct (dict_get k' d) as [v|] eqn:E.
  - rewrite dict_get_set. destruct (String.eqb_spec k' k) as [<-|_]; [|done].
    by rewrite E.
  - destruct (String.eqb_spec k' k) as [<-|_]; [|done]. by rewrite E.
Qed.

Lemma keys_update_present (k : string) (f : value → value)
    (d : list (string * value)) :
  map fst (update_present k f d) = map fst d.
Proof.
  unfold update_present. destruct (dict_get k d) as [v|] eqn:E; [|done].
  apply keys_dict_set. by rewrite E.
Qed.

Section Report.
Context `{Runtime}.

Lemma dict_get_list_field_or_empty (k field subkey : string)
    (d : list (string * value)) :
  dict_get k (Reporter_normalize.list_field_or_empty field subkey d)
  = if String.eqb field k then Some (list_or_empty subkey (dict_get field d))
    else dict_get k d.
Proof.
  unfold Reporter_normalize.list_field_or_empty, list_or_empty.
  destruct (dict_get field d) as [[]|]; by rewrite dict_get_set.
Qed.

Lemma dict_get_body (k : string) (d : list (string * value)) :
  dict_get k (Reporter_normalize.body d)
  = option_map (report_field_rule k) (dict_get k d).
Proof.
  unfold Reporter_normalize.body, report_field_rule.
  rewrite !dict_get_update_present.
  destruct (String.eqb_spec "executive_summary" k) as [<-|_]; [done|].
  destruct (String.eqb_spec "health_snapshot" k) as [<-|_]; [done|].
  destruct (String.eqb_spec "key_insights" k) as [<-|_]; [done|].
  destruct (String.eqb_spec "recommended_actions" k) as [<-|_]; [done|].
  destruct (String.eqb_spec "customer_voice" k) as [<-|_]; [done|].
  destruct (String.eqb_spec "week_over_week_comparison" k) as [<-|_]; [done|].
  by destruct (dict_get k d).
Qed.

Lemma keys_body (d : list (string * value)) :
  map fst (Reporter_normalize.body d) = map fst d.
Proof. unfold Reporter_normalize.body. by rewrite !keys_update_present. Qed.

Lemma customer_voice_quotes (cv : value) :
  ∃ cv', Reporter_normalize.customer_voice cv = JDict cv'
         ∧ dict_get "quotes" cv'
           = Some (list_or_empty "quote"
                     (match cv with
                      | JDict c => dict_get "quotes" c
                      | _ => None
                      end)).
Proof.
  destruct cv as [ | b | n | x | s | l | c]; try (by eexists).
  eexists. split; [done|]. by rewrite dict_get_list_field_or_empty.
Qed.

Lemma week_over_week_lists (w : list (string * value)) :
  ∃ w', Reporter_normalize.week_over_week_comparison (JDict w) = JDict w'
        ∧ ∀ field, In field ["improved"; "deteriorated"; "stayed_same"] →
            dict_get field w' = Some (list_or_empty "item" (dict_get field w)).
Proof.
  eexists. split; [done|]. intros field Hf.
  rewrite !dict_get_list_field_or_empty.
  destruct Hf as [<-|[<-|[<-|[]]]]; done.
Qed.

(** A report field that is missing after normalization makes the
    construction of the report fail. *)
Lemma report_init_missing (period k : string) (d : list (string * value)) :
  In k report_fields → dict_get k d = None →
  ∃ e, Report.init period (JDict d) = inl e.
Proof.
  intros Hk Hnone. unfold Report.init, init_model.
  destruct (existsb _ _); [by eexists|].
  assert (Report.validate period d = None) as ->; [|by eexists].
  unfold Report.validate, field_str, field_models.
  destruct Hk as [<-|[<-|[<-|[<-|[<-|[<-|[]]]]]]]; rewrite ?Hnone;
    repeat (match goal with
            | |- context [mbind _ ?x] =>
                lazymatch x with
                | None => fail
                | _ => destruct x; cbn [mbind option_bind]
                end
            end; try done); try done.
Qed.

End Report.

End NormalizeFacts.

(** C6, as the code has it.  For every parsed value that is a JSON
    object, report normalization does not fail: it returns an object with
    the same keys in which every report field that is present has gone
    through its field rule and every other member is unchanged.  A present
    [customer_voice] ends as an object whose [quotes] is a list, empty
    when the quotes were missing or not a list or when [customer_voice]
    was not an object; in a present [week_over_week_comparison] object each
    of [improved], [deteriorated] and [stayed_same] ends as a list, empty
    when missing or not a list.  A report field that is absent from the
    parsed value stays absent, and the construction of the report then
    fails. *)
Theorem reporter_normalize_object `{Runtime} (d : list (string * value)) :
  ∃ d' : list (string * value),
    Reporter_normalize (JDict d) = inr (JDict d')
    ∧ map fst d' = map fst d
    ∧ (∀ k, Json.dict_get k d'
            = option_map (report_field_rule k) (Json.dict_get k d))
    ∧ (∀ cv, Json.dict_get "customer_voice" d = Some cv →
         ∃ cv', Json.dict_get "customer_voice" d' = Some (JDict cv')
                ∧ Json.dict_get "quotes" cv'
                  = Some (list_or_empty "quote"
                            (match cv with
                             | JDict c => Json.dict_get "quotes" c
                             | _ => None
                             end)))
    ∧ (∀ w, Json.dict_get "week_over_week_comparison" d = Some (JDict w) →
         ∃ w', Json.dict_get "week_over_week_comparison" d' = Some (JDict w')
               ∧ ∀ field, In field ["improved"; "deteriorated"; "stayed_same"] →
                   Json.dict_get field w'
                   = Some (list_or_empty "item" (Json.dict_get field w)))
    ∧ (∀ k summaries, In k report_fields → Json.dict_get k d = None →
         Json.dict_get k d' = None
         ∧ ∃ e, build_report summaries (JDict d) = inl e).
Proof.
  exists (Reporter_normalize.body d).
  split; [done|]. split; [apply NormalizeFacts.keys_body|].
  split; [intros k; apply NormalizeFacts.dict_get_body|].
  split; [|split].
  - intros cv Hcv. rewrite NormalizeFacts.dict_get_body, Hcv. cbn [option_map].
    change (report_field_rule "customer_voice")
      with Reporter_normalize.customer_voice.
    destruct (NormalizeFacts.customer_voice_quotes cv) as (cv' & -> & Hq).
    by exists cv'.
  - intros w Hw. rewrite NormalizeFacts.dict_get_body, Hw. cbn [option_map].
    change (report_field_rule "week_over_week_comparison")
      with Reporter_normalize.week_over_week_comparison.
    destruct (NormalizeFacts.week_over_week_lists w) as (w' & -> & Hl).
    by exists w'.
  - intros k summaries Hk Hnone.
    assert (Json.dict_get k (Reporter_normalize.body d) = None) as Hnone'
      by (by rewrite NormalizeFacts.dict_get_body, Hnone).
    split; [done|]. unfold build_report.
    change (Reporter_normalize (JDict d)) with
      (inr (JDict (Reporter_normalize.body d)) : result value).
    destruct (first_and_last summaries) as [e|[s e]]; [by eexists|].
    by apply (NormalizeFacts.report_init_missing _ k).
Qed.

Lemma reporter_normalize_object_witness :
  ∃ cv', Json.dict_get "customer_voice"
           (Reporter_normalize.body (H := Reference.runtime)
              [("customer_voice", JStr "none")])
         = Some (JDict cv')
         ∧ Json.dict_get "quotes" cv' = Some (JList []).
Proof.
  destruct (reporter_normalize_object (H := Reference.runtime)
              [("customer_voice", JStr "none")])
    as (d' & Hn & _ & _ & Hcv & _).
  injection Hn as <-. apply (Hcv (JStr "none")). reflexivity.
Defined.

(** C6 as stated fails.  The empty object is normalized to the empty
    object: [key_insights], [customer_voice] and the other fields stay
    absent instead of defaulting to empty sequences, and the construction
    of the report fails.  A parsed value that is no object or list makes
    the normalization itself fail. *)
Lemma reporter_normalize_empty_object :
  Reporter_normalize (H := Reference.runtime) (JDict []) = inr (JDict [])
  ∧ build_report (H := Reference.runtime)
      [Sample.summary_of (Date 2024 3 1) "stable"] (JDict [])
    = inl (ValidationError "Report")
  ∧ Reporter_normalize (H := Reference.runtime) (JInt 1)
    = inl (AttributeError "object has no attribute 'copy'").
Proof. vm_compute. done. Qed.

(** ** A batch under the semaphore *)

Module SemaphoreFacts.

Lemma disciplined_handle {A B : Type} (h1 h2 h3 : bool) (p : prog A)
    (f : A → prog B) (g : exn → prog B) :
  disciplined h1 h2 p →
  (∀ a, disciplined h2 h3 (f a)) → (∀ e, disciplined h2 h3 (g e)) →
  disciplined h1 h3 (handle p f g).
Proof.
  intros Hp Hf Hg. revert h1 Hp.
  induction p as [a|e|k IH|k IH|r k IH|secs k IH|path k IH|path k IH
                 |path content k IH|k IH|k IH]; intros h1 Hp;
    cbn [handle disciplined] in *.
  - by subst.
  - by subst.
  - destruct Hp as [-> Hp]. split; [done|]. by apply IH.
  - destruct Hp as [-> Hp]. split; [done|]. by apply IH.
  - destruct Hp as [-> Hp]. split; [done|]. intros o. by apply IH.
  - by apply IH.
  - intros b. by apply IH.
  - intros t. by apply IH.
  - by apply IH.
  - intros d. by apply IH.
  - by apply IH.
Qed.

Lemma disciplined_bind {A B : Type} (h1 h2 : bool) (p : prog A) (f : A → prog B) :
  disciplined h1 h2 p → (∀ a, disciplined h2 h2 (f a)) →
  disciplined h1 h2 (bind p f).
Proof. intros Hp Hf. by apply (disciplined_handle h1 h2 h2). Qed.

Lemma disciplined_try_catch {A : Type} (h1 h2 h3 : bool) (p : prog A)
    (h : exn → prog A) :
  disciplined h1 h2 p → h2 = h3 → (∀ e, disciplined h2 h3 (h e)) →
  disciplined h1 h3 (try_catch p h).
Proof. intros Hp -> Hh. by apply (disciplined_handle h1 h3 h3). Qed.

Lemma disciplined_lift {A : Type} (h : bool) (r : result A) :
  disciplined h h (lift r).
Proof. by destruct r. Qed.

Lemma disciplined_attempt_once (api : APIClient) (prompt : string)
    (max_tokens timeout : Z) :
  disciplined false false (attempt_once api prompt max_tokens timeout true).
Proof.
  unfold attempt_once. apply (disciplined_bind false false).
  - unfold async_with_semaphore, create_message. cbn. split; [done|].
    split; [done|]. by intros [content|e].
  - intros content. apply disciplined_lift.
Qed.

Lemma disciplined_call_loop (api : APIClient) (prompt : string)
    (max_tokens timeout : Z) (attempts : list Z) :
  disciplined false false (call_loop api prompt max_tokens timeout true attempts).
Proof.
  induction attempts as [|attempt rest IH]; [done|]. cbn [call_loop].
  apply (disciplined_try_catch false false false); [|done|].
  - apply (disciplined_bind false false); [|done].
    apply disciplined_attempt_once.
  - intros e. destruct e; by destruct (attempt <? max_retries api - 1).
Qed.

Lemma disciplined_cache_lookup {T : Type} (h : bool) (path : string)
    (loader : string → result T) :
  disciplined h h
    (present <- path_exists path ;;
     if (present : bool) then
       text <- read_text path ;;
       v <- lift (loader text) ;;
       Ret (Some v)
     else Ret None)%prog.
Proof.
  cbn. intros [|]; cbn; [|done]. intros [text|]; cbn; [|done].
  by destruct (loader text).
Qed.

Section Extraction.
Context `{Runtime}.

Lemma disciplined_extract_ticket (cache_dir : string) (api : APIClient)
    (ticket_id ticket_content : string) (ticket_date : date) :
  disciplined false false
    (extract_ticket cache_dir api ticket_id ticket_content ticket_date true).
Proof.
  unfold extract_ticket. apply (disciplined_bind false false).
  { by intros b. }
  intros present. apply (disciplined_bind false false).
  { destruct present; [apply disciplined_cache_lookup|done]. }
  intros [analysis|]; [done|].
  apply (disciplined_bind false false).
  { apply disciplined_call_loop. }
  intros content. apply (disciplined_bind false false).
  { apply disciplined_lift. }
  intros data. apply (disciplined_bind false false).
  { apply disciplined_lift. }
  intros analysis. by apply (disciplined_bind false false).
Qed.

Lemma disciplined_extract_with_progress (cache_dir : string) (api : APIClient)
    (ticket : Ticket.t) :
  disciplined false false (extract_with_progress cache_dir api ticket).
Proof.
  unfold extract_with_progress. apply (disciplined_bind false false).
  { unfold ticket_date_of. by destruct (fromisoformat_date _). }
  intros d. unfold with_progress.
  apply (disciplined_try_catch false false false); [|done|done].
  apply (disciplined_bind false false); [|done].
  apply disciplined_extract_ticket.
Qed.

Lemma disciplined_extraction (cache_dir : string) (api : APIClient)
    (ticket : Ticket.t) :
  disciplined false false (extraction cache_dir api ticket).
Proof.
  unfold extraction. apply (disciplined_bind false false).
  { unfold ticket_date_of. by destruct (fromisoformat_date _). }
  intros d. apply disciplined_extract_ticket.
Qed.

End Extraction.

Lemma count_held_insert (hs : list bool) (i : nat) (h h' : bool) :
  hs !! i = Some h →
  count_held (<[i := h']> hs)
  = count_held hs - (if h then 1 else 0) + (if h' then 1 else 0).
Proof.
  revert i. induction hs as [|x hs IH]; intros [|i] Hi; simplify_eq/=.
  - destruct h, h'; lia.
  - rewrite (IH i Hi). destruct x; lia.
Qed.

Lemma count_held_nonneg (hs : list bool) : 0 ≤ count_held hs.
Proof. induction hs as [|[] hs IH]; cbn; lia. Qed.

Lemma in_flight_le_held {A : Type} (hs : list bool) (ts : list (thread A)) :
  Forall2 thread_disciplined hs ts → count_in_flight ts ≤ count_held hs.
Proof.
  induction 1 as [|h t hs ts Ht _ IH]; [done|].
  destruct t as [p|r k]; cbn [count_in_flight].
  - destruct h; cbn [count_held]; lia.
  - destruct Ht as [-> _]. cbn [count_held]. lia.
Qed.

(** The invariant survives every step. *)
Lemma semaphore_invariant_step {A : Type} (capacity : Z) (c c' : pool A) :
  semaphore_invariant capacity c → step c c' → semaphore_invariant capacity c'.
Proof.
  intros (hs & Hts & Hsem & Hsum) Hstep.
  assert (∀ i t, threads c !! i = Some t →
            ∃ h, hs !! i = Some h ∧ thread_disciplined h t) as Hat.
  { intros i t Hi. destruct (Forall2_lookup_r _ _ _ _ _ Hts Hi) as (h & ? & ?).
    by exists h. }
  assert (∀ i h h' t',
            hs !! i = Some h → thread_disciplined h' t' →
            Forall2 thread_disciplined (<[i := h']> hs) (<[i := t']> (threads c)))
    as Hins.
  { intros i h h' t' _ Ht'. by apply Forall2_insert. }
  unfold semaphore_invariant.
  destruct Hstep as [ts sem fs n d i k Hi Hpos
                    |ts sem fs n d i k Hi
                    |ts sem fs n d i r k Hi
                    |ts sem fs n d i r k o Hi
                    |ts sem fs n d i secs k Hi
                    |ts sem fs n d i path k Hi
                    |ts sem fs n d i path k Hi
                    |ts sem fs n d i path content k Hi
                    |ts sem fs n d i k Hi
                    |ts sem fs n d i k Hi];
    cbn [threads semaphore_value] in *;
    destruct (Hat i _ Hi) as (h & Hh & Hd); cbn in Hd.
  - destruct Hd as [-> Hd]. exists (<[i := true]> hs).
    split; [by apply (Hins i false)|]. rewrite (count_held_insert hs i false) by done.
    lia.
  - destruct Hd as [-> Hd]. exists (<[i := false]> hs).
    split; [by apply (Hins i true)|]. rewrite (count_held_insert hs i true) by done.
    lia.
  - destruct Hd as [-> Hd]. exists (<[i := true]> hs).
    split; [by apply (Hins i true)|]. rewrite (count_held_insert hs i true) by done.
    lia.
  - destruct Hd as [-> Hd]. exists (<[i := true]> hs).
    split; [apply (Hins i true); [done|apply Hd]|].
    rewrite (count_held_insert hs i true) by done. lia.
  - exists (<[i := h]> hs). split; [by apply (Hins i h)|].
    rewrite (count_held_insert hs i h) by done. destruct h; lia.
  - exists (<[i := h]> hs). split; [apply (Hins i h); [done|apply Hd]|].
    rewrite (count_held_insert hs i h) by done. destruct h; lia.
  - exists (<[i := h]> hs). split; [apply (Hins i h); [done|apply Hd]|].
    rewrite (count_held_insert hs i h) by done. destruct h; lia.
  - exists (<[i := h]> hs). split; [by apply (Hins i h)|].
    rewrite (count_held_insert hs i h) by done. destruct h; lia.
  - exists (<[i := h]> hs). split; [apply (Hins i h); [done|apply Hd]|].
    rewrite (count_held_insert hs i h) by done. destruct h; lia.
  - exists (<[i := h]> hs). split; [by apply (Hins i h)|].
    rewrite (count_held_insert hs i h) by done. destruct h; lia.
Qed.

Lemma semaphore_invariant_steps {A : Type} (capacity : Z) (c c' : pool A) :
  semaphore_invariant capacity c → steps c c' → semaphore_invariant capacity c'.
Proof.
  intros Hc Hsteps. induction Hsteps as [c|c1 c2 c3 _ IH Hstep]; [done|].
  apply (semaphore_invariant_step capacity c2); [by apply IH|done].
Qed.

Lemma semaphore_invariant_in_flight {A : Type} (capacity : Z) (c : pool A) :
  semaphore_invariant capacity c → in_flight c ≤ capacity.
Proof.
  intros (hs & Hts & Hsem & Hsum). pose proof (in_flight_le_held hs _ Hts).
  unfold in_flight. lia.
Qed.

Lemma semaphore_invariant_start {A : Type} (capacity : Z)
    (ps : list (prog A)) (fs : gmap string string) (clock : date) :
  0 ≤ capacity → Forall (disciplined false false) ps →
  semaphore_invariant capacity (Pool (map Running ps) capacity fs 0 clock).
Proof.
  intros Hcap Hps. exists (map (λ _, false) ps). cbn [threads semaphore_value].
  split; [|split; [done|]].
  - induction Hps as [|p ps Hp _ IH]; constructor; done.
  - assert (count_held (map (λ _, false) ps) = 0) as ->; [|lia].
    clear Hps. by induction ps.
Qed.

End SemaphoreFacts.

(** C9. At every point of a batch extraction with a gate of capacity
    [max_concurrent], whatever the order in which the event loop resumes
    the coroutines and whatever the requests answer, the number of
    requests in flight is at most [max_concurrent], although one coroutine
    per ticket is running. *)
Theorem extract_batch_bounded `{Runtime} (cache_dir : string) (api : APIClient)
    (tickets : list Ticket.t) (max_concurrent : Z) (fs : gmap string string)
    (clock : date) (c0 c : pool TicketAnalysis.t) :
  extract_batch cache_dir api tickets max_concurrent fs clock = inr c0 →
  steps c0 c →
  in_flight c ≤ max_concurrent
  ∧ length (threads c0) = length tickets.
Proof.
  unfold extract_batch. destruct (max_concurrent <? 0) eqn:Hneg; [done|].
  apply Z.ltb_ge in Hneg. intros [= <-] Hsteps. split.
  - apply SemaphoreFacts.semaphore_invariant_in_flight.
    refine (SemaphoreFacts.semaphore_invariant_steps _ _ _ _ Hsteps).
    rewrite <- (map_map (extract_with_progress cache_dir api) Running).
    apply SemaphoreFacts.semaphore_invariant_start; [done|].
    clear Hsteps. induction tickets as [|t tickets IH]; constructor; [|done].
    apply SemaphoreFacts.disciplined_extract_with_progress.
  - cbn [threads]. by rewrite length_map.
Qed.

Lemma extract_batch_bounded_witness :
  in_flight
    (Pool (map (λ t, Running (extract_with_progress (H := Reference.runtime)
                                "data/analyses" default_client t))
             Sample.tickets) 2 ∅ 0 Sample.clock) ≤ 2
  ∧ length
      (threads
         (Pool (map (λ t, Running (extract_with_progress (H := Reference.runtime)
                                     "data/analyses" default_client t))
                  Sample.tickets) 2 ∅ 0 Sample.clock))
    = length Sample.tickets.
Proof.
  apply (extract_batch_bounded (H := Reference.runtime) "data/analyses"
           default_client Sample.tickets 2 ∅ Sample.clock).
  - reflexivity.
  - apply steps_refl.
Defined.

(** ** A batch comes to its end *)

Module TerminationFacts.

Lemma running_acc {A : Type} (p : prog A) : Acc (flip thread_move) (Running p).
Proof.
  induction p as [a|e|k IH|k IH|r k IH|secs k IH|path k IH|path k IH
                 |path content k IH|k IH|k IH];
    constructor; intros t' Hm; unfold flip in Hm; inversion Hm; subst;
    try apply IH.
  constructor. intros t'' Hm'. unfold flip in Hm'. inversion Hm'; subst. apply IH.
Qed.

Lemma thread_acc {A : Type} (t : thread A) : Acc (flip thread_move) t.
Proof.
  destruct t as [p|r k]; [apply running_acc|].
  constructor. intros t' Hm. unfold flip in Hm. inversion Hm; subst.
  apply running_acc.
Qed.

Lemma threads_acc_cons {A : Type} (t : thread A) (ts : list (thread A)) :
  Acc (flip thread_move) t → Acc (flip threads_move) ts →
  Acc (flip threads_move) (t :: ts).
Proof.
  intros Ht. revert ts. induction Ht as [t _ IHt]. intros ts Hts.
  induction Hts as [ts Hts IHts]. constructor.
  intros ts' (i & x & x' & Hi & Hm & ->). destruct i as [|i]; cbn in Hi.
  - injection Hi as <-. cbn. apply IHt; [done|]. by constructor.
  - cbn. apply IHts. by exists i, x, x'.
Qed.

Lemma threads_acc {A : Type} (ts : list (thread A)) : Acc (flip threads_move) ts.
Proof.
  induction ts as [|t ts IH].
  - constructor. intros ts' (i & x & x' & Hi & _). by destruct i.
  - apply threads_acc_cons; [apply thread_acc|done].
Qed.

Lemma step_moves {A : Type} (c c' : pool A) :
  step c c' → threads_move (threads c) (threads c').
Proof.
  intros Hstep. destruct Hstep; cbn [threads]; eexists _, _, _;
    (split; [eassumption|]); (split; [|reflexivity]); constructor.
Qed.

(** No batch runs forever. *)
Lemma pool_acc {A : Type} (c : pool A) : Acc (flip step) c.
Proof.
  pose proof (threads_acc (threads c)) as Hacc.
  remember (threads c) as ts eqn:E. revert c E.
  induction Hacc as [ts _ IH]. intros c ->. constructor. intros c' Hstep.
  apply (IH (threads c')); [|done]. by apply step_moves.
Qed.

(** A coroutine that has not ended and is not waiting for the semaphore
    can move. *)
Lemma step_unless_acquire {A : Type} (c : pool A) (i : nat) (t : thread A) :
  threads c !! i = Some t → ended t = None →
  (∀ k, t ≠ Running (Acquire k)) →
  ∃ c', step c c'.
Proof.
  destruct c as [ts sem fs n d]. cbn [threads]. intros Hi Hend Hacq.
  destruct t as [p|r k].
  - destruct p as [a|e|k|k|r k|secs k|path k|path k|path content k|k|k];
      try discriminate Hend.
    + by destruct (Hacq k).
    + eexists. by eapply step_release.
    + eexists. by eapply step_send.
    + eexists. by eapply step_sleep.
    + eexists. by eapply step_exists.
    + eexists. by eapply step_read.
    + eexists. by eapply step_write.
    + eexists. by eapply step_today.
    + eexists. by eapply step_completed.
  - eexists. by eapply (step_receive _ _ _ _ _ _ _ _ (Failed TimeoutError)).
Qed.

Lemma held_somewhere (hs : list bool) :
  0 < count_held hs → ∃ i, hs !! i = Some true.
Proof.
  induction hs as [|[] hs IH]; cbn [count_held]; intros Hpos; [lia|..].
  - by exists O.
  - destruct (IH Hpos) as [i Hi]. by exists (S i).
Qed.

(** Under a semaphore of positive capacity a batch that has not ended
    can move: no coroutine waits for ever. *)
Lemma progress {A : Type} (capacity : Z) (c : pool A) :
  0 < capacity → semaphore_invariant capacity c →
  finished c ∨ ∃ c', step c c'.
Proof.
  intros Hcap (hs & Hts & Hsem & Hsum). unfold finished.
  destruct (decide (Forall (λ t, is_Some (ended t)) (threads c))) as [Hfin|Hnot];
    [by left|right].
  apply not_Forall_Exists in Hnot; [|apply _].
  apply Exists_exists in Hnot as (t & Hin & Hend).
  apply list_elem_of_lookup in Hin as [i Hi].
  assert (ended t = None) as Hnone.
  { destruct (ended t) eqn:E; [|done]. destruct Hend. by eexists. }
  destruct (decide (0 < semaphore_value c)) as [Hfree|Hfull].
  - destruct t as [[a|e|k|k|r k|secs k|path k|path k|path content k|k|k]|r k];
      try (by apply (step_unless_acquire c i _ Hi Hnone)).
    destruct c as [ts sem fs n d]. eexists. by eapply step_acquire.
  - destruct (held_somewhere hs) as [j Hj]; [lia|].
    destruct (Forall2_lookup_l _ _ _ _ _ Hts Hj) as (tj & Htj & Hd).
    apply (step_unless_acquire c j tj Htj).
    + destruct tj as [[]|]; cbn in Hd; try done; by destruct Hd.
    + intros k ->. cbn in Hd. by destruct Hd.
Qed.

End TerminationFacts.

(** ** The results of a batch *)

Module ResultFacts.

Lemma yields_handle {A B : Type} (inv : string → string → Prop)
    (post1 : A → Prop) (fails1 : exn → Prop) (post2 : B → Prop)
    (fails2 : exn → Prop) (p : prog A) (f : A → prog B) (g : exn → prog B) :
  yields inv post1 fails1 p →
  (∀ a, post1 a → yields inv post2 fails2 (f a)) →
  (∀ e, fails1 e → yields inv post2 fails2 (g e)) →
  yields inv post2 fails2 (handle p f g).
Proof.
  intros Hp Hf Hg.
  induction p as [a|e|k IH|k IH|r k IH|secs k IH|path k IH|path k IH
                 |path content k IH|k IH|k IH]; cbn [handle yields] in *;
    try (by auto).
  - destruct Hp as [Hnone Hsome]. split; [by apply IH|].
    intros text Htext. by apply IH, Hsome.
  - destruct Hp as [Hinv Hp]. split; [done|]. by apply IH.
Qed.

Lemma yields_bind {A B : Type} (inv : string → string → Prop)
    (post1 : A → Prop) (post2 : B → Prop) (fails : exn → Prop)
    (p : prog A) (f : A → prog B) :
  yields inv post1 fails p →
  (∀ a, post1 a → yields inv post2 fails (f a)) →
  yields inv post2 fails (bind p f).
Proof. intros Hp Hf. by apply (yields_handle inv post1 fails). Qed.

Lemma yields_try_catch {A : Type} (inv : string → string → Prop)
    (post : A → Prop) (fails1 fails2 : exn → Prop)
    (p : prog A) (h : exn → prog A) :
  yields inv post fails1 p →
  (∀ e, fails1 e → yields inv post fails2 (h e)) →
  yields inv post fails2 (try_catch p h).
Proof. intros Hp Hh. by apply (yields_handle inv post fails1). Qed.

Lemma yields_lift {A : Type} (inv : string → string → Prop) (post : A → Prop)
    (r : result A) :
  (∀ a, r = inr a → post a) → yields inv post (λ _, True) (lift r).
Proof. destruct r as [e|a]; cbn; auto. Qed.

Lemma yields_call_loop (inv : string → string → Prop) (api : APIClient)
    (prompt : string) (max_tokens timeout : Z) (semaphore : bool)
    (attempts : list Z) :
  yields inv (λ _, True) (λ _, True)
    (call_loop api prompt max_tokens timeout semaphore attempts).
Proof.
  induction attempts as [|attempt rest IH]; [done|]. cbn [call_loop].
  apply (yields_try_catch inv _ (λ _, True)).
  - apply (yields_bind inv (λ _, True)); [|done]. unfold attempt_once.
    apply (yields_bind inv (λ _, True)).
    + destruct semaphore; cbn; by intros [content|e].
    + intros content _. by apply yields_lift.
  - intros e _. destruct e; by destruct (attempt <? max_retries api - 1).
Qed.

Lemma gathered_lookup {A : Type} (ts : list (thread A)) (results : list A)
    (i : nat) (a : A) :
  gathered ts = Some results → results !! i = Some a →
  ts !! i = Some (Running (Ret a)).
Proof.
  revert results i. induction ts as [|t ts IH]; intros results i Hg Hi.
  - injection Hg as <-. by destruct i.
  - destruct t as [[a'|e|k|k|r k|secs k|path k|path k|path content k|k|k]|r k];
      try discriminate Hg. cbn [gathered] in Hg.
    destruct (gathered ts) as [rs|] eqn:E; [|done]. injection Hg as <-.
    destruct i as [|i]; cbn in Hi |- *; [by injection Hi as <-|by eapply IH].
Qed.

Lemma chars_of_append (a b : string) :
  chars_of (a +:+ b) = chars_of a ++ chars_of b.
Proof.
  induction a as [|x a IH]; [done|].
  change (x :: chars_of (a +:+ b) = x :: (chars_of a ++ chars_of b)).
  by rewrite IH.
Qed.

Lemma length_zero_padded (width : nat) (n : Z) :
  length (PyDate.zero_padded width n) = width.
Proof.
  revert n. induction width as [|w IH]; intros n; [done|].
  cbn [PyDate.zero_padded]. rewrite length_app, IH. cbn. lia.
Qed.

(** The file of a key under a date tells the key. *)
Lemma cache_file_key_inj (cache_dir key key' : string) (d d' : date) :
  DateOrganizedCache.cache_file cache_dir key d
  = DateOrganizedCache.cache_file cache_dir key' d' →
  key = key'.
Proof.
  unfold DateOrganizedCache.cache_file, PyDate.strftime_Ym, PyDate.strftime_d.
  pose proof (length_zero_padded 4 (year d)) as Hy.
  pose proof (length_zero_padded 4 (year d')) as Hy'.
  pose proof (length_zero_padded 2 (month d)) as Hm.
  pose proof (length_zero_padded 2 (month d')) as Hm'.
  pose proof (length_zero_padded 2 (day d)) as Hd.
  pose proof (length_zero_padded 2 (day d')) as Hd'.
  generalize dependent (PyDate.zero_padded 4 (year d)).
  generalize dependent (PyDate.zero_padded 4 (year d')).
  generalize dependent (PyDate.zero_padded 2 (month d)).
  generalize dependent (PyDate.zero_padded 2 (month d')).
  generalize dependent (PyDate.zero_padded 2 (day d)).
  generalize dependent (PyDate.zero_padded 2 (day d')).
  intros dd' Hd' dd Hd mm' Hm' mm Hm yy' Hy' yy Hy E.
  apply (f_equal chars_of) in E.
  rewrite !chars_of_append, !JsonFacts.chars_of_str_of in E.
  apply app_inv_head in E.
  change (chars_of "/") with ["/"%char] in E. cbn [app] in E.
  injection E as E. rewrite <- !app_assoc in E.
  apply app_inj_1 in E as [_ E]; [|congruence].
  cbn [app] in E. injection E as E.
  apply app_inj_1 in E as [_ E]; [|congruence].
  injection E as E.
  apply app_inj_1 in E as [_ E]; [|congruence].
  injection E as E. apply app_inv_tail in E.
  rewrite <- (JsonFacts.str_of_chars_of key), <- (JsonFacts.str_of_chars_of key').
  by rewrite E.
Qed.

Lemma init_ticket_id (ticket_id : string) (data : value) (a : TicketAnalysis.t) :
  TicketAnalysis.init ticket_id data = inr a → TicketAnalysis.ticket_id a = ticket_id.
Proof.
  unfold TicketAnalysis.init, init_model. destruct data as [ | | | | | |d]; try done.
  destruct (existsb _ _); [done|].
  destruct (TicketAnalysis.validate ticket_id d) as [a'|] eqn:E; [|done].
  intros [= <-]. unfold TicketAnalysis.validate in E.
  by simplify_option_eq.
Qed.

Lemma yields_any {A : Type} (p : prog A) :
  yields (λ _ _, True) (λ _, True) (λ _, True) p.
Proof.
  induction p as [a|e|k IH|k IH|r k IH|secs k IH|path k IH|path k IH
                 |path content k IH|k IH|k IH]; cbn [yields]; auto.
Qed.

(** The [try] of [extract_with_progress] lets no exception through. *)
Lemma returns_extract_with_progress `{Runtime} (cache_dir : string)
    (api : APIClient) (ticket : Ticket.t) :
  yields (λ _ _, True) (λ _, True) (λ _, False)
    (extract_with_progress cache_dir api ticket).
Proof.
  unfold extract_with_progress.
  apply (yields_bind _ (λ _, True)).
  { unfold ticket_date_of. by destruct (fromisoformat_date _). }
  intros d _. unfold with_progress.
  apply (yields_try_catch _ _ (λ _, True)); [apply yields_any|done].
Qed.

Lemma all_return_step {A : Type} (c c' : pool A) :
  all_return c → step c c' → all_return c'.
Proof.
  unfold all_return. intros Hts Hstep.
  destruct Hstep as [ts sem fs n d i k Hi Hpos
                    |ts sem fs n d i k Hi
                    |ts sem fs n d i r k Hi
                    |ts sem fs n d i r k o Hi
                    |ts sem fs n d i secs k Hi
                    |ts sem fs n d i path k Hi
                    |ts sem fs n d i path k Hi
                    |ts sem fs n d i path content k Hi
                    |ts sem fs n d i k Hi
                    |ts sem fs n d i k Hi];
    cbn [threads] in *; pose proof (Forall_lookup_1 _ _ _ _ Hts Hi) as Ht;
    (apply Forall_insert; [done|]); cbn [thread_yields yields] in *;
    try done.
  - destruct Ht as [Hnone Hsome]. destruct (fs !! path); auto.
  - by destruct Ht.
Qed.

Lemma all_return_steps {A : Type} (c c' : pool A) :
  all_return c → steps c c' → all_return c'.
Proof.
  intros Hc Hsteps. induction Hsteps as [c|c1 c2 c3 _ IH Hstep]; [done|].
  apply (all_return_step c2); [by apply IH|done].
Qed.

Lemma all_return_start `{Runtime} (cache_dir : string) (api : APIClient)
    (tickets : list Ticket.t) (max_concurrent : Z) (fs : gmap string string)
    (clock : date) :
  all_return
    (Pool (map (λ t, Running (extract_with_progress cache_dir api t)) tickets)
       max_concurrent fs 0 clock).
Proof.
  unfold all_return. cbn [threads].
  induction tickets as [|t tickets IH]; constructor; [|done].
  apply returns_extract_with_progress.
Qed.

(** When no coroutine lets an exception through, [gather] returns one
    result per coroutine once they have all ended. *)
Lemma all_return_gathered {A : Type} (c : pool A) :
  all_return c → finished c →
  ∃ results, gathered (threads c) = Some results
             ∧ length results = length (threads c).
Proof.
  unfold all_return, finished. generalize (threads c). intros ts Hts Hfin.
  induction Hts as [|t ts Ht _ IH]; [by exists []|].
  apply Forall_cons in Hfin as [Hend Hfin].
  destruct (IH Hfin) as (results & Hg & Hlen).
  destruct t as [[a|e|k|k|r k|secs k|path k|path k|path content k|k|k]|r k];
    try (by destruct Hend); try done.
  exists (a :: results). cbn [gathered]. rewrite Hg. split; [done|].
  cbn [length]. by rewrite Hlen.
Qed.

Section Extraction.
Context `{Runtime}.
Variables (cache_dir : string) (api : APIClient).
Hypothesis codec : codec_keeps_ticket_id.

Lemma yields_extract_ticket (ticket_id ticket_content : string)
    (ticket_date : date) :
  yields (analysis_file_ok cache_dir)
    (λ a, TicketAnalysis.ticket_id a = ticket_id) (λ _, True)
    (extract_ticket cache_dir api ticket_id ticket_content ticket_date true).
Proof.
  unfold extract_ticket.
  apply (yields_bind _ (λ _, True)); [by intros b|]. intros present _.
  apply (yields_bind _
           (λ cached, ∀ a, cached = Some a → TicketAnalysis.ticket_id a = ticket_id)).
  { destruct present; [|by cbn].
    cbn. intros [|]; cbn; [|done]. split; [done|]. intros text Htext.
    destruct (TicketAnalysis_model_validate_json text) as [e|a] eqn:E; cbn; [done|].
    intros a' [= <-]. by apply (Htext ticket_id ticket_date). }
  intros [a|] Hcached; [by apply Hcached|].
  apply (yields_bind _ (λ _, True)); [apply yields_call_loop|]. intros content _.
  apply (yields_bind _ (λ _, True)); [by apply yields_lift|]. intros data _.
  apply (yields_bind _ (λ a, TicketAnalysis.ticket_id a = ticket_id)).
  { apply yields_lift. intros a. apply init_ticket_id. }
  intros analysis Hid. cbn. split; [|done].
  intros key d a' Hpath Hload. rewrite (codec _ _ Hload), Hid.
  by apply cache_file_key_inj in Hpath.
Qed.

Lemma yields_extract_with_progress (ticket : Ticket.t) :
  yields (analysis_file_ok cache_dir)
    (λ a, TicketAnalysis.ticket_id a = Ticket.id ticket) (λ _, False)
    (extract_with_progress cache_dir api ticket).
Proof.
  unfold extract_with_progress.
  apply (yields_bind _ (λ _, True)).
  { unfold ticket_date_of. by destruct (fromisoformat_date _). }
  intros d _. unfold with_progress.
  apply (yields_try_catch _ _ (λ _, True)); [|done].
  apply (yields_bind _ (λ a, TicketAnalysis.ticket_id a = Ticket.id ticket));
    [apply yields_extract_ticket|done].
Qed.

Lemma keeps_ids_step (tickets : list Ticket.t) (c c' : pool TicketAnalysis.t) :
  keeps_ids cache_dir tickets c → step c c' → keeps_ids cache_dir tickets c'.
Proof.
  intros [Hfs Hts] Hstep. unfold keeps_ids.
  assert (∀ i t t',
            threads c !! i = Some t →
            (∀ ticket,
               thread_yields (analysis_file_ok cache_dir)
                 (λ a, TicketAnalysis.ticket_id a = Ticket.id ticket) (λ _, False) t →
               thread_yields (analysis_file_ok cache_dir)
                 (λ a, TicketAnalysis.ticket_id a = Ticket.id ticket) (λ _, False) t') →
            Forall2 (λ ticket t,
               thread_yields (analysis_file_ok cache_dir)
                 (λ a, TicketAnalysis.ticket_id a = Ticket.id ticket) (λ _, False) t)
              tickets (<[i := t']> (threads c))) as Hins.
  { intros i t t' Hi Ht.
    destruct (Forall2_lookup_r _ _ _ _ _ Hts Hi) as (ticket & Hticket & Hy).
    rewrite <- (list_insert_id tickets i ticket) by done.
    apply Forall2_insert; [done|]. by apply Ht. }
  destruct Hstep as [ts sem fs n d i k Hi Hpos
                    |ts sem fs n d i k Hi
                    |ts sem fs n d i r k Hi
                    |ts sem fs n d i r k o Hi
                    |ts sem fs n d i secs k Hi
                    |ts sem fs n d i path k Hi
                    |ts sem fs n d i path k Hi
                    |ts sem fs n d i path content k Hi
                    |ts sem fs n d i k Hi
                    |ts sem fs n d i k Hi];
    cbn [threads files] in *;
    try (split; [done|]; apply (Hins i _ _ Hi); intros ticket Hy; cbn in *;
         by auto).
  - (* a file is read *)
    split; [done|]. apply (Hins i _ _ Hi). intros ticket [Hnone Hsome]. cbn.
    destruct (fs !! path) as [text|] eqn:E; [|done]. by apply Hsome, (Hfs path).
  - (* a file is written *)
    destruct (Forall2_lookup_r _ _ _ _ _ Hts Hi) as (ticket & Hticket & Hinv & Hy).
    split.
    + intros path' text'. rewrite lookup_insert.
      destruct (decide (path = path')) as [<-|_]; [by intros [= <-]|apply Hfs].
    + apply (Hins i _ _ Hi). by intros ticket' [_ Hy'].
Qed.

Lemma keeps_ids_steps (tickets : list Ticket.t) (c c' : pool TicketAnalysis.t) :
  keeps_ids cache_dir tickets c → steps c c' → keeps_ids cache_dir tickets c'.
Proof.
  intros Hc Hsteps. induction Hsteps as [c|c1 c2 c3 _ IH Hstep]; [done|].
  apply (keeps_ids_step tickets c2); [by apply IH|done].
Qed.

Lemma keeps_ids_start (tickets : list Ticket.t) (max_concurrent : Z)
    (fs : gmap string string) (clock : date) :
  cache_consistent cache_dir fs →
  keeps_ids cache_dir tickets
    (Pool (map (λ t, Running (extract_with_progress cache_dir api t)) tickets)
       max_concurrent fs 0 clock).
Proof.
  intros Hfs. split; [done|]. cbn [threads].
  induction tickets as [|t tickets IH]; constructor; [|done].
  apply yields_extract_with_progress.
Qed.

(** A batch that has ended has returned, for every ticket in order, an
    analysis of that ticket. *)
Lemma keeps_ids_gathered (tickets : list Ticket.t) (c : pool TicketAnalysis.t) :
  keeps_ids cache_dir tickets c → finished c →
  ∃ results,
    gathered (threads c) = Some results
    ∧ Forall2 (λ ticket a, TicketAnalysis.ticket_id a = Ticket.id ticket)
        tickets results.
Proof.
  intros [_ Hts] Hfin. unfold finished in Hfin.
  induction Hts as [|ticket t tickets ts Ht _ IH].
  - by exists [].
  - apply Forall_cons in Hfin as [Hend Hfin].
    destruct (IH Hfin) as (results & Hg & Hres).
    destruct t as [[a|e|k|k|r k|secs k|path k|path k|path content k|k|k]|r k];
      try (by destruct Hend); try done.
    exists (a :: results). cbn [gathered threads]. cbn [threads] in Hg.
    rewrite Hg. split; [done|]. by constructor.
Qed.

End Extraction.

End ResultFacts.

(** ** The batch against its unprotected extractions *)

Module ProtectFacts.

Section Protect.
Context `{Runtime}.

Lemma extract_with_progress_protects (cache_dir : string) (api : APIClient)
    (ticket : Ticket.t) :
  extract_with_progress cache_dir api ticket
  = with_progress ticket (extraction cache_dir api ticket).
Proof.
  unfold extract_with_progress, extraction, ticket_date_of.
  by destruct (fromisoformat_date _).
Qed.

(** A protected coroutine is never at its end before it has counted
    itself completed. *)
Lemma with_progress_not_ended (ticket : Ticket.t) (p : prog TicketAnalysis.t) :
  ended (Running (with_progress ticket p)) = None.
Proof. by destruct p. Qed.

Lemma batch_protects_insert (tickets : list Ticket.t) (i : nat) (ticket : Ticket.t)
    (tr tp : thread TicketAnalysis.t) (rs ps : list (thread TicketAnalysis.t))
    (sem sem' : Z) (fs fs' : gmap string string) (n n' m m' : Z) (d : date) :
  batch_protects tickets (Pool rs sem fs n d) (Pool ps sem fs m d) →
  tickets !! i = Some ticket → protects ticket tr tp →
  batch_protects tickets (Pool (<[i := tr]> rs) sem' fs' n' d)
    (Pool (<[i := tp]> ps) sem' fs' m' d).
Proof.
  intros (_ & _ & _ & Hlr & Hlp & Hat) Hticket Hprot.
  cbn [threads semaphore_value files today] in *.
  unfold batch_protects. cbn [threads semaphore_value files today].
  rewrite !length_insert. do 5 (split; [done|]).
  intros j ticket' Hj. destruct (decide (i = j)) as [<-|Hne].
  - rewrite Hticket in Hj. injection Hj as <-.
    exists tr, tp. rewrite !list_lookup_insert_eq; [done|..].
    + rewrite Hlp. by apply lookup_lt_is_Some_1.
    + rewrite Hlr. by apply lookup_lt_is_Some_1.
  - rewrite !list_lookup_insert_ne by done. by apply Hat.
Qed.

Lemma batch_protects_at (tickets : list Ticket.t) (i : nat)
    (tp : thread TicketAnalysis.t) (raw protected : pool TicketAnalysis.t) :
  batch_protects tickets raw protected →
  threads protected !! i = Some tp →
  ∃ ticket tr, tickets !! i = Some ticket ∧ threads raw !! i = Some tr
               ∧ protects ticket tr tp.
Proof.
  intros (_ & _ & _ & Hlr & Hlp & Hat) Hi.
  destruct (lookup_lt_is_Some_2 tickets i) as [ticket Hticket].
  { rewrite <- Hlp. apply lookup_lt_is_Some_1. by eexists. }
  destruct (Hat i ticket Hticket) as (tr & tp' & Hr & Hp & Hprot).
  rewrite Hi in Hp. injection Hp as <-. by exists ticket, tr.
Qed.

(** Every step of the batch is a step, or no step, of the batch of the
    unprotected extractions. *)
Lemma protects_step (tickets : list Ticket.t) (raw c c' : pool TicketAnalysis.t) :
  batch_protects tickets raw c → step c c' →
  ∃ raw', (raw' = raw ∨ step raw raw') ∧ batch_protects tickets raw' c'.
Proof.
  intros Hrel Hstep. destruct raw as [rs rsem rfs rn rd].
  destruct Hstep as [ts sem fs n d i k Hi Hpos
                    |ts sem fs n d i k Hi
                    |ts sem fs n d i r k Hi
                    |ts sem fs n d i r k o Hi
                    |ts sem fs n d i secs k Hi
                    |ts sem fs n d i path k Hi
                    |ts sem fs n d i path k Hi
                    |ts sem fs n d i path content k Hi
                    |ts sem fs n d i k Hi
                    |ts sem fs n d i k Hi];
    destruct (batch_protects_at tickets i _ _ _ Hrel Hi)
      as (ticket & tr & Hticket & Hr & Hprot);
    pose proof Hrel as (Hsem & Hfs & Hd & _);
    cbn [threads semaphore_value files today] in *; subst rsem rfs rd;
    inversion Hprot as [p Ep Ew|r' k' Ep Ew|a Ep Ew|e Ep Ew]; subst tr;
    try discriminate Ew;
    try (destruct p as [a|e|k0|k0|r0 k0|secs0 k0|path0 k0|path0 k0
                         |path0 content0 k0|k0|k0];
         try discriminate Ew; injection Ew as <-).
  - eexists. split; [right; by eapply (step_acquire _ _ _ _ _ i)|].
    eapply (batch_protects_insert tickets i ticket); [exact Hrel|done|apply protects_running].
  - eexists. split; [right; by eapply (step_release _ _ _ _ _ i)|].
    eapply (batch_protects_insert tickets i ticket); [exact Hrel|done|apply protects_running].
  - subst. eexists. split; [right; by eapply (step_send _ _ _ _ _ i)|].
    eapply (batch_protects_insert tickets i ticket); [exact Hrel|done|apply protects_in_flight].
  - eexists. split; [right; by eapply (step_receive _ _ _ _ _ i _ _ o)|].
    eapply (batch_protects_insert tickets i ticket); [exact Hrel|done|apply protects_running].
  - subst. eexists. split; [right; by eapply (step_sleep _ _ _ _ _ i)|].
    eapply (batch_protects_insert tickets i ticket); [exact Hrel|done|apply protects_running].
  - subst. eexists. split; [right; by eapply (step_exists _ _ _ _ _ i)|].
    eapply (batch_protects_insert tickets i ticket); [exact Hrel|done|apply protects_running].
  - subst. eexists. split; [right; by eapply (step_read _ _ _ _ _ i)|].
    eapply (batch_protects_insert tickets i ticket); [exact Hrel|done|apply protects_running].
  - subst. eexists. split; [right; by eapply (step_write _ _ _ _ _ i)|].
    eapply (batch_protects_insert tickets i ticket); [exact Hrel|done|apply protects_running].
  - eexists. split; [right; by eapply (step_today _ _ _ _ _ i)|].
    eapply (batch_protects_insert tickets i ticket); [exact Hrel|done|apply protects_running].
  - (* the extraction returned: the result is passed on *)
    exists (Pool (<[i := Running (Ret a)]> rs) sem fs rn d). split.
    + left. by rewrite list_insert_id.
    + eapply (batch_protects_insert tickets i ticket); [exact Hrel|done|apply protects_returned].
  - (* the extraction raised: the placeholder takes its place *)
    exists (Pool (<[i := Running (Raise e)]> rs) sem fs rn d). split.
    + left. by rewrite list_insert_id.
    + eapply (batch_protects_insert tickets i ticket); [exact Hrel|done|apply protects_raised].
  - eexists. split; [right; by eapply (step_completed _ _ _ _ _ i)|].
    eapply (batch_protects_insert tickets i ticket); [exact Hrel|done|apply protects_running].
Qed.

Lemma protects_steps (tickets : list Ticket.t) (raw0 c0 c : pool TicketAnalysis.t) :
  batch_protects tickets raw0 c0 → steps c0 c →
  ∃ raw, steps raw0 raw ∧ batch_protects tickets raw c.
Proof.
  intros Hrel Hsteps. induction Hsteps as [c|c1 c2 c3 _ IH Hstep].
  - exists raw0. split; [constructor|done].
  - destruct (IH Hrel) as (raw & Hraw & Hrel2).
    destruct (protects_step tickets raw c2 c3 Hrel2 Hstep)
      as (raw' & [->|Hstep'] & Hrel3).
    + by exists raw.
    + exists raw'. split; [|done]. by eapply steps_step.
Qed.

Lemma batch_protects_start (cache_dir : string) (api : APIClient)
    (tickets : list Ticket.t) (max_concurrent : Z) (fs : gmap string string)
    (clock : date) :
  batch_protects tickets
    (extraction_batch cache_dir api tickets max_concurrent fs clock)
    (Pool (map (λ t, Running (extract_with_progress cache_dir api t)) tickets)
       max_concurrent fs 0 clock).
Proof.
  unfold extraction_batch, batch_protects.
  cbn [threads semaphore_value files today]. rewrite !length_map.
  repeat split; try done. intros i ticket Hi.
  eexists _, _. rewrite !list_lookup_fmap, Hi. cbn [fmap option_map option_fmap].
  split; [done|]. split; [done|].
  rewrite extract_with_progress_protects. constructor.
Qed.

(** At the end of the batch, the result of a ticket is what its
    extraction returned, or the placeholder of what it raised. *)
Lemma protects_ended (ticket : Ticket.t) (tr : thread TicketAnalysis.t)
    (a : TicketAnalysis.t) :
  protects ticket tr (Running (Ret a)) →
  ended tr = Some (inr a)
  ∨ ∃ e, ended tr = Some (inl e) ∧ a = placeholder ticket e
         ∧ TicketAnalysis.category a = "error".
Proof.
  intros Hprot. inversion Hprot as [p Ep Ew| |a' Ep Ew|e Ep Ew]; subst.
  - by destruct p.
  - by left.
  - right. by exists e.
Qed.

End Protect.

End ProtectFacts.

(** ** The reference runtime *)

Module ReferenceFacts.

Lemma strs_strs_value (l : list string) : strs (map JStr l) = Some l.
Proof. induction l as [|s l IH]; [done|]. cbn [map strs]. by rewrite IH. Qed.

Lemma well_formed_strs_value (l : list string) :
  Json.well_formed (Reference.strs_value l) = true.
Proof. cbn. by induction l. Qed.

(** Decoding an encoded analysis gives it back. *)
Lemma load_dump_analysis (a : TicketAnalysis.t) :
  Reference.load_analysis (Reference.dump_analysis a) = inr a.
Proof.
  unfold Reference.load_analysis, Reference.dump_analysis.
  rewrite JsonFacts.loads_dumps.
  - destruct a as [id cat area sent prio themes summ].
    unfold Reference.analysis_value, TicketAnalysis.validate, field_str, field_strs.
    cbn. by rewrite strs_strs_value.
  - unfold Reference.analysis_value. cbn [Json.well_formed].
    pose proof (well_formed_strs_value (TicketAnalysis.themes a)) as Hw.
    cbn in Hw |- *. by rewrite Hw.
Qed.

Lemma reference_codec_keeps_ticket_id :
  codec_keeps_ticket_id (H := Reference.runtime).
Proof.
  intros a a'. cbn [TicketAnalysis_model_validate_json
                     TicketAnalysis_model_dump_json Reference.runtime].
  rewrite load_dump_analysis. by intros [= <-].
Qed.

(** The coroutine of a ticket whose analysis is cached: it finds the
    file, reads it, counts itself and returns what the file decodes to. *)
Lemma cached_coroutine `{Runtime} (cache_dir : string) (api : APIClient)
    (ticket : Ticket.t) (d : date) (text : string) (a : TicketAnalysis.t)
    (sem : Z) (fs : gmap string string) (n : Z) (clock : date) :
  fromisoformat_date
    (str_of (Text.replace_char "Z" (chars_of "+00:00")
               (chars_of (Ticket.created_at ticket)))) = Some d →
  fs !! DateOrganizedCache.cache_file cache_dir (Ticket.id ticket) d = Some text →
  TicketAnalysis_model_validate_json text = inr a →
  steps (Pool [Running (extract_with_progress cache_dir api ticket)] sem fs n clock)
    (Pool [Running (Ret a)] sem fs (n + 1) clock).
Proof.
  intros Hd Hfile Hload.
  unfold extract_with_progress, ticket_date_of. rewrite Hd.
  unfold with_progress, extract_ticket, DateOrganizedCache.exists_dated,
    DateOrganizedCache.get_dated, path_exists, read_text, try_catch, bind.
  cbn [handle].
  eapply steps_step;
    [eapply steps_step;
       [eapply steps_step; [eapply steps_step; [apply steps_refl|]|]|]|].
  - eapply (step_exists _ _ _ _ _ 0%nat). reflexivity.
  - change (<[0%nat := ?t]> [?x]) with [t].
    rewrite bool_decide_true by (by eexists). cbn [handle].
    eapply (step_exists _ _ _ _ _ 0%nat). reflexivity.
  - change (<[0%nat := ?t]> [?x]) with [t].
    rewrite bool_decide_true by (by eexists). cbn [handle].
    eapply (step_read _ _ _ _ _ 0%nat). reflexivity.
  - change (<[0%nat := ?t]> [?x]) with [t].
    rewrite Hfile. cbn [handle lift]. rewrite Hload. cbn [handle lift].
    apply (step_completed [Running (Completed (Ret a))] sem fs n clock 0%nat (Ret a)).
    reflexivity.
Qed.

Lemma cache_consistent_empty (cache_dir : string) :
  cache_consistent (H := Reference.runtime) cache_dir ∅.
Proof. intros path text Hpath. by rewrite lookup_empty in Hpath. Qed.

(** A cache that holds one analysis, in the file of its own ticket. *)
Lemma cache_consistent_singleton (cache_dir : string) (d : date)
    (a : TicketAnalysis.t) :
  cache_consistent (H := Reference.runtime) cache_dir
    {[ DateOrganizedCache.cache_file cache_dir (TicketAnalysis.ticket_id a) d
       := Reference.dump_analysis a ]}.
Proof.
  intros path text Hpath. apply lookup_singleton_Some in Hpath as [<- <-].
  intros key d' a' Hfile Hload. apply ResultFacts.cache_file_key_inj in Hfile as <-.
  cbn [TicketAnalysis_model_validate_json Reference.runtime] in Hload.
  rewrite load_dump_analysis in Hload. by injection Hload as <-.
Qed.

End ReferenceFacts.




(** ** Saving to the cache and reading it back *)

Module StoreFacts.
Import RunFacts CacheFacts.

Lemma digit_char_inj (a b : nat) :
  (a < 10)%nat → (b < 10)%nat → Json.digit_char a = Json.digit_char b → a = b.
Proof.
  intros Ha Hb E. unfold Json.digit_char in E.
  apply (f_equal nat_of_ascii) in E.
  rewrite !nat_ascii_embedding in E by lia. lia.
Qed.

(** The zero-padded field tells the number up to the width. *)
Lemma zero_padded_inj (width : nat) (n n' : Z) :
  PyDate.zero_padded width n = PyDate.zero_padded width n' →
  n mod 10 ^ Z.of_nat width = n' mod 10 ^ Z.of_nat width.
Proof.
  revert n n'. induction width as [|w IH]; intros n n' E.
  - by rewrite !Z.mod_1_r.
  - cbn [PyDate.zero_padded] in E. apply app_inj_2 in E as [E1 E2]; [|done].
    injection E2 as E2. apply IH in E1.
    apply digit_char_inj in E2.
    2,3: pose proof (Z.mod_pos_bound n 10); pose proof (Z.mod_pos_bound n' 10); lia.
    assert (n mod 10 = n' mod 10) as E3.
    { pose proof (Z.mod_pos_bound n 10). pose proof (Z.mod_pos_bound n' 10). lia. }
    replace (10 ^ Z.of_nat (S w)) with (10 * 10 ^ Z.of_nat w)
      by (rewrite Nat2Z.inj_succ, Z.pow_succ_r; lia).
    rewrite !Z.rem_mul_r by lia. by rewrite E1, E3.
Qed.

Lemma days_in_month_le (y m : Z) : PyDate.days_in_month y m ≤ 31.
Proof.
  unfold PyDate.days_in_month.
  destruct (m =? 2); [destruct (PyDate.is_leap y); lia|].
  destruct ((m =? 4) || (m =? 6) || (m =? 9) || (m =? 11)); lia.
Qed.

Lemma days_in_month_ge (y m : Z) : 28 ≤ PyDate.days_in_month y m.
Proof.
  unfold PyDate.days_in_month.
  destruct (m =? 2); [destruct (PyDate.is_leap y); lia|].
  destruct ((m =? 4) || (m =? 6) || (m =? 9) || (m =? 11)); lia.
Qed.

Lemma valid_bounds (d : date) :
  PyDate.valid d = true →
  1 ≤ year d ≤ 9999 ∧ 1 ≤ month d ≤ 12
  ∧ 1 ≤ day d ≤ PyDate.days_in_month (year d) (month d).
Proof.
  unfold PyDate.valid. rewrite !andb_true_iff, !Z.leb_le. tauto.
Qed.

Lemma app_sep_inj {A : Type} (l1 k1 l2 k2 : list A) (c : A) :
  length l1 = length k1 → l1 ++ c :: l2 = k1 ++ c :: k2 → l1 = k1 ∧ l2 = k2.
Proof.
  intros Hl E. apply app_inj_1 in E as [-> E]; [|done]. by injection E as ->.
Qed.

(** The three fields of a valid date are told by their paddings. *)
Lemma padded_fields_inj (d d' : date) :
  PyDate.valid d = true → PyDate.valid d' = true →
  PyDate.zero_padded 4 (year d) = PyDate.zero_padded 4 (year d') →
  PyDate.zero_padded 2 (month d) = PyDate.zero_padded 2 (month d') →
  PyDate.zero_padded 2 (day d) = PyDate.zero_padded 2 (day d') →
  d = d'.
Proof.
  intros Hv Hv' Ey Em Ed.
  apply valid_bounds in Hv as (Hy & Hm & Hd).
  apply valid_bounds in Hv' as (Hy' & Hm' & Hd').
  pose proof (days_in_month_le (year d) (month d)).
  pose proof (days_in_month_le (year d') (month d')).
  apply zero_padded_inj in Ey, Em, Ed.
  change (10 ^ Z.of_nat 4) with 10000 in Ey.
  change (10 ^ Z.of_nat 2) with 100 in Em, Ed.
  rewrite !Z.mod_small in Ey, Em, Ed by lia.
  destruct d, d'; cbn in *; congruence.
Qed.

(** [isoformat] tells the date. *)
Lemma isoformat_inj (d d' : date) :
  PyDate.valid d = true → PyDate.valid d' = true →
  PyDate.isoformat d = PyDate.isoformat d' → d = d'.
Proof.
  intros Hv Hv' E. unfold PyDate.isoformat in E.
  apply (f_equal chars_of) in E. rewrite !JsonFacts.chars_of_str_of in E.
  apply app_sep_inj in E as [Ey E];
    [|by rewrite !ResultFacts.length_zero_padded].
  apply app_sep_inj in E as [Em E];
    [|by rewrite !ResultFacts.length_zero_padded].
  by apply padded_fields_inj.
Qed.

(** The file of a key in a flat cache tells the key. *)
Lemma flat_cache_file_inj (cache_dir key key' : string) :
  FileCache.cache_file cache_dir key = FileCache.cache_file cache_dir key' →
  key = key'.
Proof.
  unfold FileCache.cache_file. intros E. apply (f_equal chars_of) in E.
  rewrite !ResultFacts.chars_of_append in E.
  apply app_inv_head in E. apply app_inv_head in E. apply app_inv_tail in E.
  rewrite <- (JsonFacts.str_of_chars_of key), <- (JsonFacts.str_of_chars_of key').
  by rewrite E.
Qed.

(** The file of a key under a valid date tells the date. *)
Lemma cache_file_date_inj (cache_dir key key' : string) (d d' : date) :
  PyDate.valid d = true → PyDate.valid d' = true →
  DateOrganizedCache.cache_file cache_dir key d
  = DateOrganizedCache.cache_file cache_dir key' d' →
  d = d'.
Proof.
  intros Hv Hv'.
  unfold DateOrganizedCache.cache_file, PyDate.strftime_Ym, PyDate.strftime_d.
  intros E. apply (f_equal chars_of) in E.
  rewrite !ResultFacts.chars_of_append, !JsonFacts.chars_of_str_of in E.
  apply app_inv_head in E.
  change (chars_of "/") with ["/"%char] in E. cbn [app] in E.
  apply (app_sep_inj [] []) in E as [_ E]; [|done].
  rewrite <- !app_assoc in E. cbn [app] in E.
  apply app_sep_inj in E as [Ey E];
    [|by rewrite !ResultFacts.length_zero_padded].
  apply app_sep_inj in E as [Em E];
    [|by rewrite !ResultFacts.length_zero_padded].
  apply app_sep_inj in E as [Ed E];
    [|by rewrite !ResultFacts.length_zero_padded].
  by apply padded_fields_inj.
Qed.

Lemma run_save {T : Type} (service : service_t) (cache_dir key : string) (v : T)
    (serializer : T → string) (w : world) :
  run service (FileCache.save cache_dir key v serializer) w
  = (Returned tt,
     World (<[FileCache.cache_file cache_dir key := serializer v]> (w_files w))
       (w_semaphore w) (w_today w) (w_served w) (w_trace w)).
Proof. done. Qed.

Lemma run_save_dated {T : Type} (service : service_t) (cache_dir key : string)
    (target_date : date) (v : T) (serializer : T → string) (w : world) :
  run service (DateOrganizedCache.save_dated cache_dir key target_date v serializer) w
  = (Returned tt,
     World (<[DateOrganizedCache.cache_file cache_dir key target_date
              := serializer v]> (w_files w))
       (w_semaphore w) (w_today w) (w_served w) (w_trace w)).
Proof. done. Qed.

Lemma run_exists_dated (service : service_t) (cache_dir key : string)
    (target_date : date) (w : world) :
  run service (DateOrganizedCache.exists_dated cache_dir key target_date) w
  = (Returned
       (bool_decide
          (is_Some (w_files w
                    !! DateOrganizedCache.cache_file cache_dir key target_date))),
     w).
Proof. done. Qed.

End StoreFacts.

(** [FileCache]: round trip.  After [save] under a key, [exists] for that
    key is true and [get] gives what the loader makes of what the
    serializer wrote: the loaded record, or the exception of the loader.
    Whatever was stored under the key before is replaced, and nothing
    else in the world changes. *)
Theorem file_cache_save_get {T U : Type} (service : service_t)
    (cache_dir key : string) (v : T) (serializer : T → string)
    (loader : string → result U) (w : world) :
  run service
    (FileCache.save cache_dir key v serializer ;;
     present <- FileCache.exists_ cache_dir key ;;
     found <- FileCache.get cache_dir key loader ;;
     Ret (present, found))%prog w
  = (match loader (serializer v) with
     | inr u => Returned (true, Some u)
     | inl e => Raised e
     end,
     World (<[FileCache.cache_file cache_dir key := serializer v]> (w_files w))
       (w_semaphore w) (w_today w) (w_served w) (w_trace w)).
Proof.
  rewrite RunFacts.run_bind, StoreFacts.run_save.
  rewrite RunFacts.run_bind, CacheFacts.run_exists.
  cbn [w_files]. rewrite lookup_insert_eq.
  rewrite bool_decide_eq_true_2 by done.
  rewrite RunFacts.run_bind, CacheFacts.run_get. cbn [w_files].
  rewrite lookup_insert_eq. by destruct (loader (serializer v)).
Qed.

(** [DateOrganizedCache]: round trip.  After [save_dated] under a key and
    a date, [exists_dated] for them is true and [get_dated] gives what the
    loader makes of what the serializer wrote. *)
Theorem dated_cache_save_get {T U : Type} (service : service_t)
    (cache_dir key : string) (target_date : date) (v : T)
    (serializer : T → string) (loader : string → result U) (w : world) :
  run service
    (DateOrganizedCache.save_dated cache_dir key target_date v serializer ;;
     present <- DateOrganizedCache.exists_dated cache_dir key target_date ;;
     found <- DateOrganizedCache.get_dated cache_dir key target_date loader ;;
     Ret (present, found))%prog w
  = (match loader (serializer v) with
     | inr u => Returned (true, Some u)
     | inl e => Raised e
     end,
     World (<[DateOrganizedCache.cache_file cache_dir key target_date
              := serializer v]> (w_files w))
       (w_semaphore w) (w_today w) (w_served w) (w_trace w)).
Proof.
  rewrite RunFacts.run_bind, StoreFacts.run_save_dated.
  rewrite RunFacts.run_bind, StoreFacts.run_exists_dated.
  cbn [w_files]. rewrite lookup_insert_eq.
  rewrite bool_decide_eq_true_2 by done.
  rewrite RunFacts.run_bind, CacheFacts.run_get_dated. cbn [w_files].
  rewrite lookup_insert_eq. by destruct (loader (serializer v)).
Qed.

(** [DateOrganizedCache]: entries do not disturb one another.  For keys
    that are single path components and valid dates, saving under one key
    and date leaves [get_dated] and [exists_dated] of every other key or
    other date as they were. *)
Theorem dated_cache_save_other {T U : Type} (service : service_t)
    (cache_dir key key' : string) (d d' : date) (v : T)
    (serializer : T → string) (loader : string → result U) (w : world) :
  "/"%char ∉ chars_of key → "/"%char ∉ chars_of key' →
  PyDate.valid d = true → PyDate.valid d' = true →
  (key, d) ≠ (key', d') →
  let w' :=
    (run service (DateOrganizedCache.save_dated cache_dir key d v serializer) w).2 in
  (run service (DateOrganizedCache.get_dated cache_dir key' d' loader) w').1
  = (run service (DateOrganizedCache.get_dated cache_dir key' d' loader) w).1
  ∧ (run service (DateOrganizedCache.exists_dated cache_dir key' d') w').1
    = (run service (DateOrganizedCache.exists_dated cache_dir key' d') w).1.
Proof.
  intros _ _ Hv Hv' Hne w'. subst w'.
  rewrite StoreFacts.run_save_dated. cbn [snd].
  rewrite !CacheFacts.run_get_dated, !StoreFacts.run_exists_dated.
  cbn [fst w_files]. rewrite lookup_insert_ne; [done|].
  intros E. apply Hne. f_equal.
  - by apply ResultFacts.cache_file_key_inj in E.
  - by apply StoreFacts.cache_file_date_inj in E.
Qed.

Lemma dated_cache_save_other_witness :
  (run Sample.failing
     (DateOrganizedCache.get_dated "cache" "ticket_1" (Date 2024 3 1)
        Reference.load_analysis)
     (run Sample.failing
        (DateOrganizedCache.save_dated "cache" "ticket_1" (Date 2024 3 2)
           Sample.analysis Reference.dump_analysis) (Sample.world_with ∅)).2).1
  = Returned None.
Proof.
  refine (eq_trans
            (proj1 (dated_cache_save_other Sample.failing "cache" "ticket_1" "ticket_1"
                      (Date 2024 3 2) (Date 2024 3 1) Sample.analysis
                      Reference.dump_analysis Reference.load_analysis
                      (Sample.world_with ∅) _ _ _ _ _)) _).
  - vm_compute. intros Hin. repeat (inversion Hin as [|? ? ? Hin']; subst; clear Hin; rename Hin' into Hin).
  - vm_compute. intros Hin. repeat (inversion Hin as [|? ? ? Hin']; subst; clear Hin; rename Hin' into Hin).
  - reflexivity.
  - reflexivity.
  - intros E. discriminate E.
  - reflexivity.
Defined.

(** [FileCache]: entries do not disturb one another.  For keys that are
    single path components, saving under one key leaves [get] and
    [exists] of every other key as they were. *)
Theorem file_cache_save_other {T U : Type} (service : service_t)
    (cache_dir key key' : string) (v : T)
    (serializer : T → string) (loader : string → result U) (w : world) :
  "/"%char ∉ chars_of key → "/"%char ∉ chars_of key' →
  key ≠ key' →
  let w' := (run service (FileCache.save cache_dir key v serializer) w).2 in
  (run service (FileCache.get cache_dir key' loader) w').1
  = (run service (FileCache.get cache_dir key' loader) w).1
  ∧ (run service (FileCache.exists_ cache_dir key') w').1
    = (run service (FileCache.exists_ cache_dir key') w).1.
Proof.
  intros _ _ Hne w'. subst w'. rewrite StoreFacts.run_save. cbn [snd].
  rewrite !CacheFacts.run_get, !CacheFacts.run_exists.
  cbn [fst w_files]. rewrite lookup_insert_ne; [done|].
  intros E. by apply StoreFacts.flat_cache_file_inj in E.
Qed.

Lemma file_cache_save_other_witness :
  (run Sample.failing
     (FileCache.get "cache" "2024-03-01" Reference.load_summary)
     (run Sample.failing
        (FileCache.save "cache" "2024-03-02"
           (Sample.summary_of (Date 2024 3 2) "stable") Reference.dump_summary)
        (Sample.world_with ∅)).2).1
  = Returned None.
Proof.
  refine (eq_trans
            (proj1 (file_cache_save_other Sample.failing "cache" "2024-03-02"
                      "2024-03-01" (Sample.summary_of (Date 2024 3 2) "stable")
                      Reference.dump_summary Reference.load_summary
                      (Sample.world_with ∅) _ _ _)) _).
  - vm_compute. intros Hin. repeat (inversion Hin as [|? ? ? Hin']; subst; clear Hin; rename Hin' into Hin).
  - vm_compute. intros Hin. repeat (inversion Hin as [|? ? ? Hin']; subst; clear Hin; rename Hin' into Hin).
  - intros E. discriminate E.
  - reflexivity.
Defined.

(** The summaries of two different days never share a cache file: the
    key of a day is its ISO date, which tells the day. *)
Theorem summary_files_distinct (cache_dir : string) (d d' : date) :
  PyDate.valid d = true → PyDate.valid d' = true → d ≠ d' →
  FileCache.cache_file cache_dir (PyDate.isoformat d)
  ≠ FileCache.cache_file cache_dir (PyDate.isoformat d').
Proof.
  intros Hv Hv' Hne E. apply Hne.
  apply StoreFacts.flat_cache_file_inj in E. by apply StoreFacts.isoformat_inj.
Qed.

Lemma summary_files_distinct_witness :
  FileCache.cache_file "data/summaries" (PyDate.isoformat (Date 2024 2 29))
  ≠ FileCache.cache_file "data/summaries" (PyDate.isoformat (Date 2024 3 1)).
Proof.
  apply summary_files_distinct; [reflexivity|reflexivity|].
  intros E. discriminate E.
Defined.

(** ** What [parse_json] recovers, and what it does not *)

Module RecoverFacts.
Import JsonSpec JsonFacts ParseJsonFacts.

(** No text that starts with such a character decodes. *)
Lemma loads_chars_no_start (c : ascii) (s : chars) :
  starts_no_value c = true → Json.loads_chars (c :: s) = None.
Proof.
  intros Hc. unfold starts_no_value in Hc.
  rewrite !andb_true_iff, !negb_true_iff in Hc. destruct Hc as [[Hws Hdig] Hin].
  cbn [existsb chars_of list_ascii_of_string] in Hin.
  rewrite !orb_false_iff in Hin.
  destruct Hin as (Hq & H1 & H2 & H3 & H4 & H5 & H6 & H7 & H8 & _).
  unfold Json.loads_chars. cbn [Json.skip_ws]. rewrite Hws.
  cbn [Json.parse_value]. rewrite Hq, H1, H2, H3, H4, H5, H7, H8, H6.
  unfold Json.parse_number. rewrite H6. cbn [Json.read_digits]. by rewrite Hdig.
Qed.

Section AnyDecoder.
Context {V : Type} (json_loads : chars → option V).

(** The scan returns only what some prefix of the text decodes to. *)
Lemma scan_with_none (content : chars) (i : nat) (st : scan_state) (todo : chars) :
  (∀ n, json_loads (take (S n) content) = None) →
  scan_with json_loads content i st todo = None.
Proof.
  intros Hnone. revert i st. induction todo as [|char todo IH]; intros i st; [done|].
  cbn [scan_with]. rewrite Hnone.
  repeat match goal with
         | |- context [if ?b then _ else _] => destruct b
         end; apply IH.
Qed.

(** The scan tries a prefix only at a closing brace or bracket. *)
Lemma scan_with_no_closer (content : chars) (i : nat) (st : scan_state)
    (todo : chars) :
  forallb (λ c, negb (is_closer c)) todo = true →
  scan_with json_loads content i st todo = None.
Proof.
  revert i st. induction todo as [|char todo IH]; intros i st Hall; [done|].
  cbn [forallb] in Hall. apply andb_true_iff in Hall as [Hc Hall].
  apply negb_true_iff in Hc. unfold is_closer in Hc.
  cbn [scan_with]. rewrite Hc, andb_false_r.
  repeat match goal with
         | |- context [if ?b then _ else _] => destruct b
         end; by apply IH.
Qed.

End AnyDecoder.

Lemma rfind_go_app (c : ascii) (i last : Z) (s t : chars) :
  Text.rfind_go c i last (s ++ t)
  = Text.rfind_go c (i + Z.of_nat (length s)) (Text.rfind_go c i last s) t.
Proof.
  revert i last. induction s as [|a s IH]; intros i last.
  - cbn. by rewrite Z.add_0_r.
  - cbn [app Text.rfind_go length]. rewrite IH. f_equal. lia.
Qed.

Lemma rfind_go_absent (c : ascii) (i last : Z) (s : chars) :
  forallb (λ a, negb (Ascii.eqb a c)) s = true → Text.rfind_go c i last s = last.
Proof.
  revert i. induction s as [|a s IH]; intros i Hall; [done|].
  cbn [forallb] in Hall. apply andb_true_iff in Hall as [Ha Hall].
  apply negb_true_iff in Ha. cbn [Text.rfind_go]. rewrite Ha. by apply IH.
Qed.

Lemma rfind_go_bound (c : ascii) (i last : Z) (s : chars) :
  last < i → last ≤ Text.rfind_go c i last s < i + Z.of_nat (length s).
Proof.
  revert i last. induction s as [|a s IH]; intros i last Hlt.
  - cbn. lia.
  - cbn [Text.rfind_go length]. destruct (Ascii.eqb a c).
    + pose proof (IH (i + 1) i). lia.
    + pose proof (IH (i + 1) last). lia.
Qed.

Lemma no_closer_absent (c : ascii) (s : chars) :
  is_closer c = true →
  forallb (λ a, negb (is_closer a)) s = true →
  forallb (λ a, negb (Ascii.eqb a c)) s = true.
Proof.
  intros Hc Hall. induction s as [|a s IH]; [done|].
  cbn [forallb] in *. apply andb_true_iff in Hall as [Ha Hall].
  rewrite IH by done. rewrite andb_true_r.
  apply negb_true_iff. apply negb_true_iff in Ha.
  destruct (Ascii.eqb_spec a c) as [->|]; [congruence|done].
Qed.

(** The last closing brace or bracket of a text that ends with one and
    is followed by none. *)
Lemma last_close_app (body tail : chars) (c : ascii) :
  is_closer c = true →
  forallb (λ a, negb (is_closer a)) tail = true →
  Z.max (Text.rfind "}" (body ++ c :: tail)) (Text.rfind "]" (body ++ c :: tail))
  = Z.of_nat (length body).
Proof.
  intros Hc Htail. unfold Text.rfind. rewrite !rfind_go_app.
  cbn [Text.rfind_go]. rewrite Z.add_0_l.
  rewrite (rfind_go_absent "}"), (rfind_go_absent "]")
    by (by apply no_closer_absent).
  pose proof (rfind_go_bound "}" 0 (-1) body ltac:(lia)).
  pose proof (rfind_go_bound "]" 0 (-1) body ltac:(lia)).
  unfold is_closer in Hc. apply orb_true_iff in Hc as [Hc|Hc].
  - rewrite Hc. destruct (Ascii.eqb c "]"); lia.
  - rewrite Hc. destruct (Ascii.eqb c "}"); lia.
Qed.

(** An encoded container is read back whatever follows it. *)
Lemma parse_value_container (v : value) (fuel : nat) (rest : chars) :
  is_container v = true → Json.well_formed v = true →
  (2 * length (Json.dumps_chars v ++ rest) < fuel)%nat →
  Json.parse_value fuel (Json.dumps_chars v ++ rest) = Some (v, rest).
Proof.
  intros Hcont Hwf Hfuel. destruct fuel as [|fuel]; [lia|].
  destruct v as [ | b | n | x | s | l | d]; try discriminate Hcont.
  - cbn [Json.well_formed] in Hwf. cbn [Json.dumps_chars] in *.
    cbn [app] in *. rewrite <- app_assoc in *. cbn [app] in *.
    destruct l as [|v l]; [reflexivity|].
    remember (v :: l) as l' eqn:El.
    cbn [Json.parse_value]. change (Ascii.eqb "[" quote_char) with false.
    change (Ascii.eqb "[" "[") with true. cbn iota.
    assert (∃ c s, Json.join_chars (chars_of ", ") (map Json.dumps_chars l') = c :: s
                   ∧ value_start c = true) as (c & s & E & Hc).
    { subst l'. cbn [map Json.join_chars]. cbn [forallb] in Hwf.
      apply andb_true_iff in Hwf as [Hwv _].
      destruct (dumps_head v Hwv) as (c & s & E & Hc).
      rewrite E. destruct (map Json.dumps_chars l); by eexists _, _. }
    pose proof (parse_elems_reads_back l') as Hl.
    rewrite E in *. cbn [app] in *. rewrite skip_ws_start by done.
    assert (Ascii.eqb c "]" = false) as ->.
    { unfold value_start in Hc. rewrite !andb_true_iff in Hc.
      destruct Hc as [[[[_ Hc] _] _] _]. by apply negb_true_iff. }
    rewrite Hl; [done|by subst l'| |done|].
    + apply Forall_forall. intros x _. apply parse_value_reads_back.
    + cbn [length] in *. lia.
  - cbn [Json.well_formed] in Hwf. apply andb_true_iff in Hwf as [Hk Hwf].
    rewrite dumps_dict in *.
    cbn [app] in *. rewrite <- app_assoc in *. cbn [app] in *.
    destruct d as [|kv d]; [reflexivity|].
    remember (kv :: d) as d' eqn:Ed.
    cbn [Json.parse_value]. change (Ascii.eqb "{" quote_char) with false.
    change (Ascii.eqb "{" "[") with false.
    change (Ascii.eqb "{" "{") with true. cbn iota.
    assert (∃ s, Json.join_chars (chars_of ", ") (map dump_member d')
                 = quote_char :: s) as (s & E).
    { subst d'. cbn [map Json.join_chars]. destruct kv as [k x].
      destruct (map dump_member d); by eexists. }
    pose proof (parse_members_reads_back d') as Hm.
    rewrite E in *. cbn [app] in *.
    change (Json.skip_ws (quote_char :: ?x)) with (quote_char :: x).
    change (Ascii.eqb quote_char "}") with false. cbn iota.
    rewrite Hm; [|by subst d'| |done|cbn [length] in *; lia].
    + by rewrite dict_of_pairs_distinct.
    + apply Forall_forall. intros x _. apply parse_value_reads_back.
Qed.

(** An encoded container ends with its closing brace or bracket. *)
Lemma dumps_container_last (v : value) :
  is_container v = true →
  ∃ body c, Json.dumps_chars v = body ++ [c] ∧ is_closer c = true ∧ body ≠ [].
Proof.
  intros Hcont. destruct v as [ | b | n | x | s | l | d]; try discriminate Hcont.
  - cbn [Json.dumps_chars]. by eexists (_ :: _), _.
  - rewrite dumps_dict. by eexists (_ :: _), _.
Qed.

Lemma lstrip_app (x y : chars) :
  Text.lstrip (x ++ y)
  = if decide (Text.lstrip x = []) then Text.lstrip y else Text.lstrip x ++ y.
Proof.
  induction x as [|c x IH]; [done|].
  cbn [app Text.lstrip]. destruct (Text.isspace c); [done|].
  by destruct (decide _).
Qed.

(** Stripping a text that starts with a clean piece. *)
Lemma strip_app_clean (a t : chars) (c c' : ascii) (s s' : chars) :
  a = c :: s → a = s' ++ [c'] →
  Text.isspace c = false → Text.isspace c' = false →
  Text.strip (a ++ t) = a ++ Text.rstrip t.
Proof.
  intros E E' Hc Hc'. unfold Text.strip, Text.rstrip.
  rewrite E at 1. cbn [app]. rewrite lstrip_head by done.
  change (c :: s ++ t) with ((c :: s) ++ t). rewrite <- E.
  rewrite rev_app_distr, lstrip_app.
  destruct (decide (Text.lstrip (rev t) = [])) as [Hnil|Hnot].
  - rewrite Hnil. cbn [rev]. rewrite app_nil_r.
    rewrite E', rev_app_distr. cbn [rev app]. rewrite lstrip_head by done.
    change (c' :: rev s') with (rev [c'] ++ rev s').
    by rewrite <- rev_app_distr, rev_involutive.
  - by rewrite rev_app_distr, rev_involutive.
Qed.

Lemma lstrip_suffix (s : chars) : ∃ pre, s = pre ++ Text.lstrip s.
Proof.
  induction s as [|c s [pre IH]]; [by exists []|].
  cbn [Text.lstrip]. destruct (Text.isspace c); [|by exists []].
  exists (c :: pre). cbn [app]. by rewrite <- IH.
Qed.

Lemma rstrip_prefix (s : chars) : ∃ post, s = Text.rstrip s ++ post.
Proof.
  unfold Text.rstrip. destruct (lstrip_suffix (rev s)) as [pre E].
  exists (rev pre). rewrite <- rev_app_distr, <- E. by rewrite rev_involutive.
Qed.

Lemma no_closer_rstrip (t : chars) :
  forallb (λ a, negb (is_closer a)) t = true →
  forallb (λ a, negb (is_closer a)) (Text.rstrip t) = true.
Proof.
  intros Hall. destruct (rstrip_prefix t) as [post E].
  rewrite E, forallb_app in Hall. by apply andb_true_iff in Hall as [? _].
Qed.

(** The recovery on an encoded container followed by text without a
    closing brace or bracket. *)
Lemma recover_container (v : value) (tail : chars) :
  is_container v = true → Json.well_formed v = true →
  forallb (λ a, negb (is_closer a)) tail = true →
  recover (Json.dumps_chars v ++ tail) = inr v.
Proof.
  intros Hcont Hwf Htail. unfold recover, recover_with.
  destruct (Json.loads_chars (Json.dumps_chars v ++ tail)) as [v'|] eqn:Eall.
  - (* the whole text decodes: then to [v] *)
    unfold Json.loads_chars in Eall.
    destruct (dumps_head v Hwf) as (c & s & E & Hc).
    assert (Json.skip_ws (Json.dumps_chars v ++ tail) = Json.dumps_chars v ++ tail)
      as Hskip by (rewrite E; cbn [app]; by apply skip_ws_start).
    rewrite Hskip in Eall.
    rewrite parse_value_container in Eall by (done || lia).
    destruct (Json.skip_ws tail); [|done]. by injection Eall as ->.
  - destruct (dumps_container_last v Hcont) as (body & c & E & Hc & Hbody).
    rewrite E, <- app_assoc. cbn [app].
    rewrite last_close_app by done.
    assert ((0 <? Z.of_nat (length body)) = true) as ->.
    { apply Z.ltb_lt. destruct body; [done|cbn [length]; lia]. }
    replace (Z.to_nat (Z.of_nat (length body) + 1)) with (S (length body)) by lia.
    replace (take (S (length body)) (body ++ c :: tail)) with (body ++ [c]).
    + by rewrite <- E, loads_chars_dumps_chars.
    + change (c :: tail) with ([c] ++ tail). rewrite app_assoc.
      rewrite take_app_length'; [done|]. rewrite length_app. cbn. lia.
Qed.

End RecoverFacts.

(** [parse_json] never recovers a value that something else precedes.
    When the trimmed response starts with a character that no JSON text
    starts with, and with no code fence, then whatever follows, also a
    complete JSON object, [parse_json] raises [JSONDecodeError], with the
    last 500 characters of the text in its message, the text as its
    document and the index of the last character as its position: the
    truncation and the scan both decode prefixes of the text. *)
Theorem parse_json_leading_prose (content : string) (c : ascii) (t : chars) :
  Text.strip (chars_of content) = c :: t →
  starts_no_value c = true → c ≠ "`"%char →
  parse_json content = inl (decode_error (c :: t)).
Proof.
  intros Hstrip Hc Hfence. unfold parse_json, parse_json_with, working_text.
  rewrite Hstrip.
  assert (Text.startswith (chars_of "```") (c :: t) = false) as ->.
  { cbn [chars_of list_ascii_of_string Text.startswith].
    destruct (Ascii.eqb_spec "`" c) as [E|]; [by subst c|done]. }
  unfold recover_with. rewrite RecoverFacts.loads_chars_no_start by done.
  assert (∀ n, Json.loads_chars (take (S n) (c :: t)) = None) as Hnone.
  { intros n. cbn [take]. by apply RecoverFacts.loads_chars_no_start. }
  set (last_close := Z.max _ _).
  assert ((if 0 <? last_close
           then Json.loads_chars (take (Z.to_nat (last_close + 1)) (c :: t))
           else None) = None) as ->.
  { destruct (0 <? last_close) eqn:E; [|done]. apply Z.ltb_lt in E.
    replace (Z.to_nat (last_close + 1)) with (S (Z.to_nat last_close)) by lia.
    apply Hnone. }
  by rewrite RecoverFacts.scan_with_none.
Qed.

Lemma parse_json_leading_prose_witness :
  parse_json ("Here it is: {" +:+ quote_str +:+ "a" +:+ quote_str +:+ ": 1}")
  = inl (decode_error
           (chars_of ("Here it is: {" +:+ quote_str +:+ "a" +:+ quote_str +:+ ": 1}"))).
Proof.
  apply (parse_json_leading_prose _ "H"
           (chars_of ("ere it is: {" +:+ quote_str +:+ "a" +:+ quote_str +:+ ": 1}"))).
  - reflexivity.
  - reflexivity.
  - intros E. discriminate E.
Defined.

(** [parse_json] recovers an object or an array that text follows.  When
    the response is the encoding of a list or a dict followed by any text
    without a closing brace or bracket, [parse_json] returns that list or
    dict: either the whole decodes (the text is whitespace), or the
    truncation at the last closing brace or bracket does. *)
Theorem parse_json_trailing_prose (v : value) (tail : string) :
  is_container v = true → Json.well_formed v = true →
  forallb (λ a, negb (is_closer a)) (chars_of tail) = true →
  parse_json (Json.dumps v +:+ tail) = inr v.
Proof.
  intros Hcont Hwf Htail.
  unfold parse_json, parse_json_with, working_text, Json.dumps.
  rewrite ResultFacts.chars_of_append, JsonFacts.chars_of_str_of.
  destruct (JsonFacts.dumps_head v Hwf) as (c & s & E & Hc).
  destruct (JsonFacts.dumps_last v Hwf) as (s' & c' & E' & Hc').
  unfold JsonSpec.value_start in Hc. rewrite !andb_true_iff, !negb_true_iff in Hc.
  destruct Hc as [[[[_ _] _] Hsp] Hfence].
  rewrite (RecoverFacts.strip_app_clean _ _ c c' s s') by done.
  assert (Text.startswith (chars_of "```")
            (Json.dumps_chars v ++ Text.rstrip (chars_of tail)) = false) as ->.
  { rewrite E. cbn [app chars_of list_ascii_of_string Text.startswith].
    by rewrite Ascii.eqb_sym, Hfence. }
  apply RecoverFacts.recover_container; [done|done|].
  by apply RecoverFacts.no_closer_rstrip.
Qed.

Lemma parse_json_trailing_prose_witness :
  parse_json (Json.dumps (JDict [("a", JList [JInt 1; JInt 2])])
              +:+ " I hope this helps.")
  = inr (JDict [("a", JList [JInt 1; JInt 2])]).
Proof.
  apply (parse_json_trailing_prose (JDict [("a", JList [JInt 1; JInt 2])])
           " I hope this helps."); reflexivity.
Defined.

(** [parse_json] on a text without any closing brace or bracket.
    Whatever decoder [json.loads] is: when the working text, after the
    fence is removed, holds no closing brace or bracket, the result is
    what the decoder gives on the whole working text, and its failure is
    final, since neither the truncation nor the scan has a prefix to try:
    [parse_json] then raises its own [JSONDecodeError]. *)
Theorem parse_json_no_closer {V : Type} (json_loads : chars → option V)
    (content : string) :
  forallb (λ a, negb (is_closer a)) (working_text (chars_of content)) = true →
  parse_json_with json_loads content
  = match json_loads (working_text (chars_of content)) with
    | Some v => inr v
    | None => inl (decode_error (working_text (chars_of content)))
    end.
Proof.
  intros Hall. unfold parse_json_with.
  set (t := working_text (chars_of content)) in *.
  unfold recover_with. destruct (json_loads t) as [v|]; [done|].
  unfold Text.rfind.
  rewrite !RecoverFacts.rfind_go_absent
    by (by apply RecoverFacts.no_closer_absent).
  change (0 <? Z.max (-1) (-1)) with false. cbn iota.
  by rewrite RecoverFacts.scan_with_no_closer.
Qed.

Lemma parse_json_no_closer_witness :
  parse_json ("{" +:+ quote_str +:+ "category" +:+ quote_str +:+ ": ")
  = inl (decode_error
           (chars_of ("{" +:+ quote_str +:+ "category" +:+ quote_str +:+ ":")))
  ∧ parse_json " 0.25 " = inr (JFloat (S754_finite false 4503599627370496 (-54))).
Proof.
  split.
  - apply (parse_json_no_closer Json.loads_chars
             ("{" +:+ quote_str +:+ "category" +:+ quote_str +:+ ": ")).
    reflexivity.
  - apply (parse_json_no_closer Json.loads_chars " 0.25 "). reflexivity.
Defined.

(** ** [call] and the semaphore *)

(** [call] gives the semaphore back.  Started with a free slot, or
    without a semaphore, [call] never blocks, and when it ends, by a
    return or by an exception, the semaphore has the value it had, the
    files are untouched, and at most [max_retries] requests were
    answered. *)
Theorem call_restores_semaphore (service : service_t) (api : APIClient)
    (prompt : string) (max_tokens timeout : Z) (semaphore : bool) (w : world) :
  (semaphore = true → 0 < w_semaphore w) →
  ∃ (result : run_result (option string)) (w' : world),
    run service (call api prompt max_tokens timeout semaphore) w = (result, w')
    ∧ result ≠ Blocked
    ∧ w_semaphore w' = w_semaphore w
    ∧ w_files w' = w_files w
    ∧ (w_served w ≤ w_served w' ≤ w_served w + Z.to_nat (max_retries api))%nat.
Proof.
  intros Hsem.
  destruct (RunFacts.run_call service api prompt max_tokens timeout semaphore w Hsem)
    as (k & result & w' & Hrun & Hk & _ & Hn & Hf & Hs & _ & _ & Hend).
  exists result, w'. repeat split; try done; try lia.
  destruct k as [|j]; [by destruct Hend as [_ ->]|].
  destruct (attempt_result _); [by destruct Hend as [_ ->]|by subst].
Qed.

Lemma call_restores_semaphore_witness :
  ∃ (result : run_result (option string)) (w' : world),
    run Sample.failing (call default_client "prompt" 1024 60 true)
      (Sample.world_with ∅) = (result, w')
    ∧ result ≠ Blocked
    ∧ w_semaphore w' = 10
    ∧ w_files w' = ∅
    ∧ (0 ≤ w_served w' ≤ 3)%nat.
Proof.
  apply (call_restores_semaphore Sample.failing default_client "prompt" 1024 60 true
           (Sample.world_with ∅)).
  intros _. reflexivity.
Defined.

(** [call] on an exhausted semaphore.  With a semaphore at zero and at
    least one attempt to make, a coroutine running alone blocks at the
    first [async with], before any request is sent. *)
Theorem call_blocks_without_slot (service : service_t) (api : APIClient)
    (prompt : string) (max_tokens timeout : Z) (w : world) :
  w_semaphore w ≤ 0 → 0 < max_retries api →
  run service (call api prompt max_tokens timeout true) w = (Blocked, w).
Proof.
  intros Hsem Hmax. unfold call, range.
  destruct (Z.to_nat (max_retries api)) as [|m] eqn:Em; [lia|].
  cbn [seq map call_loop].
  rewrite RunFacts.run_try_catch, RunFacts.run_bind. unfold attempt_once.
  rewrite RunFacts.run_bind. unfold async_with_semaphore. cbn [run].
  by assert ((0 <? w_semaphore w) = false) as -> by (apply Z.ltb_ge; lia).
Qed.

Lemma call_blocks_without_slot_witness :
  run Sample.failing (call default_client "prompt" 1024 60 true)
    (World ∅ 0 Sample.clock 0 [])
  = (Blocked, World ∅ 0 Sample.clock 0 []).
Proof.
  apply (call_blocks_without_slot Sample.failing default_client "prompt" 1024 60
           (World ∅ 0 Sample.clock 0 [])); reflexivity.
Defined.

(** A client that makes no attempt.  With [max_retries] at zero or
    below, the loop of [call] has no round: [call] returns [None] without
    a request, and an extraction that misses the cache then fails on
    [None.strip()] with [AttributeError], leaving the world as it was. *)
Theorem extract_ticket_without_attempts `{Runtime} (service : service_t)
    (cache_dir : string) (api : APIClient) (ticket_id ticket_content : string)
    (ticket_date : date) (semaphore : bool) (w : world) :
  max_retries api ≤ 0 →
  w_files w !! DateOrganizedCache.cache_file cache_dir ticket_id ticket_date = None →
  run service (call api (EXTRACT_PROMPT_format ticket_content) 1024 default_timeout
                 semaphore) w
  = (Returned None, w)
  ∧ run service
      (extract_ticket cache_dir api ticket_id ticket_content ticket_date semaphore) w
    = (Raised (AttributeError "'NoneType' object has no attribute 'strip'"), w).
Proof.
  intros Hmax Hfile.
  assert (∀ prompt max_tokens,
            call api prompt max_tokens default_timeout semaphore = Ret None) as Hcall.
  { intros prompt max_tokens. unfold call, range.
    by replace (Z.to_nat (max_retries api)) with O by lia. }
  split; [by rewrite Hcall|].
  unfold extract_ticket.
  rewrite RunFacts.run_bind, StoreFacts.run_exists_dated, Hfile.
  rewrite bool_decide_eq_false_2 by (by intros [? ?]).
  rewrite RunFacts.run_bind. cbn [run]. by rewrite Hcall.
Qed.

Lemma extract_ticket_without_attempts_witness :
  run Sample.failing
    (extract_ticket (H := Reference.runtime) "data/analyses"
       (APIClient_ "claude-haiku-4-5" 0) "ticket_7" "The page times out"
       (Date 2024 3 1) true) (Sample.world_with ∅)
  = (Raised (AttributeError "'NoneType' object has no attribute 'strip'"),
     Sample.world_with ∅).
Proof.
  apply (extract_ticket_without_attempts (H := Reference.runtime) Sample.failing
           "data/analyses" (APIClient_ "claude-haiku-4-5" 0) "ticket_7"
           "The page times out" (Date 2024 3 1) true (Sample.world_with ∅));
    reflexivity.
Defined.

(** ** The three layers, one call at a time *)

Module LayerFacts.
Import RunFacts CacheFacts StoreFacts.

(** The first attempt of [call] succeeded: [call] returns its text after
    one request. *)
Lemma run_call_first (service : service_t) (api : APIClient) (prompt : string)
    (max_tokens timeout : Z) (semaphore : bool) (w : world) (text : string) :
  (semaphore = true → 0 < w_semaphore w) →
  0 < max_retries api →
  attempt_result
    (service (w_served w) (Request_ (model api) max_tokens prompt timeout))
  = inr text →
  ∃ w', run service (call api prompt max_tokens timeout semaphore) w
        = (Returned (Some text), w')
        ∧ w_files w' = w_files w ∧ w_semaphore w' = w_semaphore w
        ∧ w_today w' = w_today w ∧ w_served w' = S (w_served w).
Proof.
  intros Hsem Hmax Hfirst.
  destruct (run_call service api prompt max_tokens timeout semaphore w Hsem)
    as (k & result & w' & Hrun & Hk & _ & Hn & Hf & Hs & Ht & Hfail & Hend).
  destruct k as [|[|k]].
  - destruct Hend as [Hle _]. lia.
  - rewrite Nat.add_0_r, Hfirst in Hend. subst result.
    exists w'. repeat split; try done. lia.
  - destruct (Hfail O) as [e He]; [lia|].
    rewrite Nat.add_0_r in He. congruence.
Qed.

Lemma run_extract_ticket_hit `{Runtime} (service : service_t) (cache_dir : string)
    (api : APIClient) (ticket_id ticket_content : string) (ticket_date : date)
    (semaphore : bool) (w : world) (text : string) (analysis : TicketAnalysis.t) :
  w_files w !! DateOrganizedCache.cache_file cache_dir ticket_id ticket_date
  = Some text →
  TicketAnalysis_model_validate_json text = inr analysis →
  run service
    (extract_ticket cache_dir api ticket_id ticket_content ticket_date semaphore) w
  = (Returned analysis, w).
Proof.
  intros Hfile Hload. unfold extract_ticket.
  rewrite run_bind, run_exists_dated, Hfile.
  rewrite bool_decide_eq_true_2 by done.
  by rewrite run_bind, run_get_dated, Hfile, Hload.
Qed.

Lemma world_eta (w : world) :
  World (w_files w) (w_semaphore w) (w_today w) (w_served w) (w_trace w) = w.
Proof. by destruct w. Qed.

Lemma dict_set_same (k : string) (v : value) (d : list (string * value)) :
  Json.dict_get k d = Some v → Json.dict_set k v d = d.
Proof.
  induction d as [|[k0 v0] d IH]; cbn [Json.dict_get Json.dict_set]; [done|].
  destruct (String.eqb k0 k); [by intros [= ->]|]. intros Hd. by rewrite IH.
Qed.

Lemma update_present_same `{Runtime} (k : string) (f : value → value) (v : value)
    (d : list (string * value)) :
  Json.dict_get k d = Some v → f v = v → update_present k f d = d.
Proof.
  intros Hd Hf. unfold update_present. rewrite Hd, Hf. by apply dict_set_same.
Qed.

Lemma strs_inv (l : list value) (r : list string) :
  strs l = Some r → l = map JStr r.
Proof.
  revert r. induction l as [|x l IH]; intros r Hs.
  - by injection Hs as <-.
  - cbn [strs] in Hs. destruct x as [ | | | |s| | ]; try discriminate Hs.
    destruct (strs l) as [r'|]; [|done]. injection Hs as <-.
    cbn [map]. by rewrite (IH r').
Qed.

Lemma strs_py_str `{Runtime} (f : value → value) (l : list value) :
  (∀ x, is_dict x = false → f x = JStr (py_str x)) →
  forallb (λ x, negb (is_dict x)) l = true →
  strs (map f l) = Some (map py_str l).
Proof.
  intros Hf. induction l as [|x l IH]; intros Hall; [done|].
  cbn [forallb] in Hall. apply andb_true_iff in Hall as [Hx Hall].
  apply negb_true_iff in Hx. cbn [map strs]. rewrite (Hf x Hx).
  by rewrite IH.
Qed.

Section Normalize.
Context `{Runtime}.

Lemma dict_get_summary_body (k : string) (d : list (string * value)) :
  Json.dict_get k (Summarizer_normalize.body d)
  = option_map (summary_field_rule k) (Json.dict_get k d).
Proof.
  unfold Summarizer_normalize.body, summary_field_rule.
  rewrite !NormalizeFacts.dict_get_update_present.
  destruct (String.eqb_spec "key_themes" k) as [<-|]; [by destruct (Json.dict_get _ d)|].
  destruct (String.eqb_spec "critical_issues" k) as [<-|];
    [by destruct (Json.dict_get _ d)|].
  destruct (String.eqb_spec "trend_analysis" k) as [<-|];
    by destruct (Json.dict_get _ d).
Qed.

Lemma has_key_summary_body (k : string) (d : list (string * value)) :
  has_key k (Summarizer_normalize.body d) = has_key k d.
Proof.
  unfold has_key. rewrite dict_get_summary_body. by destruct (Json.dict_get k d).
Qed.

End Normalize.

End LayerFacts.

(** ** Layer 1 *)

(** An extraction that misses the cache and returns.  The analysis it
    returns carries the id of the ticket, whatever the response said; the
    encoded analysis has been written to the cache file of the ticket and
    nothing else was written; the semaphore is back at its value.  When
    the codec reads back what it wrote, the same extraction run again
    finds the analysis in the cache and sends nothing. *)
Theorem extract_ticket_miss `{Runtime} (service : service_t) (cache_dir : string)
    (api : APIClient) (ticket_id ticket_content : string) (ticket_date : date)
    (semaphore : bool) (w w' : world) (a : TicketAnalysis.t) :
  (semaphore = true → 0 < w_semaphore w) →
  w_files w !! DateOrganizedCache.cache_file cache_dir ticket_id ticket_date = None →
  run service
    (extract_ticket cache_dir api ticket_id ticket_content ticket_date semaphore) w
  = (Returned a, w') →
  TicketAnalysis.ticket_id a = ticket_id
  ∧ w_files w'
    = <[DateOrganizedCache.cache_file cache_dir ticket_id ticket_date
        := TicketAnalysis_model_dump_json a]> (w_files w)
  ∧ w_semaphore w' = w_semaphore w
  ∧ (TicketAnalysis_model_validate_json (TicketAnalysis_model_dump_json a) = inr a →
     run service
       (extract_ticket cache_dir api ticket_id ticket_content ticket_date semaphore) w'
     = (Returned a, w')).
Proof.
  intros Hsem Hfile. unfold extract_ticket at 1.
  rewrite RunFacts.run_bind, StoreFacts.run_exists_dated, Hfile.
  rewrite bool_decide_eq_false_2 by (by intros [? ?]).
  rewrite RunFacts.run_bind. cbn [run]. rewrite RunFacts.run_bind.
  destruct (RunFacts.run_call service api (EXTRACT_PROMPT_format ticket_content)
              1024 default_timeout semaphore w Hsem)
    as (k & result & w1 & Hrun & _ & _ & _ & Hf & Hs & _ & _ & _).
  rewrite Hrun. destruct result as [content|e|]; [|done..].
  rewrite RunFacts.run_bind, RunFacts.run_lift.
  destruct (parse_json_of content) as [e|data]; [done|].
  rewrite RunFacts.run_bind, RunFacts.run_lift.
  destruct (TicketAnalysis.init ticket_id data) as [e|a0] eqn:Einit; [done|].
  rewrite RunFacts.run_bind, StoreFacts.run_save_dated. cbn [run].
  intros [= <- <-]. cbn [w_files w_semaphore]. rewrite Hf, Hs.
  split; [by apply (ResultFacts.init_ticket_id _ data)|]. split; [done|].
  split; [done|]. intros Hcodec.
  apply (LayerFacts.run_extract_ticket_hit _ _ _ _ _ _ _ _
           (TicketAnalysis_model_dump_json a0)); [|done].
  cbn [w_files]. by rewrite lookup_insert_eq.
Qed.

Lemma extract_ticket_miss_witness :
  ∃ a w',
    run (Sample.answering (Json.dumps (JDict [("category", JStr "bug");
                                              ("product_area", JStr "checkout");
                                              ("sentiment", JStr "negative");
                                              ("priority", JStr "high");
                                              ("themes", JList [JStr "payment"]);
                                              ("summary", JStr "Times out")])))
      (extract_ticket (H := Reference.runtime) "data/analyses" default_client
         "ticket_7" "The payment page times out" (Date 2024 3 1) true)
      (Sample.world_with ∅) = (Returned a, w')
    ∧ TicketAnalysis.ticket_id a = "ticket_7"
    ∧ w_files w' !! "data/analyses/2024-03/01/ticket_7.json"
      = Some (Reference.dump_analysis a).
Proof.
  eexists _, _. split; [vm_compute; reflexivity|].
  destruct (extract_ticket_miss (H := Reference.runtime)
              (Sample.answering (Json.dumps (JDict [("category", JStr "bug");
                                                    ("product_area", JStr "checkout");
                                                    ("sentiment", JStr "negative");
                                                    ("priority", JStr "high");
                                                    ("themes", JList [JStr "payment"]);
                                                    ("summary", JStr "Times out")])))
              "data/analyses" default_client "ticket_7" "The payment page times out"
              (Date 2024 3 1) true (Sample.world_with ∅) _ _
              ltac:(intros _; reflexivity) ltac:(reflexivity)
              ltac:(vm_compute; reflexivity))
    as (Hid & Hfiles & _ & _).
  split; [exact Hid|]. rewrite Hfiles. apply lookup_insert_eq.
Defined.

(** A response that names the ticket itself.  When the first response
    decodes to an object with a member [ticket_id], the construction
    [TicketAnalysis(ticket_id=ticket_id, **data)] gets the keyword twice:
    the extraction raises [TypeError] after its one request, and writes
    nothing. *)
Theorem extract_ticket_repeated_id `{Runtime} (service : service_t)
    (cache_dir : string) (api : APIClient) (ticket_id ticket_content : string)
    (ticket_date : date) (semaphore : bool) (w : world) (text : string)
    (d : list (string * value)) :
  (semaphore = true → 0 < w_semaphore w) →
  0 < max_retries api →
  w_files w !! DateOrganizedCache.cache_file cache_dir ticket_id ticket_date = None →
  attempt_result
    (service (w_served w)
       (Request_ (model api) 1024 (EXTRACT_PROMPT_format ticket_content)
          default_timeout))
  = inr text →
  parse_json text = inr (JDict d) →
  is_Some (Json.dict_get "ticket_id" d) →
  ∃ w', run service
          (extract_ticket cache_dir api ticket_id ticket_content ticket_date semaphore)
          w
        = (Raised (TypeError "got multiple values for keyword argument"), w')
        ∧ w_files w' = w_files w ∧ w_served w' = S (w_served w).
Proof.
  intros Hsem Hmax Hfile Hfirst Hparse [v Hv]. unfold extract_ticket.
  rewrite RunFacts.run_bind, StoreFacts.run_exists_dated, Hfile.
  rewrite bool_decide_eq_false_2 by (by intros [? ?]).
  rewrite RunFacts.run_bind. cbn [run]. rewrite RunFacts.run_bind.
  destruct (LayerFacts.run_call_first service api _ 1024 default_timeout semaphore
              w text Hsem Hmax Hfirst) as (w' & -> & Hf & _ & _ & Hn).
  rewrite RunFacts.run_bind, RunFacts.run_lift. cbn [parse_json_of].
  rewrite Hparse. rewrite RunFacts.run_bind, RunFacts.run_lift.
  unfold TicketAnalysis.init, init_model. cbn [existsb]. unfold has_key.
  rewrite Hv. cbn [orb]. by exists w'.
Qed.

Lemma extract_ticket_repeated_id_witness :
  ∃ w', run (Sample.answering
               (Json.dumps (JDict [("ticket_id", JStr "ticket_7");
                                   ("category", JStr "bug")])))
          (extract_ticket (H := Reference.runtime) "data/analyses" default_client
             "ticket_7" "The payment page times out" (Date 2024 3 1) true)
          (Sample.world_with ∅)
        = (Raised (TypeError "got multiple values for keyword argument"), w')
        ∧ w_files w' = ∅ ∧ w_served w' = 1%nat.
Proof.
  apply (extract_ticket_repeated_id (H := Reference.runtime) _ "data/analyses"
           default_client "ticket_7" "The payment page times out" (Date 2024 3 1)
           true (Sample.world_with ∅)
           (Json.dumps (JDict [("ticket_id", JStr "ticket_7");
                               ("category", JStr "bug")]))
           [("ticket_id", JStr "ticket_7"); ("category", JStr "bug")]).
  - intros _. reflexivity.
  - reflexivity.
  - reflexivity.
  - reflexivity.
  - vm_compute. reflexivity.
  - by eexists.
Defined.

(** ** Layer 2 *)

(** A cached summary is returned as it is.  When the file of the day
    decodes, [summarize_day] returns the decoded summary whatever analyses
    it is given: nothing is counted, sent or written, and the ticket count
    of the result is the cached one. *)
Theorem summarize_day_cached `{Runtime} (service : service_t) (cache_dir : string)
    (api : APIClient) (target_date : date) (analyses : list TicketAnalysis.t)
    (w : world) (text : string) (s : DailySummary.t) :
  w_files w !! FileCache.cache_file cache_dir (PyDate.isoformat target_date)
  = Some text →
  DailySummary_model_validate_json text = inr s →
  run service (summarize_day cache_dir api target_date analyses) w = (Returned s, w).
Proof.
  intros Hfile Hload. unfold summarize_day.
  rewrite RunFacts.run_bind, CacheFacts.run_exists, Hfile.
  rewrite bool_decide_eq_true_2 by done.
  by rewrite RunFacts.run_bind, CacheFacts.run_get, Hfile, Hload.
Qed.

Lemma summarize_day_cached_witness :
  run Sample.failing
    (summarize_day (H := Reference.runtime) "data/summaries" default_client
       (Date 2024 3 1) [Sample.analysis])
    (Sample.world_with
       {[ "data/summaries/2024-03-01.json"
          := Reference.dump_summary (Sample.summary_of (Date 2024 3 1) "stable") ]})
  = (Returned (Sample.summary_of (Date 2024 3 1) "stable"),
     Sample.world_with
       {[ "data/summaries/2024-03-01.json"
          := Reference.dump_summary (Sample.summary_of (Date 2024 3 1) "stable") ]}).
Proof.
  apply (summarize_day_cached (H := Reference.runtime) Sample.failing
           "data/summaries" default_client (Date 2024 3 1) [Sample.analysis] _
           (Reference.dump_summary (Sample.summary_of (Date 2024 3 1) "stable")));
    [reflexivity|vm_compute; reflexivity].
Defined.

(** A summary that is computed.  When the day has no cache file and
    [summarize_day] returns, the summary carries the target date and the
    number of analyses as its ticket count, and its encoding has been
    written to the file of the day; no other file was written. *)
Theorem summarize_day_miss `{Runtime} (service : service_t) (cache_dir : string)
    (api : APIClient) (target_date : date) (analyses : list TicketAnalysis.t)
    (w w' : world) (s : DailySummary.t) :
  w_files w !! FileCache.cache_file cache_dir (PyDate.isoformat target_date) = None →
  run service (summarize_day cache_dir api target_date analyses) w = (Returned s, w') →
  DailySummary.date s = target_date
  ∧ DailySummary.ticket_count s = Z.of_nat (length analyses)
  ∧ w_files w'
    = <[FileCache.cache_file cache_dir (PyDate.isoformat target_date)
        := DailySummary_model_dump_json s]> (w_files w).
Proof.
  intros Hfile. unfold summarize_day.
  rewrite RunFacts.run_bind, CacheFacts.run_exists, Hfile.
  rewrite bool_decide_eq_false_2 by (by intros [? ?]).
  rewrite RunFacts.run_bind. cbn [run]. rewrite RunFacts.run_bind, RunFacts.run_lift.
  destruct (PyDate.minus_one_day target_date) as [e|yesterday]; [done|].
  rewrite RunFacts.run_bind, CacheFacts.run_exists.
  assert (∀ prev : option DailySummary.t,
            run service
              (let previous_summary :=
                 match prev with
                 | Some p => DailySummary.trend_analysis p
                 | None => "No previous summary"
                 end in
               let prompt := summarize_prompt analyses previous_summary in
               content <- call api prompt 2048 default_timeout false ;;
               data <- lift (parse_json_of content) ;;
               data <- lift (Summarizer_normalize data) ;;
               summary <-
                 lift (DailySummary.init target_date
                         (Z.of_nat (length analyses)) data) ;;
               FileCache.save cache_dir (PyDate.isoformat target_date) summary
                 DailySummary_model_dump_json ;;
               Ret summary)%prog w = (Returned s, w') →
            DailySummary.date s = target_date
            ∧ DailySummary.ticket_count s = Z.of_nat (length analyses)
            ∧ w_files w'
              = <[FileCache.cache_file cache_dir (PyDate.isoformat target_date)
                  := DailySummary_model_dump_json s]> (w_files w)) as Htail.
  { intros prev. cbv zeta. rewrite RunFacts.run_bind.
    destruct (RunFacts.run_call service api
                (summarize_prompt analyses
                   match prev with
                   | Some p => DailySummary.trend_analysis p
                   | None => "No previous summary"
                   end) 2048 default_timeout false w)
      as (k & result & w1 & Hrun & _ & _ & _ & Hf & _); [done|].
    rewrite Hrun. destruct result as [content|e|]; [|done..].
    rewrite RunFacts.run_bind, RunFacts.run_lift.
    destruct (parse_json_of content) as [e|data]; [done|].
    rewrite RunFacts.run_bind, RunFacts.run_lift.
    destruct (Summarizer_normalize data) as [e|data']; [done|].
    rewrite RunFacts.run_bind, RunFacts.run_lift.
    destruct (DailySummary.init target_date (Z.of_nat (length analyses)) data')
      as [e|s0] eqn:Einit; [done|].
    rewrite RunFacts.run_bind, StoreFacts.run_save. cbn [run].
    intros [= <- <-]. cbn [w_files]. rewrite Hf.
    unfold DailySummary.init, init_model in Einit.
    destruct data' as [ | | | | | |d]; try done.
    destruct (existsb _ _); [done|].
    destruct (DailySummary.validate _ _ d) as [s1|] eqn:Ev; [|done].
    injection Einit as <-. unfold DailySummary.validate in Ev.
    by simplify_option_eq. }
  destruct (w_files w !! FileCache.cache_file cache_dir (PyDate.isoformat yesterday))
    as [text|] eqn:Ey.
  - rewrite bool_decide_eq_true_2 by done.
    rewrite RunFacts.run_bind, CacheFacts.run_get, Ey.
    destruct (DailySummary_model_validate_json text) as [e|p]; [done|].
    apply (Htail (Some p)).
  - rewrite bool_decide_eq_false_2 by (by intros [? ?]).
    rewrite RunFacts.run_bind. cbn [run]. apply (Htail None).
Qed.

Lemma summarize_day_miss_witness :
  ∃ s w',
    run (Sample.answering
           (Json.dumps (JDict [("key_themes", JList [JStr "payment"]);
                               ("trend_analysis", JStr "stable");
                               ("critical_issues", JList [])])))
      (summarize_day (H := Reference.runtime) "data/summaries" default_client
         (Date 2024 3 1) [Sample.analysis]) (Sample.world_with ∅)
    = (Returned s, w')
    ∧ DailySummary.date s = Date 2024 3 1
    ∧ DailySummary.ticket_count s = 1.
Proof.
  destruct (run _ _ _) as [res w'] eqn:Erun.
  destruct res as [s|e|]; [|vm_compute in Erun; discriminate Erun..].
  exists s, w'. split; [reflexivity|].
  apply (summarize_day_miss (H := Reference.runtime)) in Erun as (Hd & Hn & _);
    [|reflexivity].
  split; [exact Hd|exact Hn].
Defined.

(** The first day of the calendar.  When [target_date - timedelta(days=1)]
    overflows and the day is not cached, [summarize_day] raises that
    [OverflowError] before anything is sent or written. *)
Theorem summarize_day_no_yesterday `{Runtime} (service : service_t)
    (cache_dir : string) (api : APIClient) (target_date : date)
    (analyses : list TicketAnalysis.t) (w : world) (e : exn) :
  PyDate.minus_one_day target_date = inl e →
  w_files w !! FileCache.cache_file cache_dir (PyDate.isoformat target_date) = None →
  run service (summarize_day cache_dir api target_date analyses) w = (Raised e, w).
Proof.
  intros Hminus Hfile. unfold summarize_day.
  rewrite RunFacts.run_bind, CacheFacts.run_exists, Hfile.
  rewrite bool_decide_eq_false_2 by (by intros [? ?]).
  rewrite RunFacts.run_bind. cbn [run].
  by rewrite RunFacts.run_bind, RunFacts.run_lift, Hminus.
Qed.

Lemma summarize_day_no_yesterday_witness :
  run (Sample.answering "{}")
    (summarize_day (H := Reference.runtime) "data/summaries" default_client
       (Date 1 1 1) [Sample.analysis]) (Sample.world_with ∅)
  = (Raised (OverflowError "date value out of range"), Sample.world_with ∅).
Proof.
  apply (summarize_day_no_yesterday (H := Reference.runtime) (Sample.answering "{}")
           "data/summaries" default_client (Date 1 1 1) [Sample.analysis]
           (Sample.world_with ∅)); reflexivity.
Defined.

(** [Summarizer._normalize] leaves a well-shaped response alone: a dict
    from which a [DailySummary] can be built as it is comes back
    unchanged. *)
Theorem summarizer_normalize_valid `{Runtime} (target_date : date) (n : Z)
    (d : list (string * value)) (s : DailySummary.t) :
  DailySummary.validate target_date n d = Some s →
  Summarizer_normalize (JDict d) = inr (JDict d).
Proof.
  intros Hv. unfold DailySummary.validate, field_strs, field_str in Hv.
  destruct (Json.dict_get "key_themes" d) as [[ | | | | |themes| ]|] eqn:Et;
    try discriminate Hv.
  destruct (strs themes) as [ts|] eqn:Ets; [|discriminate Hv].
  cbn [mbind option_bind] in Hv.
  destruct (Json.dict_get "trend_analysis" d) as [[ | | | |trend| | ]|] eqn:Ea;
    try discriminate Hv.
  cbn [mbind option_bind] in Hv.
  destruct (Json.dict_get "critical_issues" d) as [[ | | | | |issues| ]|] eqn:Ei;
    try discriminate Hv.
  destruct (strs issues) as [cs|] eqn:Ecs; [|discriminate Hv].
  apply LayerFacts.strs_inv in Ets, Ecs. subst themes issues.
  unfold Summarizer_normalize, normalize_with, Summarizer_normalize.body.
  do 2 f_equal.
  rewrite (LayerFacts.update_present_same "trend_analysis" _ (JStr trend)) by done.
  rewrite (LayerFacts.update_present_same "critical_issues" _ (JList (map JStr cs))).
  - apply (LayerFacts.update_present_same _ _ (JList (map JStr ts))); [done|].
    cbn [Summarizer_normalize.key_themes]. f_equal. rewrite map_map.
    by apply map_ext.
  - done.
  - cbn [Summarizer_normalize.critical_issues]. f_equal. rewrite map_map.
    by apply map_ext.
Qed.

Lemma summarizer_normalize_valid_witness :
  Summarizer_normalize (H := Reference.runtime)
    (JDict [("key_themes", JList [JStr "payment"]);
            ("trend_analysis", JStr "stable");
            ("critical_issues", JList [JStr "checkout outage"])])
  = inr (JDict [("key_themes", JList [JStr "payment"]);
                ("trend_analysis", JStr "stable");
                ("critical_issues", JList [JStr "checkout outage"])]).
Proof.
  apply (summarizer_normalize_valid (H := Reference.runtime) (Date 2024 3 1) 12 _
           (Sample.summary_of (Date 2024 3 1) "stable")).
  reflexivity.
Defined.

(** [Summarizer._normalize] repairs a response whose fields are there but
    not all strings.  When the response has no [date] and no
    [ticket_count] member of its own, which [DailySummary(date=...,
    ticket_count=..., **data)] would refuse as a repeated keyword, the
    trend analysis is anything but a dict and the two lists hold anything
    but dicts, the normalized response builds the [DailySummary] whose
    fields are the [str] of what was given. *)
Theorem summarizer_normalize_repairs `{Runtime} (target_date : date) (n : Z)
    (d : list (string * value)) (trend : value) (issues themes : list value) :
  Json.dict_get "date" d = None → Json.dict_get "ticket_count" d = None →
  Json.dict_get "trend_analysis" d = Some trend → is_dict trend = false →
  Json.dict_get "critical_issues" d = Some (JList issues) →
  forallb (λ x, negb (is_dict x)) issues = true →
  Json.dict_get "key_themes" d = Some (JList themes) →
  forallb (λ x, negb (is_dict x)) themes = true →
  ∃ data,
    Summarizer_normalize (JDict d) = inr data
    ∧ DailySummary.init target_date n data
      = inr (DailySummary.Make target_date n (map py_str themes) (py_str trend)
               (map py_str issues)).
Proof.
  intros Hdate Hcount Htrend Hnd Hissues Hni Hthemes Hnt.
  exists (JDict (Summarizer_normalize.body d)). split; [done|].
  unfold DailySummary.init, init_model. cbn [existsb].
  rewrite !LayerFacts.has_key_summary_body. unfold has_key.
  rewrite Hdate, Hcount. cbn [orb].
  unfold DailySummary.validate, field_strs, field_str.
  rewrite !LayerFacts.dict_get_summary_body, Hthemes, Htrend, Hissues.
  cbn [option_map]. unfold summary_field_rule. cbn [String.eqb Ascii.eqb Bool.eqb].
  cbn [Summarizer_normalize.key_themes Summarizer_normalize.critical_issues].
  rewrite (LayerFacts.strs_py_str (pick_or_str "theme")) by (done || by intros []).
  rewrite (LayerFacts.strs_py_str Summarizer_normalize.critical_issue)
    by (done || by intros []).
  cbn [mbind option_bind].
  by destruct trend.
Qed.

Lemma summarizer_normalize_repairs_witness :
  ∃ data,
    Summarizer_normalize (H := Reference.runtime)
      (JDict [("key_themes", JList [JStr "payment"; JInt 3]);
              ("trend_analysis", JList [JStr "up"]);
              ("critical_issues", JList [JNull])]) = inr data
    ∧ DailySummary.init (Date 2024 3 1) 2 data
      = inr (DailySummary.Make (Date 2024 3 1) 2 ["payment"; "3"] "['up']" ["None"]).
Proof.
  apply (summarizer_normalize_repairs (H := Reference.runtime) (Date 2024 3 1) 2
           [("key_themes", JList [JStr "payment"; JInt 3]);
            ("trend_analysis", JList [JStr "up"]);
            ("critical_issues", JList [JNull])]
           (JList [JStr "up"]) [JNull] [JStr "payment"; JInt 3]); reflexivity.
Defined.

(** ** Layer 3 *)

Module ReportFacts.
Import RunFacts CacheFacts StoreFacts.

Section Report.
Context `{Runtime}.

Lemma truthy_py_or (a b : value) : truthy b = true → truthy (py_or a b) = true.
Proof. intros Hb. unfold py_or. by destruct (truthy a) eqn:E. Qed.

Lemma str_if_container_flat (x : value) : is_container (str_if_container x) = false.
Proof. by destruct x. Qed.

Lemma report_init_period (period : string) (data : value) (r : Report.t) :
  Report.init period data = inr r → Report.period r = period.
Proof.
  unfold Report.init, init_model. destruct data as [ | | | | | |d]; try done.
  destruct (existsb _ _); [done|].
  destruct (Report.validate period d) as [r'|] eqn:E; [|done].
  intros [= <-]. unfold Report.validate in E. by simplify_option_eq.
Qed.

Lemma build_report_bounds (summaries : list DailySummary.t) (data : value)
    (r : Report.t) :
  build_report summaries data = inr r →
  ∃ s e, first_and_last summaries = inr (s, e)
         ∧ Report.period r
           = PyDate.isoformat (DailySummary.date s) +:+ " to "
             +:+ PyDate.isoformat (DailySummary.date e).
Proof.
  unfold build_report. destruct (Reporter_normalize data) as [e|data']; [done|].
  destruct (first_and_last summaries) as [e|[s e]]; [done|].
  intros Hinit. exists s, e. split; [done|]. by apply report_init_period in Hinit.
Qed.

End Report.

Lemma first_and_last_inv (summaries : list DailySummary.t) (s e : DailySummary.t) :
  first_and_last summaries = inr (s, e) →
  head summaries = Some s ∧ last summaries = Some e.
Proof.
  unfold first_and_last. destruct summaries as [|s0 l]; [done|].
  destruct (last (s0 :: l)) as [e0|]; [|done]. by intros [= <- <-].
Qed.

End ReportFacts.

(** A normalized insight.  Whatever the response gave as an insight, its
    normal form is a dict with exactly the members [insight], [severity],
    [evidence] and [customer_impact], in which the severity is never
    empty or missing and neither the evidence nor the customer impact is a
    list or a dict; an insight that was not a dict becomes the insight of
    its [str], of severity [medium], with empty evidence and impact. *)
Theorem key_insight_normal_form `{Runtime} (insight : value) :
  ∃ i s e c,
    Reporter_normalize.key_insight insight
    = JDict [("insight", i); ("severity", s); ("evidence", e);
             ("customer_impact", c)]
    ∧ truthy s = true
    ∧ is_container e = false ∧ is_container c = false
    ∧ (is_dict insight = false →
       KeyInsight.validate (Reporter_normalize.key_insight insight)
       = Some (KeyInsight.Make (py_str insight) "medium" "" "")).
Proof.
  destruct insight as [ |b|n|x|s|l|d];
    try (by eexists _, _, _, _; repeat split).
  cbn [Reporter_normalize.key_insight]. eexists _, _, _, _.
  split; [reflexivity|]. split; [by apply ReportFacts.truthy_py_or|].
  split; [apply ReportFacts.str_if_container_flat|].
  split; [apply ReportFacts.str_if_container_flat|done].
Qed.

(** A normalized action.  Its normal form is a dict with exactly the
    five members of a recommended action, in which the priority and the
    estimated impact are never empty or missing ([this_week] and [medium]
    stand in) and the success metrics are never a list or a dict. *)
Theorem recommended_action_normal_form `{Runtime} (action : value) :
  ∃ a p i o m,
    Reporter_normalize.recommended_action action
    = JDict [("action", a); ("priority", p); ("estimated_impact", i);
             ("suggested_owner", o); ("success_metrics", m)]
    ∧ truthy p = true ∧ truthy i = true
    ∧ is_container m = false
    ∧ (is_dict action = false →
       RecommendedAction.validate (Reporter_normalize.recommended_action action)
       = Some (RecommendedAction.Make (py_str action) "this_week" "medium" "" "")).
Proof.
  destruct action as [ |b|n|x|s|l|d];
    try (by eexists _, _, _, _, _; repeat split).
  cbn [Reporter_normalize.recommended_action]. eexists _, _, _, _, _.
  split; [reflexivity|]. split; [by apply ReportFacts.truthy_py_or|].
  split; [by apply ReportFacts.truthy_py_or|].
  split; [apply ReportFacts.str_if_container_flat|done].
Qed.

(** A report over no summaries.  [generate_report] on the empty list
    never returns a report and never writes a file: whatever the service
    answers, it ends with an exception ([summaries[0]] is evaluated only
    after the request has been made and the response normalized). *)
Theorem generate_report_empty `{Runtime} (service : service_t) (cache_dir : string)
    (api : APIClient) (w : world) :
  ∃ (e : exn) (w' : world),
    run service (generate_report cache_dir api []) w = (Raised e, w')
    ∧ w_files w' = w_files w
    ∧ (w_served w ≤ w_served w')%nat.
Proof.
  unfold generate_report. rewrite RunFacts.run_bind.
  destruct (RunFacts.run_call service api
              (REPORT_PROMPT_format
                 (Text.join (newline +:+ newline) (map summary_text [])))
              4096 default_timeout false w)
    as (k & result & w1 & Hrun & _ & _ & Hn & Hf & _ & _ & _ & Hend); [done|].
  rewrite Hrun.
  assert (result ≠ Blocked) as Hnb.
  { destruct k as [|j]; [by destruct Hend as [_ ->]|].
    destruct (attempt_result _); [by destruct Hend as [_ ->]|by subst]. }
  destruct result as [content|e|]; [|exists e, w1; split; [done|split; [done|lia]]|done].
  rewrite RunFacts.run_bind, RunFacts.run_lift.
  destruct (parse_json_of content) as [e|data];
    [exists e, w1; split; [done|split; [done|lia]]|].
  rewrite RunFacts.run_bind, RunFacts.run_lift. unfold build_report.
  destruct (Reporter_normalize data) as [e|data'];
    [exists e, w1; split; [done|split; [done|lia]]|].
  cbn [first_and_last]. eexists _, w1. split; [done|split; [done|lia]].
Qed.

(** A report that is generated.  When [generate_report] returns, the
    list of summaries was not empty, the period of the report is
    [start to end] for the dates of its first and its last summary, and
    the encoded report has been written to [report_start_end.json]; no
    other file was written. *)
Theorem generate_report_saved `{Runtime} (service : service_t) (cache_dir : string)
    (api : APIClient) (summaries : list DailySummary.t) (w w' : world)
    (report : Report.t) :
  run service (generate_report cache_dir api summaries) w = (Returned report, w') →
  ∃ s e,
    head summaries = Some s ∧ last summaries = Some e
    ∧ Report.period report
      = PyDate.isoformat (DailySummary.date s) +:+ " to "
        +:+ PyDate.isoformat (DailySummary.date e)
    ∧ w_files w'
      = <[FileCache.cache_file cache_dir
            ("report_" +:+ PyDate.isoformat (DailySummary.date s) +:+ "_"
             +:+ PyDate.isoformat (DailySummary.date e))
          := Report_model_dump_json report]> (w_files w).
Proof.
  unfold generate_report. rewrite RunFacts.run_bind.
  destruct (RunFacts.run_call service api
              (REPORT_PROMPT_format
                 (Text.join (newline +:+ newline) (map summary_text summaries)))
              4096 default_timeout false w)
    as (k & result & w1 & Hrun & _ & _ & _ & Hf & _); [done|].
  rewrite Hrun. destruct result as [content|e|]; [|done..].
  rewrite RunFacts.run_bind, RunFacts.run_lift.
  destruct (parse_json_of content) as [e|data]; [done|].
  rewrite RunFacts.run_bind, RunFacts.run_lift.
  destruct (build_report summaries data) as [e|r] eqn:Ebuild; [done|].
  apply ReportFacts.build_report_bounds in Ebuild as (s & e & Hb & Hp).
  rewrite RunFacts.run_bind, RunFacts.run_lift, Hb.
  rewrite RunFacts.run_bind, StoreFacts.run_save. cbn [run fst snd].
  intros [= <- <-]. cbn [w_files]. rewrite Hf.
  apply ReportFacts.first_and_last_inv in Hb as [Hh Hl].
  by exists s, e.
Qed.

Lemma generate_report_saved_witness :
  ∃ report w',
    run (Sample.answering
           (Json.dumps
              (JDict [("executive_summary", JStr "Checkout is unstable");
                      ("health_snapshot",
                       JDict [("overall_health", JStr "yellow");
                              ("ticket_volume_trend", JStr "up");
                              ("complaint_rate_trend", JStr "flat");
                              ("top_3_drivers", JList [JStr "payment"])]);
                      ("key_insights", JList [JStr "Timeouts at checkout"]);
                      ("recommended_actions", JList []);
                      ("customer_voice", JDict []);
                      ("week_over_week_comparison", JDict [])])))
      (generate_report (H := Reference.runtime) "data/reports" default_client
         [Sample.summary_of (Date 2024 2 29) "stable";
          Sample.summary_of (Date 2024 3 1) "rising"]) (Sample.world_with ∅)
    = (Returned report, w')
    ∧ Report.period report = "2024-02-29 to 2024-03-01"
    ∧ w_files w' !! "data/reports/report_2024-02-29_2024-03-01.json"
      = Some (Reference.dump_report report).
Proof.
  destruct (run _ _ _) as [res w'] eqn:Erun.
  destruct res as [report|e|]; [|vm_compute in Erun; discriminate Erun..].
  exists report, w'. split; [reflexivity|].
  apply (generate_report_saved (H := Reference.runtime)) in Erun
    as (s & e & Hs & He & Hp & Hf).
  injection Hs as <-. injection He as <-.
  split; [exact Hp|]. rewrite Hf. apply lookup_insert_eq.
Defined.

(** ** The progress counter and the gate of a batch *)

Module ProgressFacts.

Lemma counts_once_handle {A B : Type} (o r1 r2 r3 r4 : bool) (p : prog A)
    (f : A → prog B) (g : exn → prog B) :
  counts_once o r1 r2 p →
  (∀ a, counts_once r1 r3 r4 (f a)) → (∀ e, counts_once r2 r3 r4 (g e)) →
  counts_once o r3 r4 (handle p f g).
Proof.
  intros Hp Hf Hg. revert o Hp.
  induction p as [a|e|k IH|k IH|r k IH|secs k IH|path k IH|path k IH
                 |path content k IH|k IH|k IH]; intros o Hp;
    cbn [handle counts_once] in *.
  - by subst.
  - by subst.
  - by apply IH.
  - by apply IH.
  - intros x. by apply IH.
  - by apply IH.
  - intros b. by apply IH.
  - intros t. by apply IH.
  - by apply IH.
  - intros d. by apply IH.
  - destruct Hp as [-> Hp]. split; [done|]. by apply IH.
Qed.

(** Code without [completed += 1] leaves the debt as it is. *)
Lemma counts_once_bind {A B : Type} (o : bool) (p : prog A) (f : A → prog B) :
  counts_once o o o p → (∀ a, counts_once o o o (f a)) →
  counts_once o o o (bind p f).
Proof. intros Hp Hf. by apply (counts_once_handle o o o o o). Qed.

Lemma counts_once_lift {A : Type} (o : bool) (r : result A) :
  counts_once o o o (lift r).
Proof. by destruct r. Qed.

Lemma counts_once_call_loop (o : bool) (api : APIClient) (prompt : string)
    (max_tokens timeout : Z) (semaphore : bool) (attempts : list Z) :
  counts_once o o o (call_loop api prompt max_tokens timeout semaphore attempts).
Proof.
  induction attempts as [|attempt rest IH]; [done|]. cbn [call_loop].
  apply (counts_once_handle o o o o o); [|done|].
  - apply counts_once_bind; [|done]. unfold attempt_once.
    apply counts_once_bind; [|intros content; apply counts_once_lift].
    destruct semaphore; cbn; by intros [content|e].
  - intros e. destruct e; by destruct (attempt <? max_retries api - 1).
Qed.

Section Extraction.
Context `{Runtime}.

Lemma counts_once_extract_ticket (o : bool) (cache_dir : string) (api : APIClient)
    (ticket_id ticket_content : string) (ticket_date : date) (semaphore : bool) :
  counts_once o o o
    (extract_ticket cache_dir api ticket_id ticket_content ticket_date semaphore).
Proof.
  unfold extract_ticket. apply counts_once_bind; [by intros b|].
  intros present. apply counts_once_bind.
  { destruct present; [|done]. cbn. intros [|]; cbn; [|done].
    intros [text|]; cbn; [|done].
    by destruct (TicketAnalysis_model_validate_json text). }
  intros [analysis|]; [done|].
  apply counts_once_bind; [apply counts_once_call_loop|].
  intros content. apply counts_once_bind; [apply counts_once_lift|].
  intros data. apply counts_once_bind; [apply counts_once_lift|].
  intros analysis. by apply counts_once_bind.
Qed.

(** The coroutine of a ticket counts itself once, on either way out. *)
Lemma counts_once_extract_with_progress (cache_dir : string) (api : APIClient)
    (ticket : Ticket.t) :
  counts_once true false false (extract_with_progress cache_dir api ticket).
Proof.
  unfold extract_with_progress.
  apply (counts_once_handle true true false false false).
  { unfold ticket_date_of. by destruct (fromisoformat_date _). }
  2:{ done. }
  intros d. unfold with_progress, try_catch, bind.
  apply (counts_once_handle true false true false false); [|done|done].
  apply (counts_once_handle true true true false true); [|done|done].
  apply counts_once_extract_ticket.
Qed.

End Extraction.

Lemma progress_invariant_step {A : Type} (total : Z) (c c' : pool A) :
  progress_invariant total c → step c c' → progress_invariant total c'.
Proof.
  intros (os & Hts & Hsum) Hstep.
  assert (∀ i t, threads c !! i = Some t →
            ∃ o, os !! i = Some o ∧ thread_counts_once o t) as Hat.
  { intros i t Hi. destruct (Forall2_lookup_r _ _ _ _ _ Hts Hi) as (o & ? & ?).
    by exists o. }
  assert (∀ i o' t',
            thread_counts_once o' t' →
            Forall2 thread_counts_once (<[i := o']> os) (<[i := t']> (threads c)))
    as Hins.
  { intros i o' t' Ht'. by apply Forall2_insert. }
  unfold progress_invariant.
  destruct Hstep as [ts sem fs n d i k Hi Hpos
                    |ts sem fs n d i k Hi
                    |ts sem fs n d i r k Hi
                    |ts sem fs n d i r k x Hi
                    |ts sem fs n d i secs k Hi
                    |ts sem fs n d i path k Hi
                    |ts sem fs n d i path k Hi
                    |ts sem fs n d i path content k Hi
                    |ts sem fs n d i k Hi
                    |ts sem fs n d i k Hi];
    cbn [threads completed] in *;
    destruct (Hat i _ Hi) as (o & Ho & Hd); cbn in Hd.
  1-9: exists (<[i := o]> os); split; [apply (Hins i o); first [exact Hd|apply Hd]|];
       rewrite (SemaphoreFacts.count_held_insert os i o) by done; destruct o; lia.
  destruct Hd as [-> Hd]. exists (<[i := false]> os).
  split; [by apply (Hins i false)|].
  rewrite (SemaphoreFacts.count_held_insert os i true) by done. lia.
Qed.

Lemma progress_invariant_steps {A : Type} (total : Z) (c c' : pool A) :
  progress_invariant total c → steps c c' → progress_invariant total c'.
Proof.
  intros Hc Hsteps. induction Hsteps as [c|c1 c2 c3 _ IH Hstep]; [done|].
  apply (progress_invariant_step total c2); [by apply IH|done].
Qed.

Lemma steps_length {A : Type} (c c' : pool A) :
  steps c c' → length (threads c') = length (threads c).
Proof.
  induction 1 as [c|c1 c2 c3 _ IH Hstep]; [done|].
  rewrite <- IH. destruct Hstep; cbn [threads]; by rewrite length_insert.
Qed.

Lemma count_held_replicate (n : nat) : count_held (replicate n true) = Z.of_nat n.
Proof. induction n as [|n IH]; [done|]. cbn [replicate count_held]. lia. Qed.

Lemma count_held_le (os : list bool) : count_held os ≤ Z.of_nat (length os).
Proof. induction os as [|[] os IH]; cbn [count_held length]; lia. Qed.

(** When every coroutine has ended, none owes its count. *)
Lemma count_held_finished {A : Type} (os : list bool) (ts : list (thread A)) :
  Forall2 thread_counts_once os ts → Forall (λ t, is_Some (ended t)) ts →
  count_held os = 0.
Proof.
  induction 1 as [|o t os ts Ht _ IH]; intros Hfin; [done|].
  apply Forall_cons in Hfin as [[x Hx] Hfin]. specialize (IH Hfin).
  destruct t as [[a|e|k|k|r k|secs k|path k|path k|path content k|k|k]|r k];
    try discriminate Hx; cbn in Ht; subst o; cbn [count_held]; done.
Qed.

End ProgressFacts.

Module GateFacts.

Lemma awaits_semaphore_handle {A B : Type} (fs : gmap string string) (p : prog A)
    (f : A → prog B) (g : exn → prog B) :
  awaits_semaphore fs p → awaits_semaphore fs (handle p f g).
Proof.
  induction p as [a|e|k IH|k IH|r k IH|secs k IH|path k IH|path k IH
                 |path content k IH|k IH|k IH];
    cbn [handle awaits_semaphore]; try done.
  - apply IH.
  - apply IH.
  - intros Hp d. by apply IH.
Qed.

Lemma awaits_semaphore_call (fs : gmap string string) (api : APIClient)
    (prompt : string) (max_tokens timeout : Z) :
  0 < max_retries api →
  awaits_semaphore fs (call api prompt max_tokens timeout true).
Proof.
  intros Hmax. unfold call, range.
  destruct (Z.to_nat (max_retries api)) as [|m] eqn:Em; [lia|].
  cbn [seq map call_loop]. unfold try_catch, bind, attempt_once.
  do 2 apply awaits_semaphore_handle. unfold bind.
  by apply awaits_semaphore_handle.
Qed.

Section Extraction.
Context `{Runtime}.

Lemma awaits_semaphore_extract_with_progress (fs : gmap string string)
    (cache_dir : string) (api : APIClient) (ticket : Ticket.t) :
  0 < max_retries api →
  (∀ d, fs !! DateOrganizedCache.cache_file cache_dir (Ticket.id ticket) d = None) →
  awaits_semaphore fs (extract_with_progress cache_dir api ticket).
Proof.
  intros Hmax Hfs.
  assert (∀ d, awaits_semaphore fs
                 (with_progress ticket
                    (extract_ticket cache_dir api (Ticket.id ticket)
                       (Ticket.content ticket) d true))) as Hd.
  { intros d. unfold with_progress, try_catch, bind.
    do 2 apply awaits_semaphore_handle.
    unfold extract_ticket, DateOrganizedCache.exists_dated, path_exists, bind.
    cbn [handle awaits_semaphore]. rewrite Hfs.
    rewrite bool_decide_eq_false_2 by (by intros [? ?]).
    cbn [handle]. apply awaits_semaphore_handle.
    by apply awaits_semaphore_call. }
  unfold extract_with_progress, ticket_date_of, bind.
  destruct (fromisoformat_date _) as [d|]; cbn [handle awaits_semaphore];
    [apply Hd|intros d; apply Hd].
Qed.

End Extraction.

Lemma all_await_step {A : Type} (fs : gmap string string) (c c' : pool A) :
  all_await fs c → step c c' → all_await fs c'.
Proof.
  intros (Hsem & Hfs & Hn & Hts) Hstep.
  assert (∀ i t, threads c !! i = Some t →
            ∃ p, t = Running p ∧ awaits_semaphore fs p) as Hat.
  { intros i t Hi. by apply (Forall_lookup_1 _ _ _ _ Hts Hi). }
  unfold all_await.
  destruct Hstep as [ts sem fs0 n d i k Hi Hpos
                    |ts sem fs0 n d i k Hi
                    |ts sem fs0 n d i r k Hi
                    |ts sem fs0 n d i r k x Hi
                    |ts sem fs0 n d i secs k Hi
                    |ts sem fs0 n d i path k Hi
                    |ts sem fs0 n d i path k Hi
                    |ts sem fs0 n d i path content k Hi
                    |ts sem fs0 n d i k Hi
                    |ts sem fs0 n d i k Hi];
    cbn [threads semaphore_value files completed] in *;
    destruct (Hat i _ Hi) as (p & Ep & Hp); simplify_eq; cbn in Hp; try done;
    try lia.
  - repeat split; try done. apply Forall_insert; [done|]. by eexists.
  - repeat split; try done. apply Forall_insert; [done|]. by eexists.
  - repeat split; try done. apply Forall_insert; [done|]. by eexists.
Qed.

Lemma all_await_steps {A : Type} (fs : gmap string string) (c c' : pool A) :
  all_await fs c → steps c c' → all_await fs c'.
Proof.
  intros Hc Hsteps. induction Hsteps as [c|c1 c2 c3 _ IH Hstep]; [done|].
  apply (all_await_step fs c2); [by apply IH|done].
Qed.

Lemma all_await_in_flight {A : Type} (ts : list (thread A)) :
  Forall (λ t, ∃ p, t = Running p) ts → count_in_flight ts = 0.
Proof. induction 1 as [|t ts [p ->] _ IH]; [done|]. by cbn [count_in_flight]. Qed.

End GateFacts.

(** The progress counter of a batch.  However the batch runs, the
    counter never exceeds the number of tickets, and once every coroutine
    has ended it equals the number of tickets: every coroutine counts
    itself exactly once, after its result or after its failure. *)
Theorem extract_batch_progress `{Runtime} (cache_dir : string) (api : APIClient)
    (tickets : list Ticket.t) (max_concurrent : Z) (fs : gmap string string)
    (clock : date) (c0 c : pool TicketAnalysis.t) :
  extract_batch cache_dir api tickets max_concurrent fs clock = inr c0 →
  steps c0 c →
  0 ≤ completed c ≤ Z.of_nat (length tickets)
  ∧ (finished c → completed c = Z.of_nat (length tickets)).
Proof.
  intros Hstart Hsteps. unfold extract_batch in Hstart.
  destruct (max_concurrent <? 0); [done|]. injection Hstart as <-.
  assert (progress_invariant (Z.of_nat (length tickets)) c) as (os & Hts & Hsum).
  { refine (ProgressFacts.progress_invariant_steps _ _ _ _ Hsteps).
    exists (replicate (length tickets) true). cbn [threads completed].
    rewrite ProgressFacts.count_held_replicate. split; [|lia].
    clear. induction tickets as [|t tickets IH]; constructor; [|done].
    apply ProgressFacts.counts_once_extract_with_progress. }
  pose proof (SemaphoreFacts.count_held_nonneg os).
  pose proof (ProgressFacts.count_held_le os).
  pose proof (Forall2_length _ _ _ Hts) as Hlen.
  split.
  - split; [|lia].
    assert (length (threads c) = length tickets) as Hl; [|lia].
    rewrite (ProgressFacts.steps_length _ _ Hsteps). cbn [threads].
    by rewrite length_map.
  - intros Hfin. rewrite (ProgressFacts.count_held_finished os _ Hts Hfin) in Hsum.
    lia.
Qed.

Lemma extract_batch_progress_witness :
  let c : pool TicketAnalysis.t :=
    Pool (map (λ t, Running (extract_with_progress (H := Reference.runtime)
                               "data/analyses" default_client t)) Sample.tickets)
      2 ∅ 0 Sample.clock in
  0 ≤ completed c ≤ Z.of_nat (length Sample.tickets)
  ∧ (finished c → completed c = Z.of_nat (length Sample.tickets)).
Proof.
  intros c.
  apply (extract_batch_progress (H := Reference.runtime) "data/analyses"
           default_client Sample.tickets 2 ∅ Sample.clock c c eq_refl).
  apply steps_refl.
Defined.

(** A gate of capacity zero.  [asyncio.Semaphore(0)] is accepted, and
    then, with a client that makes an attempt and no ticket in the cache,
    the batch never ends: no request is ever sent, no file written and no
    ticket counted, and however far the event loop gets, some coroutine
    has not ended. *)
Theorem extract_batch_zero_capacity `{Runtime} (cache_dir : string)
    (api : APIClient) (tickets : list Ticket.t) (fs : gmap string string)
    (clock : date) :
  0 < max_retries api →
  tickets ≠ [] →
  (∀ ticket d, ticket ∈ tickets →
     fs !! DateOrganizedCache.cache_file cache_dir (Ticket.id ticket) d = None) →
  ∃ c0 : pool TicketAnalysis.t,
    extract_batch cache_dir api tickets 0 fs clock = inr c0
    ∧ ∀ c, steps c0 c →
        ¬ finished c ∧ in_flight c = 0 ∧ files c = fs ∧ completed c = 0.
Proof.
  intros Hmax Hne Hfs. eexists. split; [reflexivity|]. intros c Hsteps.
  assert (all_await fs c) as (Hsem & Hfiles & Hn & Hts).
  { refine (GateFacts.all_await_steps _ _ _ _ Hsteps).
    repeat split; try done. cbn [threads].
    apply List.Forall_map, Forall_forall. intros t Hin.
    eexists. split; [done|].
    apply GateFacts.awaits_semaphore_extract_with_progress; [done|].
    intros d. by apply Hfs. }
  assert (length (threads c) = length tickets) as Hlen.
  { rewrite (ProgressFacts.steps_length _ _ Hsteps). cbn [threads].
    by rewrite length_map. }
  split; [|split; [|done]].
  - intros Hfin. unfold finished in Hfin.
    destruct (threads c) as [|t ts] eqn:Et.
    { destruct tickets; [done|discriminate Hlen]. }
    apply Forall_cons in Hts as [(p & -> & Hp) _].
    apply Forall_cons in Hfin as [[x Hx] _].
    destruct p; try done.
  - unfold in_flight. apply GateFacts.all_await_in_flight.
    eapply Forall_impl; [exact Hts|]. intros t (p & -> & _). by eexists.
Qed.

Lemma extract_batch_zero_capacity_witness :
  ∃ c0 : pool TicketAnalysis.t,
    extract_batch (H := Reference.runtime) "data/analyses" default_client
      Sample.tickets 0 ∅ Sample.clock = inr c0
    ∧ ∀ c, steps c0 c →
        ¬ finished c ∧ in_flight c = 0 ∧ files c = ∅ ∧ completed c = 0.
Proof.
  apply (extract_batch_zero_capacity (H := Reference.runtime) "data/analyses"
           default_client Sample.tickets ∅ Sample.clock).
  - reflexivity.
  - intros E. discriminate E.
  - intros ticket d _. apply lookup_empty.
Defined.

(** ** The days of the pipeline *)

Module DayFacts.

Lemma date_eqb_eq (a b : date) : Pipeline.date_eqb a b = true ↔ a = b.
Proof.
  unfold Pipeline.date_eqb. rewrite !andb_true_iff, !Z.eqb_eq.
  destruct a as [y m d], b as [y' m' d']. cbn [year month day]. split.
  - by intros [[-> ->] ->].
  - by intros [= -> -> ->].
Qed.

Lemma date_eqb_refl (a : date) : Pipeline.date_eqb a a = true.
Proof. by apply date_eqb_eq. Qed.

Lemma date_eqb_neq (a b : date) : Pipeline.date_eqb a b = false ↔ a ≠ b.
Proof.
  split.
  - intros E ->. by rewrite date_eqb_refl in E.
  - intros Hne. destruct (Pipeline.date_eqb a b) eqn:E; [|done].
    by apply date_eqb_eq in E.
Qed.

Lemma date_ltb_lt (a b : date) :
  Pipeline.date_ltb a b = true
  ↔ year a < year b
    ∨ year a = year b
      ∧ (month a < month b ∨ month a = month b ∧ day a < day b).
Proof.
  unfold Pipeline.date_ltb.
  rewrite !orb_true_iff, !andb_true_iff, !orb_true_iff, !andb_true_iff,
    !Z.ltb_lt, !Z.eqb_eq. tauto.
Qed.

Lemma date_ltb_irrefl (a : date) : Pipeline.date_ltb a a = false.
Proof.
  destruct (Pipeline.date_ltb a a) eqn:E; [|done]. apply date_ltb_lt in E. lia.
Qed.

Lemma date_ltb_trans (a b c : date) :
  Pipeline.date_ltb a b = true → Pipeline.date_ltb b c = true →
  Pipeline.date_ltb a c = true.
Proof. rewrite !date_ltb_lt. lia. Qed.

Lemma date_ltb_total (a b : date) :
  Pipeline.date_ltb a b = false → a ≠ b → Pipeline.date_ltb b a = true.
Proof.
  intros Hab Hne. rewrite date_ltb_lt.
  assert (¬ (year a < year b
             ∨ year a = year b
               ∧ (month a < month b ∨ month a = month b ∧ day a < day b))) as Hn.
  { intros Hlt. apply date_ltb_lt in Hlt. congruence. }
  assert (¬ (year a = year b ∧ month a = month b ∧ day a = day b)) as Hd.
  { intros (Hy & Hm & Hd). apply Hne. destruct a, b; cbn in *; congruence. }
  lia.
Qed.

Lemma date_ltb_asym (a b : date) :
  Pipeline.date_ltb a b = true → Pipeline.date_ltb b a = false.
Proof.
  intros Hab. destruct (Pipeline.date_ltb b a) eqn:E; [|done].
  apply date_ltb_lt in Hab, E. lia.
Qed.

Section Groups.
Context {A : Type}.
Implicit Types (bd : list (date * list A)) (dated : list (date * A)).

Lemma by_date_get_setdefault (d d' : date) (a : A) bd :
  by_date_get d' (Pipeline.setdefault_append d a bd)
  = if Pipeline.date_eqb d d'
    then Some (default [] (by_date_get d bd) ++ [a])
    else by_date_get d' bd.
Proof.
  induction bd as [|[d0 l] bd IH]; cbn [Pipeline.setdefault_append by_date_get].
  - by destruct (Pipeline.date_eqb d d').
  - destruct (Pipeline.date_eqb d0 d) eqn:E0; cbn [by_date_get default].
    + apply date_eqb_eq in E0 as ->. by destruct (Pipeline.date_eqb d d').
    + rewrite IH. destruct (Pipeline.date_eqb d0 d') eqn:E1; [|done].
      apply date_eqb_eq in E1 as ->. apply date_eqb_neq in E0.
      rewrite (proj2 (date_eqb_neq d d')); [done|congruence].
Qed.

Lemma by_date_get_none (d : date) bd :
  by_date_get d bd = None ↔ d ∉ map fst bd.
Proof.
  induction bd as [|[d0 l] bd IH]; cbn [by_date_get map fst].
  - split; [intros _ Hin; inversion Hin|done].
  - rewrite not_elem_of_cons. destruct (Pipeline.date_eqb d0 d) eqn:E.
    + apply date_eqb_eq in E as ->. split; [done|by intros [? _]].
    + apply date_eqb_neq in E. rewrite IH. split; [by intros ?; split|by intros [_ ?]].
Qed.

Lemma keys_setdefault (d : date) (a : A) bd :
  map fst (Pipeline.setdefault_append d a bd)
  = map fst bd ++ (if by_date_get d bd is Some _ then [] else [d]).
Proof.
  induction bd as [|[d0 l] bd IH]; cbn [Pipeline.setdefault_append by_date_get map fst];
    [done|].
  destruct (Pipeline.date_eqb d0 d); cbn [map fst app].
  - by rewrite app_nil_r.
  - by rewrite IH.
Qed.

Lemma NoDup_setdefault (d : date) (a : A) bd :
  NoDup (map fst bd) → NoDup (map fst (Pipeline.setdefault_append d a bd)).
Proof.
  intros Hnd. rewrite keys_setdefault.
  destruct (by_date_get d bd) as [l|] eqn:E; [by rewrite app_nil_r|].
  apply NoDup_app. split; [done|]. split; [|apply NoDup_singleton].
  intros x Hx Hx'. apply list_elem_of_singleton in Hx' as ->.
  by apply by_date_get_none in E.
Qed.

Lemma elem_of_by_date_get (d : date) (l : list A) bd :
  NoDup (map fst bd) → (d, l) ∈ bd ↔ by_date_get d bd = Some l.
Proof.
  induction bd as [|[d0 l0] bd IH]; cbn [by_date_get map fst]; intros Hnd.
  - split; [intros Hin; inversion Hin|done].
  - apply NoDup_cons in Hnd as [Hd0 Hnd]. rewrite elem_of_cons, (IH Hnd).
    destruct (Pipeline.date_eqb d0 d) eqn:E.
    + apply date_eqb_eq in E as ->. split.
      * intros [[= ->]|Hget]; [done|].
        assert (by_date_get d bd = None) as Hn by (by apply by_date_get_none).
        congruence.
      * intros [= ->]. by left.
    + apply date_eqb_neq in E. split; [|by right].
      intros [[= -> ->]|Hget]; done.
Qed.

Lemma analyses_of_day_snoc (d : date) dated (x : date * A) :
  analyses_of_day d (dated ++ [x])
  = analyses_of_day d dated ++ (if Pipeline.date_eqb x.1 d then [x.2] else []).
Proof.
  unfold analyses_of_day. rewrite filter_app, map_app. f_equal.
  rewrite filter_cons, filter_nil.
  destruct (Pipeline.date_eqb x.1 d); by destruct (decide _).
Qed.

Lemma group_by_date_snoc dated (x : date * A) :
  Pipeline.group_by_date (dated ++ [x])
  = Pipeline.setdefault_append x.1 x.2 (Pipeline.group_by_date dated).
Proof. unfold Pipeline.group_by_date. by rewrite fold_left_app. Qed.

(** The dict the loop builds: its keys are distinct, and a day is in it
    with its analyses when it has any. *)
Lemma group_by_date_get dated :
  NoDup (map fst (Pipeline.group_by_date dated))
  ∧ ∀ d, by_date_get d (Pipeline.group_by_date dated)
         = match analyses_of_day d dated with
           | [] => None
           | l => Some l
           end.
Proof.
  induction dated as [|x dated [IHn IHg]] using rev_ind.
  - split; [constructor|done].
  - rewrite group_by_date_snoc. split; [by apply NoDup_setdefault|].
    intros d. rewrite by_date_get_setdefault, analyses_of_day_snoc, !IHg.
    destruct (Pipeline.date_eqb x.1 d) eqn:E.
    + apply date_eqb_eq in E as <-.
      by destruct (analyses_of_day x.1 dated).
    + rewrite app_nil_r. done.
Qed.

Lemma insert_item_perm (x : date * list A) bd :
  Pipeline.insert_item x bd ≡ₚ x :: bd.
Proof.
  induction bd as [|y bd IH]; cbn [Pipeline.insert_item]; [done|].
  destruct (Pipeline.date_ltb y.1 x.1); [|done].
  rewrite IH. apply Permutation_swap.
Qed.

Lemma sorted_items_perm bd : Pipeline.sorted_items bd ≡ₚ bd.
Proof.
  induction bd as [|x bd IH]; [done|]. cbn [Pipeline.sorted_items fold_right].
  fold (Pipeline.sorted_items bd). by rewrite insert_item_perm, IH.
Qed.

Lemma insert_item_sorted (x : date * list A) bd :
  StronglySorted (λ a b, Pipeline.date_ltb a b = true) (map fst bd) →
  x.1 ∉ map fst bd →
  StronglySorted (λ a b, Pipeline.date_ltb a b = true)
    (map fst (Pipeline.insert_item x bd)).
Proof.
  induction bd as [|y bd IH]; cbn [Pipeline.insert_item map]; intros Hs Hx.
  - constructor; [constructor|done].
  - apply StronglySorted_inv in Hs as [Hs Hy].
    apply not_elem_of_cons in Hx as [Hne Hx].
    destruct (Pipeline.date_ltb y.1 x.1) eqn:E; cbn [map].
    + constructor; [by apply IH|].
      rewrite (insert_item_perm x bd). cbn [map]. by constructor.
    + assert (Pipeline.date_ltb x.1 y.1 = true) as Hlt
        by (apply date_ltb_total; [done|congruence]).
      constructor; [by constructor|]. constructor; [done|].
      eapply Forall_impl; [exact Hy|]. intros z Hz. cbn beta in *.
      by apply (date_ltb_trans _ y.1).
Qed.

Lemma sorted_items_sorted bd :
  NoDup (map fst bd) →
  StronglySorted (λ a b, Pipeline.date_ltb a b = true)
    (map fst (Pipeline.sorted_items bd)).
Proof.
  induction bd as [|x bd IH]; cbn [map]; intros Hnd; [constructor|].
  apply NoDup_cons in Hnd as [Hx Hnd]. cbn [Pipeline.sorted_items fold_right].
  fold (Pipeline.sorted_items bd). apply insert_item_sorted; [by apply IH|].
  by rewrite (sorted_items_perm bd).
Qed.

End Groups.

End DayFacts.

(** The days that [run_pipeline] summarizes.  The loop over the tickets
    and the sort give the days in strictly increasing order, no day
    twice, and a day is among them exactly when some ticket has its date:
    it then comes with all the analyses of that date, in the order of the
    tickets.  No analysis is lost, none is moved to another day. *)
Theorem days_to_summarize_grouped {A : Type} (dated : list (date * A)) :
  StronglySorted (λ a b, Pipeline.date_ltb a b = true)
    (map fst (Pipeline.days_to_summarize dated))
  ∧ ∀ d l, (d, l) ∈ Pipeline.days_to_summarize dated
           ↔ l = analyses_of_day d dated ∧ l ≠ [].
Proof.
  destruct (DayFacts.group_by_date_get dated) as [Hnd Hget].
  unfold Pipeline.days_to_summarize. split; [by apply DayFacts.sorted_items_sorted|].
  intros d l. rewrite (DayFacts.sorted_items_perm (Pipeline.group_by_date dated)).
  rewrite (DayFacts.elem_of_by_date_get d l _ Hnd), Hget.
  destruct (analyses_of_day d dated) as [|a l'].
  - split; [done|]. by intros [-> ?].
  - split; [by intros [= <-]|]. by intros [-> _].
Qed.

(** ** The period of a report *)

Module PeriodFacts.

Lemma digit_char_no_space (k : nat) :
  (k < 10)%nat → Ascii.eqb (Json.digit_char k) " " = false.
Proof. intros Hk. do 10 (destruct k as [|k]; [done|]). lia. Qed.

Lemma zero_padded_no_space (width : nat) (n : Z) :
  forallb (λ c, negb (Ascii.eqb c " ")) (PyDate.zero_padded width n) = true.
Proof.
  revert n. induction width as [|w IH]; intros n; [done|].
  cbn [PyDate.zero_padded]. rewrite forallb_app, IH. cbn [forallb andb].
  rewrite digit_char_no_space; [done|].
  pose proof (Z.mod_pos_bound n 10). lia.
Qed.

Lemma isoformat_no_space (d : date) :
  forallb (λ c, negb (Ascii.eqb c " ")) (chars_of (PyDate.isoformat d)) = true.
Proof.
  unfold PyDate.isoformat. rewrite JsonFacts.chars_of_str_of.
  rewrite forallb_app. cbn [forallb]. rewrite forallb_app. cbn [forallb].
  by rewrite !zero_padded_no_space.
Qed.

(** [split] passes over a text without a space. *)
Lemma split_go_no_space (cur s t : chars) :
  forallb (λ c, negb (Ascii.eqb c " ")) s = true →
  Text.split_go (chars_of " to ") 0 cur (s ++ t)
  = Text.split_go (chars_of " to ") 0 (rev s ++ cur) t.
Proof.
  revert cur. induction s as [|c s IH]; intros cur Hs; [done|].
  cbn [forallb] in Hs. apply andb_true_iff in Hs as [Hc Hs].
  apply negb_true_iff in Hc. cbn [app Text.split_go].
  assert (Text.startswith (chars_of " to ") (c :: s ++ t) = false) as ->.
  { cbn [chars_of list_ascii_of_string Text.startswith].
    by rewrite Ascii.eqb_sym, Hc. }
  rewrite IH by done. cbn [rev]. by rewrite <- app_assoc.
Qed.

Lemma split_go_separator (cur t : chars) :
  Text.split_go (chars_of " to ") 0 cur (chars_of " to " ++ t)
  = rev cur :: Text.split_go (chars_of " to ") 0 [] t.
Proof. reflexivity. Qed.

End PeriodFacts.

(** The period of a generated report always unpacks.  [generate_report]
    makes the period from two ISO dates with [ to ] between them, and
    [run_pipeline] splits it at [ to ]: the split gives exactly the two
    dates, so the markdown file gets the name of the cached report. *)
Theorem report_period_bounds (start finish : date) :
  Pipeline.period_bounds
    (PyDate.isoformat start +:+ " to " +:+ PyDate.isoformat finish)
  = inr (PyDate.isoformat start, PyDate.isoformat finish).
Proof.
  unfold Pipeline.period_bounds, Text.split.
  rewrite !ResultFacts.chars_of_append.
  rewrite PeriodFacts.split_go_no_space by apply PeriodFacts.isoformat_no_space.
  rewrite PeriodFacts.split_go_separator.
  rewrite <- (app_nil_r (chars_of (PyDate.isoformat finish))).
  rewrite PeriodFacts.split_go_no_space by apply PeriodFacts.isoformat_no_space.
  cbn [Text.split_go]. rewrite !app_nil_r, !rev_involutive.
  by rewrite !JsonFacts.str_of_chars_of.
Qed.

(** ** The counters of [summarize_day] *)

Module CounterFacts.

Lemma count_of_counter_add (k k' : string) (c : list (string * Z)) :
  count_of k (counter_add k' c)
  = count_of k c + (if String.eqb k' k then 1 else 0).
Proof.
  induction c as [|[k0 n] c IH]; cbn [counter_add count_of].
  - destruct (String.eqb k' k); lia.
  - destruct (String.eqb_spec k0 k') as [->|Hne]; cbn [count_of].
    + destruct (String.eqb k' k); lia.
    + destruct (String.eqb_spec k0 k) as [->|Hne'].
      * destruct (String.eqb_spec k' k) as [->|_]; [done|lia].
      * apply IH.
Qed.

Lemma keys_counter_add (x k : string) (c : list (string * Z)) :
  x ∈ map fst (counter_add k c) → x = k ∨ x ∈ map fst c.
Proof.
  induction c as [|[k0 n] c IH]; cbn [counter_add map fst].
  - intros Hx. apply list_elem_of_singleton in Hx. by left.
  - destruct (String.eqb k0 k); cbn [map fst]; [by right|].
    rewrite !elem_of_cons. intros [->|Hx]; [by right; left|].
    destruct (IH Hx) as [->|Hin]; [by left|by right; right].
Qed.

Lemma NoDup_counter_add (k : string) (c : list (string * Z)) :
  NoDup (map fst c) → NoDup (map fst (counter_add k c)).
Proof.
  induction c as [|[k0 n] c IH]; cbn [counter_add map fst]; intros Hnd.
  - apply NoDup_singleton.
  - apply NoDup_cons in Hnd as [Hk0 Hnd].
    destruct (String.eqb_spec k0 k) as [->|Hne]; cbn [map fst].
    + by apply NoDup_cons.
    + apply NoDup_cons. split; [|by apply IH].
      intros Hin. by destruct (keys_counter_add _ _ _ Hin).
Qed.

Lemma positive_counter_add (k : string) (c : list (string * Z)) :
  Forall (λ kn, 0 < kn.2) c → Forall (λ kn, 0 < kn.2) (counter_add k c).
Proof.
  induction c as [|[k0 n] c IH]; cbn [counter_add]; intros Hpos.
  - by constructor.
  - apply Forall_cons in Hpos as [Hn Hpos]. cbn [snd] in Hn.
    destruct (String.eqb k0 k); constructor; cbn [snd]; try done; try lia.
    by apply IH.
Qed.

Lemma counts_total_counter_add (k : string) (c : list (string * Z)) :
  counts_total (counter_add k c) = counts_total c + 1.
Proof.
  induction c as [|[k0 n] c IH]; cbn [counter_add counts_total fold_right snd];
    [done|].
  destruct (String.eqb k0 k); cbn [counts_total fold_right snd].
  - fold (counts_total c). lia.
  - fold (counts_total c) (counts_total (counter_add k c)). lia.
Qed.

Lemma occurrences_snoc (k k' : string) (keys : list string) :
  occurrences k (keys ++ [k'])
  = occurrences k keys + (if String.eqb k' k then 1 else 0).
Proof.
  induction keys as [|k0 keys IH]; cbn [app occurrences]; [lia|].
  rewrite IH. lia.
Qed.

Lemma Counter_snoc (keys : list string) (k : string) :
  Counter (keys ++ [k]) = counter_add k (Counter keys).
Proof. unfold Counter. by rewrite fold_left_app. Qed.

Lemma insert_desc_perm (x : string * Z) (l : list (string * Z)) :
  insert_desc x l ≡ₚ x :: l.
Proof.
  induction l as [|y l IH]; cbn [insert_desc]; [done|].
  destruct (y.2 <=? x.2); [done|]. rewrite IH. apply Permutation_swap.
Qed.

Lemma sorted_desc_perm (c : list (string * Z)) :
  fold_right insert_desc [] c ≡ₚ c.
Proof.
  induction c as [|x c IH]; [done|]. cbn [fold_right].
  by rewrite insert_desc_perm, IH.
Qed.

Lemma insert_desc_sorted (x : string * Z) (l : list (string * Z)) :
  StronglySorted (λ a b : string * Z, b.2 ≤ a.2) l →
  StronglySorted (λ a b : string * Z, b.2 ≤ a.2) (insert_desc x l).
Proof.
  induction l as [|y l IH]; cbn [insert_desc]; intros Hs.
  - constructor; [constructor|done].
  - destruct (Z.leb_spec y.2 x.2) as [Hle|Hlt].
    + constructor; [done|]. apply StronglySorted_inv in Hs as [_ Hy].
      constructor; [done|]. eapply Forall_impl; [exact Hy|].
      intros z Hz. cbn beta in *. lia.
    + apply StronglySorted_inv in Hs as [Hs Hy]. constructor; [by apply IH|].
      rewrite (insert_desc_perm x l). constructor; [lia|done].
Qed.

Lemma sorted_desc_sorted (c : list (string * Z)) :
  StronglySorted (λ a b : string * Z, b.2 ≤ a.2) (fold_right insert_desc [] c).
Proof.
  induction c as [|x c IH]; [constructor|]. cbn [fold_right].
  by apply insert_desc_sorted.
Qed.

Lemma sorted_app {A : Type} (R : A → A → Prop) (l1 l2 : list A) :
  StronglySorted R (l1 ++ l2) →
  StronglySorted R l1 ∧ ∀ x y, x ∈ l1 → y ∈ l2 → R x y.
Proof.
  induction l1 as [|a l1 IH]; cbn [app]; intros Hs.
  - split; [constructor|]. intros x y Hx. inversion Hx.
  - apply StronglySorted_inv in Hs as [Hs Ha]. destruct (IH Hs) as [Hs1 Hcross].
    apply Forall_app in Ha as [Ha1 Ha2]. split; [by constructor|].
    intros x y Hx Hy. apply elem_of_cons in Hx as [->|Hx].
    + by apply (proj1 (Forall_forall _ _) Ha2).
    + by apply Hcross.
Qed.

End CounterFacts.

(** The counter of [summarize_day].  [Counter] over the categories (or
    the themes) has every key once, with the number of its occurrences,
    which is positive, and its counts add up to the number of items
    counted: the categories of a prompt add up to its ticket count. *)
Theorem counter_counts (keys : list string) :
  NoDup (map fst (Counter keys))
  ∧ (∀ k, count_of k (Counter keys) = occurrences k keys)
  ∧ Forall (λ kn, 0 < kn.2) (Counter keys)
  ∧ counts_total (Counter keys) = Z.of_nat (length keys).
Proof.
  induction keys as [|k keys (Hnd & Hcount & Hpos & Htotal)] using rev_ind.
  - repeat split; [constructor|constructor].
  - rewrite CounterFacts.Counter_snoc. split; [by apply CounterFacts.NoDup_counter_add|].
    split; [|split].
    + intros k'. by rewrite CounterFacts.count_of_counter_add,
        CounterFacts.occurrences_snoc, Hcount.
    + by apply CounterFacts.positive_counter_add.
    + rewrite CounterFacts.counts_total_counter_add, Htotal, length_app.
      cbn [length]. lia.
Qed.

(** The top themes of [summarize_day].  [most_common(n)] keeps the
    first [n] entries of the counter in decreasing order of count (all of
    them when there are fewer), and every entry it leaves out counts no
    more than every entry it keeps. *)
Theorem most_common_top (n : nat) (c : list (string * Z)) :
  length (most_common n c) = Nat.min n (length c)
  ∧ StronglySorted (λ a b : string * Z, b.2 ≤ a.2) (most_common n c)
  ∧ ∃ rest, most_common n c ++ rest ≡ₚ c
            ∧ ∀ x y, x ∈ most_common n c → y ∈ rest → y.2 ≤ x.2.
Proof.
  unfold most_common.
  pose proof (CounterFacts.sorted_desc_sorted c) as Hs.
  pose proof (CounterFacts.sorted_desc_perm c) as Hp.
  rewrite <- (take_drop n (fold_right insert_desc [] c)) in Hs.
  apply CounterFacts.sorted_app in Hs as [Hs Hcross].
  split; [|split; [done|]].
  - rewrite length_take, (Permutation_length Hp). lia.
  - exists (drop n (fold_right insert_desc [] c)). by rewrite take_drop.
Qed.

(** ** [get_date_range] *)

Module RangeFacts.
Import DayFacts.

Lemma date_leb_trans (a b c : date) :
  Pipeline.date_ltb a b = false → Pipeline.date_ltb b c = false →
  Pipeline.date_ltb a c = false.
Proof.
  intros Hab Hbc. destruct (Pipeline.date_ltb a c) eqn:Hac; [|done].
  apply date_ltb_lt in Hac.
  assert (¬ (year a < year b
             ∨ year a = year b
               ∧ (month a < month b ∨ month a = month b ∧ day a < day b))) as H1.
  { intros Hlt. apply date_ltb_lt in Hlt. congruence. }
  assert (¬ (year b < year c
             ∨ year b = year c
               ∧ (month b < month c ∨ month b = month c ∧ day b < day c))) as H2.
  { intros Hlt. apply date_ltb_lt in Hlt. congruence. }
  lia.
Qed.

(** [max] returns one of the dates, and none of them is later. *)
Lemma max_date_greatest (first : date) (rest : list date) :
  CsvLoader.max_date first rest ∈ first :: rest
  ∧ ∀ d, d ∈ first :: rest →
         Pipeline.date_ltb (CsvLoader.max_date first rest) d = false.
Proof.
  unfold CsvLoader.max_date. revert first.
  induction rest as [|x rest IH]; intros first; cbn [fold_left].
  - split; [by left|]. intros d Hd. apply list_elem_of_singleton in Hd as ->.
    apply date_ltb_irrefl.
  - destruct (Pipeline.date_ltb first x) eqn:E.
    + destruct (IH x) as [Hin Hmax]. split; [by right|].
      intros d Hd. apply elem_of_cons in Hd as [->|Hd]; [|by apply Hmax].
      apply (date_leb_trans _ x); [apply Hmax; by left|by apply date_ltb_asym].
    + destruct (IH first) as [Hin Hmax]. split.
      * apply elem_of_cons in Hin as [->|Hin]; [by left|by right; right].
      * intros d Hd. apply elem_of_cons in Hd as [->|Hd]; [apply Hmax; by left|].
        apply elem_of_cons in Hd as [->|Hd]; [|apply Hmax; by right].
        apply (date_leb_trans _ first); [apply Hmax; by left|done].
Qed.

(** The day before a valid date is valid, and the date is its day
    after; only the first day of the calendar has no day before. *)
Lemma minus_one_day_valid (d : date) :
  PyDate.valid d = true →
  match PyDate.minus_one_day d with
  | inr p => PyDate.valid p = true ∧ PyDate.plus_one_day p = inr d
  | inl e => d = Date 1 1 1 ∧ e = OverflowError "date value out of range"
  end.
Proof.
  intros Hv. apply StoreFacts.valid_bounds in Hv as (Hy & Hm & Hd).
  destruct d as [y m n]. cbn [year month day] in *.
  unfold PyDate.minus_one_day, PyDate.plus_one_day, PyDate.valid.
  cbn [year month day].
  pose proof (StoreFacts.days_in_month_ge y (m - 1)) as Hge.
  pose proof (StoreFacts.days_in_month_le y (m - 1)) as Hle.
  destruct (Z.ltb_spec 1 n) as [Hn|Hn]; cbn [year month day].
  { split.
    - rewrite !andb_true_iff, !Z.leb_le. lia.
    - assert ((n - 1 <? PyDate.days_in_month y m) = true) as ->
        by (apply Z.ltb_lt; lia).
      do 2 f_equal. lia. }
  assert (n = 1) as -> by lia.
  destruct (Z.ltb_spec 1 m) as [Hm1|Hm1]; cbn [year month day].
  { split.
    - rewrite !andb_true_iff, !Z.leb_le. lia.
    - rewrite Z.ltb_irrefl.
      assert ((m - 1 <? 12) = true) as -> by (apply Z.ltb_lt; lia).
      do 2 f_equal. lia. }
  assert (m = 1) as -> by lia.
  destruct (Z.ltb_spec 1 y) as [Hy1|Hy1]; cbn [year month day].
  { split.
    - rewrite !andb_true_iff, !Z.leb_le.
      change (PyDate.days_in_month (y - 1) 12) with 31. lia.
    - change (PyDate.days_in_month (y - 1) 12) with 31.
      rewrite Z.ltb_irrefl. change (12 <? 12) with false. cbn iota.
      assert ((y - 1 <? 9999) = true) as -> by (apply Z.ltb_lt; lia).
      do 2 f_equal. lia. }
  assert (y = 1) as -> by lia. done.
Qed.

(** The dates the reference runtime parses are valid. *)
Lemma date_of_iso_valid (s : string) (d : date) :
  Reference.date_of_iso s = Some d → PyDate.valid d = true.
Proof.
  unfold Reference.date_of_iso.
  destruct (chars_of s) as [|y1 [|y2 [|y3 [|y4 [|s1 [|m1 [|m2 [|s2 [|n1 [|n2 rest]]]]]]]]]];
    try done.
  destruct (Reference.digits_value [y1; y2; y3; y4]) as [y|]; [|done].
  destruct (Reference.digits_value [m1; m2]) as [m|]; [|done].
  destruct (Reference.digits_value [n1; n2]) as [n|]; [|done].
  destruct (_ && PyDate.valid _) eqn:E; [|done].
  intros [= <-]. by apply andb_true_iff in E as [_ ?].
Qed.

End RangeFacts.

(** The default range of the pipeline.  Over the [ds] cells of the CSV
    rows, with a parser that yields valid dates: when some cell parses,
    [get_date_range] returns the latest of the parsed dates, one that
    occurs in the file and that no parsed date exceeds, and the day before
    it, which is a valid date whose next day is the latest (unless the
    latest is the first day of the calendar, where the subtraction
    overflows); when no cell parses it raises [ValueError]. *)
Theorem get_date_range_latest `{Runtime} (cells : list string) :
  (∀ s d, fromisoformat_date s = Some d → PyDate.valid d = true) →
  match CsvLoader.get_date_range cells with
  | inr (previous, latest) =>
      latest ∈ CsvLoader.parsed_dates cells
      ∧ (∀ d, d ∈ CsvLoader.parsed_dates cells →
              Pipeline.date_ltb latest d = false)
      ∧ PyDate.valid previous = true
      ∧ PyDate.plus_one_day previous = inr latest
  | inl e =>
      CsvLoader.parsed_dates cells = []
      ∧ e = ValueError "No valid dates found in CSV"
      ∨ Date 1 1 1 ∈ CsvLoader.parsed_dates cells
        ∧ e = OverflowError "date value out of range"
  end.
Proof.
  intros Hvalid.
  assert (∀ d, d ∈ CsvLoader.parsed_dates cells → PyDate.valid d = true) as Hall.
  { induction cells as [|cell cells IH]; cbn [CsvLoader.parsed_dates];
      [intros d Hd; inversion Hd|].
    destruct (fromisoformat_date _) as [d0|] eqn:E; [|done].
    intros d Hd. apply elem_of_cons in Hd as [->|Hd]; [by eapply Hvalid|by apply IH]. }
  unfold CsvLoader.get_date_range.
  destruct (CsvLoader.parsed_dates cells) as [|first rest]; [by left|].
  destruct (RangeFacts.max_date_greatest first rest) as [Hin Hmax].
  pose proof (RangeFacts.minus_one_day_valid _ (Hall _ Hin)) as Hminus.
  destruct (PyDate.minus_one_day (CsvLoader.max_date first rest)) as [e|p].
  - destruct Hminus as [Hmin ->]. right. by rewrite <- Hmin.
  - by destruct Hminus.
Qed.

Lemma get_date_range_latest_witness :
  CsvLoader.get_date_range (H := Reference.runtime)
    ["2024-02-28T10:00:00Z"; "nan"; "2024-03-01T09:30:00Z"; "2024-02-29 08:00:00"]
  = inr (Date 2024 2 29, Date 2024 3 1)
  ∧ PyDate.plus_one_day (Date 2024 2 29) = inr (Date 2024 3 1).
Proof.
  pose proof (get_date_range_latest (H := Reference.runtime)
                ["2024-02-28T10:00:00Z"; "nan"; "2024-03-01T09:30:00Z";
                 "2024-02-29 08:00:00"] RangeFacts.date_of_iso_valid) as Hr.
  change (CsvLoader.get_date_range (H := Reference.runtime)
            ["2024-02-28T10:00:00Z"; "nan"; "2024-03-01T09:30:00Z";
             "2024-02-29 08:00:00"])
    with (inr (Date 2024 2 29, Date 2024 3 1) : result (date * date)) in Hr.
  split; [reflexivity|]. by destruct Hr as (_ & _ & _ & Hplus).
Defined.

(** ** [_format_value] *)

Module FormatFacts.

Lemma lstrip_idem (s : chars) : Text.lstrip (Text.lstrip s) = Text.lstrip s.
Proof.
  induction s as [|c s IH]; [done|]. cbn [Text.lstrip].
  destruct (Text.isspace c) eqn:E; [done|]. cbn [Text.lstrip]. by rewrite E.
Qed.

Lemma rstrip_idem (s : chars) : Text.rstrip (Text.rstrip s) = Text.rstrip s.
Proof. unfold Text.rstrip. by rewrite rev_involutive, lstrip_idem. Qed.

(** Stripping on the right keeps a text stripped on the left. *)
Lemma lstrip_rstrip (t : chars) :
  Text.lstrip t = t → Text.lstrip (Text.rstrip t) = Text.rstrip t.
Proof.
  intros Ht. destruct t as [|c t]; [done|].
  assert (Text.isspace c = false) as Hc.
  { cbn [Text.lstrip] in Ht. destruct (Text.isspace c) eqn:E; [|done].
    destruct (RecoverFacts.lstrip_suffix t) as [pre Hpre].
    rewrite Ht in Hpre. apply (f_equal length) in Hpre.
    rewrite length_app in Hpre. cbn [length] in Hpre. lia. }
  unfold Text.rstrip. cbn [rev]. rewrite RecoverFacts.lstrip_app.
  destruct (decide (Text.lstrip (rev t) = [])) as [Hnil|Hnot].
  - cbn [Text.lstrip]. rewrite Hc. cbn [rev app Text.lstrip]. by rewrite Hc.
  - rewrite rev_app_distr. cbn [rev app Text.lstrip]. by rewrite Hc.
Qed.

Lemma strip_idem (s : chars) : Text.strip (Text.strip s) = Text.strip s.
Proof.
  unfold Text.strip. rewrite (lstrip_rstrip (Text.lstrip s)) by apply lstrip_idem.
  apply rstrip_idem.
Qed.

End FormatFacts.

(** [_format_value] never prints nothing for a list: when the joined
    text of the items is empty, as for the empty list and for the list of
    one empty string, it prints [N/A]; the separators count, so the list
    of two empty strings is printed as a comma and a space.  On a string
    it strips the whitespace at both ends, and formatting what it returned
    changes nothing. *)
Theorem format_value_list `{Runtime} (l : list value) (s : string) :
  Pipeline._format_value (JList l) ≠ ""
  ∧ Pipeline._format_value (JList []) = "N/A"
  ∧ Pipeline._format_value (JList [JStr ""]) = "N/A"
  ∧ Pipeline._format_value (JList [JStr ""; JStr ""]) = ", "
  ∧ Pipeline._format_value (JStr (Pipeline._format_value (JStr s)))
    = Pipeline._format_value (JStr s).
Proof.
  split; [|split; [done|split; [done|split; [done|]]]].
  - cbn [Pipeline._format_value].
    destruct (String.eqb_spec
                (Text.join ", "
                   (map (λ i, match i with
                              | JDict _ | JList _ => Pipeline._format_value i
                              | _ => py_str i
                              end) l)) "") as [E|E]; done.
  - cbn [Pipeline._format_value py_str].
    by rewrite JsonFacts.chars_of_str_of, FormatFacts.strip_idem.
Qed.
